(** * Sentinel: recording state machine, capture tick and alert gate

    A shallow embedding of [sentinel/detection/motion_detector.py] and
    [sentinel/audio/alert_system.py].

    Modelling conventions.
    - A Python method of an object is a function from the object's state to
      an outcome (a returned value or a raised exception) and the state left
      behind; [try]/[except] keeps the attribute writes done before the raise.
    - Timestamps ([time.time()]) and contour areas ([cv2.contourArea]) are
      rationals [Q]; the rounding of Python floats is not modelled.
    - Whatever a call obtains from outside the object (clock readings, the
      frame read from the camera, whether an OpenCV or pyttsx3 call raises)
      is supplied by an environment record, one field per call site.
    - Calls made on the external handles (camera, video writer, speech
      engine) are appended to a log carried next to the attributes, so that
      "released" and "written" can be observed after the handle is dropped. *)

From Stdlib Require Import QArith Lqa ZArith Lia Bool String List.
Import ListNotations.

Local Open Scope Q_scope.

(** ** Outcomes and methods *)

Inductive Outcome (A : Type) : Type :=
| Returned (a : A)
| Raised (what : string).

Arguments Returned {A} a.
Arguments Raised {A} what.

Definition Method (S A : Type) : Type := S -> Outcome A * S.

Definition ret {S A} (a : A) : Method S A := fun s => (Returned a, s).

Definition raise {S A} (what : string) : Method S A := fun s => (Raised what, s).

Definition bind {S A B} (m : Method S A) (k : A -> Method S B) : Method S B :=
  fun s =>
    match m s with
    | (Returned a, s') => k a s'
    | (Raised what, s') => (Raised what, s')
    end.

Definition get {S} : Method S S := fun s => (Returned s, s).

Definition modify {S} (f : S -> S) : Method S unit := fun s => (Returned tt, f s).

(** [try: body except Exception: handler] *)
Definition try_except {S A} (body handler : Method S A) : Method S A :=
  fun s =>
    match body s with
    | (Returned a, s') => (Returned a, s')
    | (Raised _, s') => handler s'
    end.

(** A call on an external object that either raises or goes through. *)
Definition may_raise {S} (raises : bool) (what : string) : Method S unit :=
  if raises then raise what else ret tt.

Declare Scope method_scope.
Delimit Scope method_scope with method.
Notation "x <- m ;; k" := (bind m (fun x => k))
  (at level 61, m at next level, right associativity) : method_scope.
Notation "m ;;; k" := (bind m (fun _ => k))
  (at level 61, right associativity) : method_scope.

(** ** Constants ([sentinel/constants.py]) *)

Definition MIN_CONTOUR_AREA : Q := 700.
Definition MOTION_TIMEOUT : Q := 10.
Definition VIDEO_DIR : string := "recorded_videos".
Definition RECORDING_DURATION : Q := 10.
Definition RECORDING_FPS : Z := 20.
Definition VIDEO_CODEC : string := "XVID".
Definition MOTION_COOLDOWN : Q := 2.

(** ** Data *)

(** Python's [a >= b] and [a < b] on timestamps and areas. *)
Definition Qgeb (a b : Q) : bool := Qle_bool b a.
Definition Qltb (a b : Q) : bool := negb (Qle_bool b a).

(** What is drawn on the display copy of a frame. *)
Inductive Drawing : Type :=
| Rectangle (x1 y1 x2 y2 : Z)
| MotionLabel (x y : Z)
| RecText (remaining_time : Q)
| RecCircle.

(** A frame: its [shape[:2]] and the overlays drawn on it so far. *)
Record Frame : Type := mkFrame {
  frame_height : Z;
  frame_width : Z;
  drawings : list Drawing
}.

Definition draw (d : Drawing) (f : Frame) : Frame :=
  mkFrame (frame_height f) (frame_width f) (drawings f ++ [d]).

Definition Rect : Type := (Z * Z * Z * Z)%type.

(** A contour is seen by the code only through [cv2.contourArea] and
    [cv2.boundingRect]. *)
Record Contour : Type := mkContour {
  contourArea : Q;
  boundingRect : Rect
}.

Record VideoWriter : Type := mkVideoWriter {
  vw_path : string;
  vw_fourcc : string;
  vw_fps : Z;
  vw_frame_size : Z * Z
}.

Record VideoCapture : Type := mkVideoCapture {
  cap_index : Z;
  isOpened : bool
}.

(** Calls made on the external handles. *)
Inductive Call : Type :=
| WriterCreated (w : VideoWriter)
| WriterWrite (w : VideoWriter) (f : Frame)
| WriterRelease (w : VideoWriter)
| CaptureCreated (c : VideoCapture)
| CaptureRelease (c : VideoCapture).

Inductive RecordingStatus : Type :=
| started
| recording_
| stopped.

(** The attributes of [MotionDetector], and the log of external calls. *)
Record MotionDetector : Type := mkMotionDetector {
  cap : option VideoCapture;
  camera_index : Z;
  feed_active : bool;
  video_writer : option VideoWriter;
  recording : bool;
  recording_enabled : bool;
  recording_start_time : Q;
  last_motion_time : Q;
  frames_recorded : Z;
  motion_cooldown : Q;
  calls : list Call
}.

(** [MotionDetector.__init__] *)
Definition init : MotionDetector :=
  mkMotionDetector None 0%Z false None false true 0 0 0%Z MOTION_COOLDOWN [].

Definition set_cap v s :=
  mkMotionDetector v (camera_index s) (feed_active s) (video_writer s)
    (recording s) (recording_enabled s) (recording_start_time s)
    (last_motion_time s) (frames_recorded s) (motion_cooldown s) (calls s).

Definition set_camera_index v s :=
  mkMotionDetector (cap s) v (feed_active s) (video_writer s)
    (recording s) (recording_enabled s) (recording_start_time s)
    (last_motion_time s) (frames_recorded s) (motion_cooldown s) (calls s).

Definition set_feed_active v s :=
  mkMotionDetector (cap s) (camera_index s) v (video_writer s)
    (recording s) (recording_enabled s) (recording_start_time s)
    (last_motion_time s) (frames_recorded s) (motion_cooldown s) (calls s).

Definition set_video_writer v s :=
  mkMotionDetector (cap s) (camera_index s) (feed_active s) v
    (recording s) (recording_enabled s) (recording_start_time s)
    (last_motion_time s) (frames_recorded s) (motion_cooldown s) (calls s).

Definition set_recording v s :=
  mkMotionDetector (cap s) (camera_index s) (feed_active s) (video_writer s)
    v (recording_enabled s) (recording_start_time s)
    (last_motion_time s) (frames_recorded s) (motion_cooldown s) (calls s).

Definition set_recording_enabled v s :=
  mkMotionDetector (cap s) (camera_index s) (feed_active s) (video_writer s)
    (recording s) v (recording_start_time s)
    (last_motion_time s) (frames_recorded s) (motion_cooldown s) (calls s).

Definition set_recording_start_time v s :=
  mkMotionDetector (cap s) (camera_index s) (feed_active s) (video_writer s)
    (recording s) (recording_enabled s) v
    (last_motion_time s) (frames_recorded s) (motion_cooldown s) (calls s).

Definition set_last_motion_time v s :=
  mkMotionDetector (cap s) (camera_index s) (feed_active s) (video_writer s)
    (recording s) (recording_enabled s) (recording_start_time s)
    v (frames_recorded s) (motion_cooldown s) (calls s).

Definition set_frames_recorded v s :=
  mkMotionDetector (cap s) (camera_index s) (feed_active s) (video_writer s)
    (recording s) (recording_enabled s) (recording_start_time s)
    (last_motion_time s) v (motion_cooldown s) (calls s).

Definition log (c : Call) s :=
  mkMotionDetector (cap s) (camera_index s) (feed_active s) (video_writer s)
    (recording s) (recording_enabled s) (recording_start_time s)
    (last_motion_time s) (frames_recorded s) (motion_cooldown s)
    (calls s ++ [c]).

Definition is_none {A} (o : option A) : bool :=
  match o with None => true | Some _ => false end.

(** ** The environment of one tick *)

(** One field per place where [check_recording_status] and the methods it
    calls consult the outside. *)
Record RecEnv : Type := mkRecEnv {
  t_check : Q;            (* time.time(), check_recording_status *)
  strftime : string;      (* time.strftime, start_recording *)
  open_raises : bool;     (* cv2.VideoWriter(...) raises *)
  t_start : Q;            (* time.time(), start_recording *)
  write_raises : bool;    (* video_writer.write raises *)
  t_write : Q;            (* time.time(), write_frame *)
  release_raises : bool;  (* video_writer.release raises *)
  t_stop : Q              (* time.time(), stop_recording *)
}.

Local Open Scope method_scope.

(** ** Recording *)

(** [os.path.join(VIDEO_DIR, f"motion_{timestamp}.avi")] *)
Definition video_path_of (timestamp : string) : string :=
  (VIDEO_DIR ++ "/" ++ "motion_" ++ timestamp ++ ".avi")%string.

(** [MotionDetector.start_recording]: returns the path, or [None] both when
    already recording and when the attempt raised. *)
Definition start_recording (e : RecEnv) (frame_size : Z * Z)
  : Method MotionDetector (option string) :=
  s <- get ;;
  if recording s then ret None
  else
    try_except
      (let video_path := video_path_of (strftime e) in
       let w := mkVideoWriter video_path VIDEO_CODEC RECORDING_FPS frame_size in
       may_raise (open_raises e) "cv2.VideoWriter" ;;;
       modify (log (WriterCreated w)) ;;;
       modify (set_video_writer (Some w)) ;;;
       modify (set_recording true) ;;;
       modify (set_recording_start_time (t_start e)) ;;;
       modify (set_frames_recorded 0%Z) ;;;
       ret (Some video_path))
      (modify (set_recording false) ;;;
       modify (set_video_writer None) ;;;
       ret None).

(** [MotionDetector.stop_recording]: [None] when there is nothing to stop,
    otherwise whether the release went through. *)
Definition stop_recording (e : RecEnv) : Method MotionDetector (option bool) :=
  s <- get ;;
  match recording s, video_writer s with
  | true, Some w =>
      try_except
        (may_raise (release_raises e) "video_writer.release" ;;;
         modify (log (WriterRelease w)) ;;;
         modify (set_video_writer None) ;;;
         modify (set_recording false) ;;;
         ret (Some true))
        (modify (set_video_writer None) ;;;
         modify (set_recording false) ;;;
         ret (Some false))
  | _, _ => ret None
  end.

(** [MotionDetector.write_frame] *)
Definition write_frame (e : RecEnv) (frame : Frame) : Method MotionDetector bool :=
  s <- get ;;
  match recording s, video_writer s with
  | true, Some w =>
      try_except
        (may_raise (write_raises e) "video_writer.write" ;;;
         modify (log (WriterWrite w frame)) ;;;
         modify (fun s => set_frames_recorded (frames_recorded s + 1)%Z s) ;;;
         s1 <- get ;;
         let current_time := t_write e in
         (if Qgeb (current_time - recording_start_time s1) RECORDING_DURATION
          then stop_recording e ;;; ret tt
          else ret tt) ;;;
         ret true)
        (ret false)
  | _, _ => ret false
  end.

(** Python truthiness of [video_path] in [if video_path:]. *)
Definition truthy (p : option string) : bool :=
  match p with
  | Some EmptyString => false
  | Some _ => true
  | None => false
  end.

(** [MotionDetector.check_recording_status] *)
Definition check_recording_status (e : RecEnv) (motion_detected : bool) (frame : Frame)
  : Method MotionDetector (option RecordingStatus * option string) :=
  let current_time := t_check e in
  s <- get ;;
  if negb (recording_enabled s) && recording s then
    stop_recording e ;;; ret (Some stopped, None)
  else if negb (recording_enabled s) then
    ret (None, None)
  else
    video_path <-
      (if motion_detected && negb (recording s) then
         if Qgeb (current_time - last_motion_time s) (motion_cooldown s) then
           modify (set_last_motion_time current_time) ;;;
           let height := frame_height frame in
           let width := frame_width frame in
           start_recording e (width, height)
         else ret None
       else ret None) ;;
    if truthy video_path then ret (Some started, video_path)
    else
      s1 <- get ;;
      if recording s1 then
        write_frame e frame ;;;
        (if motion_detected
         then modify (set_last_motion_time current_time)
         else ret tt) ;;;
        ret (Some recording_, None)
      else ret (None, None).

(** ** Camera *)

(** [MotionDetector.stop_camera] *)
Definition stop_camera : Method MotionDetector unit :=
  modify (set_feed_active false) ;;;
  s <- get ;;
  match cap s with
  | Some c => modify (log (CaptureRelease c)) ;;; modify (set_cap None)
  | None => ret tt
  end.

(** [MotionDetector.start_camera]; [device_opens] is what [isOpened()] of
    the new [cv2.VideoCapture] answers. *)
Definition start_camera (device_opens : bool) (index : Z) : Method MotionDetector bool :=
  s <- get ;;
  (if feed_active s then stop_camera else ret tt) ;;;
  try_except
    (modify (set_camera_index index) ;;;
     let c := mkVideoCapture index device_opens in
     modify (log (CaptureCreated c)) ;;;
     modify (set_cap (Some c)) ;;;
     (if negb (isOpened c) then raise "Failed to open camera" else ret tt) ;;;
     modify (set_feed_active true) ;;;
     ret true)
    (s1 <- get ;;
     match cap s1 with
     | Some c => modify (log (CaptureRelease c)) ;;; modify (set_cap None)
     | None => ret tt
     end ;;;
     ret false).

(** The class body of [MotionDetector] defines [cleanup] twice.  This is the
    first definition (line 307, "Clean up camera and recording resources"). *)
Definition cleanup_first_def (e : RecEnv) : Method MotionDetector unit :=
  s <- get ;;
  (if recording s then stop_recording e ;;; ret tt else ret tt) ;;;
  stop_camera.

(** The second definition (line 342, "Clean up camera resources") rebinds the
    name: it is the method that [MotionDetector.cleanup] denotes. *)
Definition cleanup : Method MotionDetector unit :=
  stop_camera.

(** ** The capture tick *)

Definition DetectionResult : Type :=
  (option Frame * list Rect * bool * option RecordingStatus)%type.

Record TickEnv : Type := mkTickEnv {
  cap_read : Outcome (option Frame);      (* cap.read(): None when ret is false *)
  find_contours : Outcome (list Contour); (* cvtColor .. findContours *)
  rec_env : RecEnv;
  overlay_raises : bool;                  (* the REC putText / circle raise *)
  t_overlay : Q                           (* time.time(), detect_motion *)
}.

Definition lift {S A} (o : Outcome A) : Method S A := fun s => (o, s).

(** One iteration of [for contour in contours]. *)
Definition contour_step (acc : Frame * list Rect * bool) (contour : Contour)
  : Frame * list Rect * bool :=
  let '(frame, motion_rects, motion_detected) := acc in
  if Qltb (contourArea contour) MIN_CONTOUR_AREA then acc
  else
    let '(x, y, w, h) := boundingRect contour in
    (draw (MotionLabel x (y - 10)) (draw (Rectangle x y (x + w) (y + h)) frame),
     motion_rects ++ [(x, y, w, h)],
     true).

Definition contour_loop (contours : list Contour) (frame : Frame)
  : Frame * list Rect * bool :=
  fold_left contour_step contours (frame, [], false).

Definition Qmax0 (a : Q) : Q := if Qle_bool a 0 then 0 else a.

Definition failed_tick : DetectionResult := (None, [], false, None).

(** The body of the [try] block of [detect_motion]. *)
Definition detect_motion_body (e : TickEnv) : Method MotionDetector DetectionResult :=
  r <- lift (cap_read e) ;;
  match r with
  | None => raise "Failed to read frame from camera"
  | Some frame =>
      let original_frame := frame in
      contours <- lift (find_contours e) ;;
      let '(frame, motion_rects, motion_detected) := contour_loop contours frame in
      st <- check_recording_status (rec_env e) motion_detected original_frame ;;
      let '(recording_status, video_path) := st in
      s1 <- get ;;
      frame <-
        (if recording s1 then
           let elapsed_time := t_overlay e - recording_start_time s1 in
           let remaining_time := Qmax0 (RECORDING_DURATION - elapsed_time) in
           may_raise (overlay_raises e) "cv2.putText" ;;;
           ret (draw RecCircle (draw (RecText remaining_time) frame))
         else ret frame) ;;
      ret (Some frame, motion_rects, motion_detected, recording_status)
  end.

(** The test that opens [detect_motion]:
    [not self.feed_active or not self.cap or not self.cap.isOpened()]. *)
Definition feed_unavailable (s : MotionDetector) : bool :=
  negb (feed_active s)
  || match cap s with None => true | Some c => negb (isOpened c) end.

(** [MotionDetector.detect_motion] *)
Definition detect_motion (e : TickEnv) : Method MotionDetector DetectionResult :=
  s <- get ;;
  if feed_unavailable s then ret failed_tick
  else try_except (detect_motion_body e) (ret failed_tick).

(** ** Alert gate ([sentinel/audio/alert_system.py]) *)

Inductive TtsEngine : Type := Pyttsx3.

Record AudioAlertSystem : Type := mkAudioAlertSystem {
  last_alert_time : Q;
  tts_engine : option TtsEngine;
  spoken : list string          (* messages that went through say + runAndWait *)
}.

Record AlertEnv : Type := mkAlertEnv {
  t_alert : Q;                  (* time.time(), trigger_alert *)
  say_raises : bool;            (* tts_engine.say raises *)
  runAndWait_raises : bool      (* tts_engine.runAndWait raises *)
}.

Definition set_last_alert_time v a :=
  mkAudioAlertSystem v (tts_engine a) (spoken a).

Definition log_spoken (m : string) a :=
  mkAudioAlertSystem (last_alert_time a) (tts_engine a) (spoken a ++ [m]).

(** [AudioAlertSystem.__init__]; [engine] is [None] when [pyttsx3.init]
    raised. *)
Definition alert_init (engine : option TtsEngine) : AudioAlertSystem :=
  mkAudioAlertSystem 0 engine [].

(** [AudioAlertSystem.trigger_alert] *)
Definition trigger_alert (e : AlertEnv) (message : string)
  : Method AudioAlertSystem bool :=
  let current_time := t_alert e in
  a <- get ;;
  if is_none (tts_engine a)
     || Qle_bool (current_time - last_alert_time a) MOTION_TIMEOUT
  then ret false
  else
    try_except
      (may_raise (say_raises e) "tts_engine.say" ;;;
       may_raise (runAndWait_raises e) "tts_engine.runAndWait" ;;;
       modify (log_spoken message) ;;;
       modify (set_last_alert_time current_time) ;;;
       ret true)
      (ret false).

(** ** Sequences of ticks of the recording state machine *)

Record Tick : Type := mkTick {
  tick_env : RecEnv;
  tick_motion : bool;
  tick_frame : Frame
}.

Definition check_tick (t : Tick) :=
  check_recording_status (tick_env t) (tick_motion t) (tick_frame t).

(** The outcomes of successive [check_recording_status] calls and the
    detector they leave. *)
Fixpoint run (ticks : list Tick) (s : MotionDetector)
  : list (Outcome (option RecordingStatus * option string)) * MotionDetector :=
  match ticks with
  | [] => ([], s)
  | t :: ticks' =>
      let (o, s1) := check_tick t s in
      let (os, s2) := run ticks' s1 in
      (o :: os, s2)
  end.

(** The status part of what [check_recording_status] returned. *)
Definition status_is (st : option RecordingStatus)
  (o : Outcome (option RecordingStatus * option string)) : Prop :=
  exists p, o = Returned (st, p).

(** ** States the recording methods leave *)

(** What [stop_recording] leaves of an open session: flag cleared, writer
    dropped, and the release logged when it went through. *)
Definition after_stop (e : RecEnv) (w : VideoWriter) (s : MotionDetector)
  : MotionDetector :=
  set_recording false
    (set_video_writer None
       (if release_raises e then s else log (WriterRelease w) s)).

(** The detector right after [start_recording] opened a session. *)
Definition after_start (e : RecEnv) (size : Z * Z) (s : MotionDetector)
  : MotionDetector :=
  let w := mkVideoWriter (video_path_of (strftime e)) VIDEO_CODEC RECORDING_FPS size in
  set_frames_recorded 0%Z
    (set_recording_start_time (t_start e)
       (set_recording true
          (set_video_writer (Some w) (log (WriterCreated w) s)))).

(** The detector after [write_frame] put a frame into the open session. *)
Definition after_write (w : VideoWriter) (frame : Frame) (s : MotionDetector)
  : MotionDetector :=
  set_frames_recorded (frames_recorded s + 1)%Z (log (WriterWrite w frame) s).

(** [if motion_detected: self.last_motion_time = current_time] *)
Definition refresh_motion (e : RecEnv) (motion_detected : bool) (s : MotionDetector)
  : MotionDetector :=
  if motion_detected then set_last_motion_time (t_check e) s else s.

(** [(width, height)] of [frame.shape[:2]] *)
Definition frame_size (frame : Frame) : Z * Z :=
  (frame_width frame, frame_height frame).

(** ** Sessions and the ticks they go through *)


(** A session that is open under writer [w] since [since], with recording
    enabled. *)
Definition open_session (w : VideoWriter) (since : Q) (s : MotionDetector) : Prop :=
  recording_enabled s = true /\ recording s = true /\
  video_writer s = Some w /\ recording_start_time s = since.

(** Elapsed time of the open session as [write_frame] measures it on tick
    [t]. *)
Definition elapsed (t : Tick) (s : MotionDetector) : Q :=
  t_write (tick_env t) - recording_start_time s.

(** A tick on which an idle detector opens a session: motion, the cooldown
    over, and the writer created without raising. *)
Definition opens_session (s : MotionDetector) (t : Tick) : Prop :=
  tick_motion t = true /\
  motion_cooldown s <= t_check (tick_env t) - last_motion_time s /\
  open_raises (tick_env t) = false.

(** A tick that does not end an open session: its write raises, or the
    clock read after the write is short of the duration. *)
Definition keeps_open (since : Q) (t : Tick) : Prop :=
  write_raises (tick_env t) = true
  \/ t_write (tick_env t) - since < RECORDING_DURATION.

(** A tick of an open session whose frame goes into the file and which does
    not reach the duration. *)
Definition records (since : Q) (t : Tick) : Prop :=
  write_raises (tick_env t) = false
  /\ t_write (tick_env t) - since < RECORDING_DURATION.

(** A tick that ends the session: the write goes through and the duration is
    reached. *)
Definition expires (since : Q) (t : Tick) : Prop :=
  write_raises (tick_env t) = false
  /\ RECORDING_DURATION <= t_write (tick_env t) - since.

(** The frames that go into the file over some ticks of an open session: one
    per tick whose write does not raise. *)
Definition writes (ticks : list Tick) : Z :=
  Z.of_nat (length (filter (fun t => negb (write_raises (tick_env t))) ticks)).

(** The contours that the size filter of [detect_motion] keeps. *)
Definition survives (c : Contour) : bool :=
  negb (Qltb (contourArea c) MIN_CONTOUR_AREA).

(** ** Deliveries of the speech engine *)

Definition working (e : AlertEnv) : Prop :=
  say_raises e = false /\ runAndWait_raises e = false.

Definition delivery_raises (e : AlertEnv) : Prop :=
  say_raises e = true \/ runAndWait_raises e = true.

(** ** Sample data *)

(** A 640x480 frame; environments in which every call is made at time [t],
    and nothing raises ([clock], [alert_at]) or the writer cannot be created
    ([failing_open]); a detector whose camera was started, and the same one
    tick after motion opened a session at time 100. *)
Definition sample_frame : Frame := mkFrame 480 640 [].

Definition clock (t : Q) : RecEnv :=
  mkRecEnv t "20240101_120000" false t false t false t.

Definition failing_open (t : Q) : RecEnv :=
  mkRecEnv t "20240101_120000" true t false t false t.

Definition alert_at (t : Q) : AlertEnv := mkAlertEnv t false false.

Definition motion_at (t : Q) : Tick := mkTick (clock t) true sample_frame.

Definition still_at (t : Q) : Tick := mkTick (clock t) false sample_frame.

Definition camera_on : MotionDetector := snd (start_camera true 0%Z init).

Definition sample_writer : VideoWriter :=
  mkVideoWriter (video_path_of "20240101_120000") VIDEO_CODEC RECORDING_FPS (640, 480)%Z.

Definition recording_since_100 : MotionDetector :=
  snd (run [motion_at 100] camera_on).

(** A tick of [detect_motion] that reads [sample_frame] and finds one
    contour of area 800 and one of area 100; and a tick whose read gives no
    frame. *)
Definition sample_tick : TickEnv :=
  mkTickEnv (Returned (Some sample_frame))
    (Returned [mkContour 800 (1, 2, 3, 4)%Z; mkContour 100 (5, 6, 7, 8)%Z])
    (clock 100) false 100.

Definition no_frame_tick : TickEnv :=
  mkTickEnv (Returned None) (Returned []) (clock 100) false 100.

(** ** Proof automation *)

Ltac unfold_method :=
  unfold bind, ret, get, modify, try_except, may_raise, raise, lift in *.

Ltac run_method := unfold_method; cbn in *.

(** * The rest of [MotionDetector] *)

(** ** Still images *)

Definition CAPTURE_DIR : string := "captured_images".

Record CaptureEnv : Type := mkCaptureEnv {
  still_read : Outcome (option Frame);  (* cap.read(): None when ret is false *)
  still_strftime : string               (* time.strftime, capture_image *)
}.

(** [cv2.rotate(frame, cv2.ROTATE_90_CLOCKWISE)], seen through the shape of
    the frame: height and width change places. *)
Definition rotate_90_clockwise (f : Frame) : Frame :=
  mkFrame (frame_width f) (frame_height f) (drawings f).

(** [f"{CAPTURE_DIR}/capture_{timestamp}.png"] *)
Definition capture_filename (timestamp : string) : string :=
  (CAPTURE_DIR ++ "/capture_" ++ timestamp ++ ".png")%string.

(** [MotionDetector.capture_image] *)
Definition capture_image (e : CaptureEnv) (orientation : string)
  : Method MotionDetector (option (Frame * string)) :=
  s <- get ;;
  if feed_unavailable s then ret None
  else
    try_except
      (r <- lift (still_read e) ;;
       match r with
       | None => raise "Failed to capture image"
       | Some frame =>
           let frame :=
             if String.eqb orientation "vertical"
             then rotate_90_clockwise frame else frame in
           let filename := capture_filename (still_strftime e) in
           ret (Some (frame, filename))
       end)
      (ret None).

(** ** Calls of the public interface *)

(** One call of a method of [MotionDetector], with the environment it runs
    in, or one assignment to an attribute that callers set directly
    ([MainWindow.search_cameras] assigns [camera_index]). *)
Inductive Op : Type :=
| OpStartCamera (device_opens : bool) (index : Z)
| OpStopCamera
| OpDetectMotion (e : TickEnv)
| OpCheckRecordingStatus (e : RecEnv) (motion_detected : bool) (frame : Frame)
| OpStartRecording (e : RecEnv) (frame_size : Z * Z)
| OpStopRecording (e : RecEnv)
| OpWriteFrame (e : RecEnv) (frame : Frame)
| OpCaptureImage (e : CaptureEnv) (orientation : string)
| OpCleanup
| OpAssignCameraIndex (index : Z)
| OpAssignRecordingEnabled (enabled : bool).

Definition apply_op (op : Op) (s : MotionDetector) : MotionDetector :=
  match op with
  | OpStartCamera device_opens index => snd (start_camera device_opens index s)
  | OpStopCamera => snd (stop_camera s)
  | OpDetectMotion e => snd (detect_motion e s)
  | OpCheckRecordingStatus e m frame => snd (check_recording_status e m frame s)
  | OpStartRecording e size => snd (start_recording e size s)
  | OpStopRecording e => snd (stop_recording e s)
  | OpWriteFrame e frame => snd (write_frame e frame s)
  | OpCaptureImage e orientation => snd (capture_image e orientation s)
  | OpCleanup => snd (cleanup s)
  | OpAssignCameraIndex index => set_camera_index index s
  | OpAssignRecordingEnabled enabled => set_recording_enabled enabled s
  end.

(** The detector after a sequence of calls. *)
Definition run_ops (ops : list Op) (s : MotionDetector) : MotionDetector :=
  fold_left (fun s op => apply_op op s) ops s.

(** ** What the recording methods do to the detector, one change at a time *)

Inductive session_atom : MotionDetector -> MotionDetector -> Prop :=
| atom_last_motion t s :
    session_atom s (set_last_motion_time t s)
| atom_start e size s :
    recording s = false -> session_atom s (after_start e size s)
| atom_abort s :
    recording s = false ->
    session_atom s (set_video_writer None (set_recording false s))
| atom_write w frame s :
    recording s = true -> video_writer s = Some w ->
    session_atom s (after_write w frame s)
| atom_stop e w s :
    recording s = true -> video_writer s = Some w ->
    session_atom s (after_stop e w s).

Inductive session_steps : MotionDetector -> MotionDetector -> Prop :=
| steps_none s : session_steps s s
| steps_then s1 s2 s3 :
    session_steps s1 s2 -> session_atom s2 s3 -> session_steps s1 s3.

(** ** Invariants *)

(** The flag [recording] is set exactly when a writer is held, and
    [feed_active] exactly when a camera handle is held. *)
Definition consistent (s : MotionDetector) : Prop :=
  (recording s = true <-> video_writer s <> None) /\
  (feed_active s = true <-> cap s <> None).

(** The frames written, according to the log, since a writer was last
    created. *)
Definition frames_in_last_clip (cs : list Call) : Z :=
  fold_left
    (fun n c =>
       match c with
       | WriterCreated _ => 0
       | WriterWrite _ _ => n + 1
       | _ => n
       end)%Z
    cs 0%Z.

(** Camera handles created and not released, according to the log. *)
Definition held_captures (cs : list Call) : Z :=
  fold_left
    (fun n c =>
       match c with
       | CaptureCreated _ => n + 1
       | CaptureRelease _ => n - 1
       | _ => n
       end)%Z
    cs 0%Z.

(** The detector satisfies all three. *)
Definition sound (s : MotionDetector) : Prop :=
  consistent s /\
  frames_recorded s = frames_in_last_clip (calls s) /\
  held_captures (calls s) = match cap s with Some _ => 1%Z | None => 0%Z end.

(** The calls of the log that are made on camera handles, in the order of
    the log. *)
Definition capture_calls (cs : list Call) : list Call :=
  filter
    (fun c =>
       match c with
       | CaptureCreated _ | CaptureRelease _ => true
       | _ => false
       end)
    cs.

(** The handles the log releases, one entry per release, in the order of
    the log. *)
Definition released_captures (cs : list Call) : list VideoCapture :=
  flat_map
    (fun c =>
       match c with
       | CaptureRelease h => [h]
       | _ => []
       end)
    cs.

(** The calls on camera handles of a log in which each handle of
    [released] was created and then released, once, before the next was
    created, and in which [held], if there is one, was created after all of
    them and has not been released. *)
Definition paired_captures (released : list VideoCapture)
    (held : option VideoCapture) : list Call :=
  flat_map (fun h => [CaptureCreated h; CaptureRelease h]) released
  ++ match held with
     | Some h => [CaptureCreated h]
     | None => []
     end.

(** The log of the detector has that form, with the handle in [cap] as the
    one that is held. *)
Definition captures_paired (s : MotionDetector) : Prop :=
  capture_calls (calls s) = paired_captures (released_captures (calls s)) (cap s).

(** ** States the camera methods leave *)

Definition after_stop_camera (s : MotionDetector) : MotionDetector :=
  match cap s with
  | Some c => set_cap None (log (CaptureRelease c) (set_feed_active false s))
  | None => set_feed_active false s
  end.

(** [start_camera] up to the creation of the new handle. *)
Definition camera_created (index : Z) (c : VideoCapture) (s : MotionDetector)
  : MotionDetector :=
  set_cap (Some c)
    (log (CaptureCreated c)
       (set_camera_index index
          (if feed_active s then after_stop_camera s else s))).

(** The recording methods leave the camera and the settings of the
    detector alone. *)
Definition same_camera (s s' : MotionDetector) : Prop :=
  cap s' = cap s /\ feed_active s' = feed_active s /\
  camera_index s' = camera_index s /\
  recording_enabled s' = recording_enabled s /\
  motion_cooldown s' = motion_cooldown s /\
  held_captures (calls s') = held_captures (calls s).

(** Simplification of attribute reads after attribute writes. *)
Ltac fields :=
  cbn [cap feed_active camera_index video_writer recording recording_enabled
       recording_start_time last_motion_time frames_recorded motion_cooldown
       calls set_cap set_camera_index set_feed_active set_video_writer
       set_recording set_recording_enabled set_recording_start_time
       set_last_motion_time set_frames_recorded log fst snd] in *.

(** A tick at time [t] whose write raises. *)
Definition write_fails_at (t : Q) : Tick :=
  mkTick (mkRecEnv t "20240101_120000" false t true t false t) true sample_frame.

(** * Settings ([sentinel/settings/manager.py]) *)

(** ** Values and dictionaries *)

(** The values that the settings hold. *)
Inductive Value : Type :=
| VNone
| VBool (b : bool)
| VInt (n : Z)
| VFloat (q : Q)
| VStr (s : string)
| VTuple (l : list Z)
| VList (l : list Z).

(** A Python [dict] with string keys: the items in insertion order, each key
    once. *)
Definition Dict : Type := list (string * Value).

(** [d.get(k)] *)
Fixpoint dict_get (k : string) (d : Dict) : option Value :=
  match d with
  | [] => None
  | (k', v) :: d' => if String.eqb k' k then Some v else dict_get k d'
  end.

(** [d.get(k, default)] *)
Definition dict_get_default (k : string) (default : Value) (d : Dict) : Value :=
  match dict_get k d with Some v => v | None => default end.

(** [d[k] = v]: a key that is there keeps its place, a new key goes last. *)
Fixpoint dict_set (k : string) (v : Value) (d : Dict) : Dict :=
  match d with
  | [] => [(k, v)]
  | (k', v') :: d' =>
      if String.eqb k' k then (k', v) :: d' else (k', v') :: dict_set k v d'
  end.

(** [d.update(other)] *)
Definition dict_update (d other : Dict) : Dict :=
  fold_left (fun acc kv => dict_set (fst kv) (snd kv) acc) other d.


(** Python truthiness of a value. *)
Definition value_truthy (v : Value) : bool :=
  match v with
  | VNone => false
  | VBool b => b
  | VInt n => negb (n =? 0)%Z
  | VFloat q => negb (Qeq_bool q 0)
  | VStr s => negb (String.eqb s "")
  | VTuple l => negb (is_none (hd_error l))
  | VList l => negb (is_none (hd_error l))
  end.

(** What [json.load] gives back for a value that [json.dump] wrote: a tuple
    comes back as a list, the other values as they were. *)
Definition json_value (v : Value) : Value :=
  match v with
  | VTuple l => VList l
  | _ => v
  end.

Definition json_dict (d : Dict) : Dict :=
  map (fun kv => (fst kv, json_value (snd kv))) d.

(** [try: body except (classes) as e: handler]: only an exception of one of
    the named classes is handled.  An exception goes by the name of the
    listed class it is an instance of, or by its own name when it is an
    instance of none. *)
Definition try_except_only {S A} (classes : list string)
  (body handler : Method S A) : Method S A :=
  fun s =>
    match body s with
    | (Returned a, s') => (Returned a, s')
    | (Raised what, s') =>
        if existsb (String.eqb what) classes then handler s'
        else (Raised what, s')
    end.

(** A call that raises the named exception, or goes through. *)
Definition may_raise_named {S} (raises : option string) : Method S unit :=
  match raises with Some what => raise what | None => ret tt end.

Module Settings.

(** Constants ([sentinel/constants.py]) *)
Definition SETTINGS_FILE : string := "settings.json".
Definition DEFAULT_SPEECH_SPEED : Z := 150.
Definition DEFAULT_VOLUME : Q := 1.
Definition DEFAULT_WINDOW_SIZE : list Z := [800; 600]%Z.
Definition DEFAULT_FEED_SIZE : list Z := [640; 480]%Z.
Definition SAVE_DEBOUNCE_INTERVAL : Q := 1.

(** The exceptions that [dict.update] raises on an argument that is no
    mapping. *)
Inductive UpdateError : Type :=
| TypeError
| ValueError.

Definition error_name (err : UpdateError) : string :=
  match err with
  | TypeError => "TypeError"
  | ValueError => "ValueError"
  end.

(** An element of a JSON array, as [dict.update] takes it when the array is
    its argument.  [Pair key value] is an element that has two components,
    the first of them a string: a two-element array, a two-character string,
    an object with two members (whose two keys are then taken).  [NoPair] is
    an element that [dict.update] rejects: one that is no sequence (a
    number, [true], [false], [null]; [TypeError]), one that has not two
    components ([ValueError]), one whose first component cannot be a key (an
    array or an object; [TypeError]).  A pair whose first component is a
    number, [true], [false] or [null] would be stored under a key that is no
    string; the settings are a [Dict[str, Any]], as the signatures of
    [load_settings] and [save_settings] declare them, and an array with such
    an element is not covered. *)
Inductive Element : Type :=
| Pair (key : string) (value : Value)
| NoPair (err : UpdateError).

(** What the settings file holds: text that [json.load] takes, which gives
    an object, an array, a string, or a scalar ([null], [true], [false] or a
    number), or text that [json.load] rejects. *)
Inductive FileContent : Type :=
| JsonObject (d : Dict)
| JsonArray (elements : list Element)
| JsonString (s : string)
| JsonScalar
| NotJson.

(** The attributes of [SettingsManager], and the file at [settings_file]
    ([None]: there is no such file). *)
Record SettingsManager : Type := mkSettingsManager {
  settings_file : string;
  last_save_time : Q;
  default_settings : Dict;
  settings : Dict;
  disk : option FileContent
}.

Definition set_last_save_time v m :=
  mkSettingsManager (settings_file m) v (default_settings m) (settings m) (disk m).

Definition set_settings v m :=
  mkSettingsManager (settings_file m) (last_save_time m) (default_settings m) v
    (disk m).

Definition set_disk v m :=
  mkSettingsManager (settings_file m) (last_save_time m) (default_settings m)
    (settings m) v.

(** [self.default_settings] of [__init__] *)
Definition defaults : Dict :=
  [ ("speech_speed", VInt DEFAULT_SPEECH_SPEED);
    ("volume", VFloat DEFAULT_VOLUME);
    ("voice_id", VStr "");
    ("cam_orientation", VStr "horizontal");
    ("camera_index", VInt 0);
    ("feed_active", VBool false);
    ("window_size", VTuple DEFAULT_WINDOW_SIZE);
    ("feed_size", VTuple DEFAULT_FEED_SIZE);
    ("recording_enabled", VBool true);
    ("motion_cooldown", VFloat MOTION_COOLDOWN) ]%string.

Record LoadEnv : Type := mkLoadEnv {
  read_raises : option string   (* open(..., "r") raises the named exception *)
}.

Record SaveEnv : Type := mkSaveEnv {
  t_save : Q;                   (* time.time(), save_settings *)
  open_raises : option string   (* open(..., "w") raises the named exception *)
}.

(** [self.settings.update(loaded_settings)] for a [loaded_settings] that is
    a list: the elements are taken in order and each pair is stored as it is
    met; the first element that is no pair raises, and the pairs before it
    stay stored. *)
Fixpoint update_from_elements (elements : list Element)
  : Method SettingsManager unit :=
  match elements with
  | [] => ret tt
  | Pair key value :: rest =>
      modify (fun m => set_settings (dict_set key value (settings m)) m) ;;;
      update_from_elements rest
  | NoPair err :: _ => raise (error_name err)
  end.

(** [SettingsManager.load_settings].  What [json.load] gave goes to
    [self.settings.update]: an object is merged; an array is taken element
    by element; a string is a sequence of one-character strings, none of
    which is a pair ([ValueError], unless the string is empty); a scalar is
    not iterable ([TypeError]).  The [except] clause names
    [JSONDecodeError], [PermissionError] and [OSError]: what [dict.update]
    raises is none of them and leaves the method, with the pairs that were
    stored before. *)
Definition load_settings (e : LoadEnv) : Method SettingsManager Dict :=
  try_except_only ["JSONDecodeError"; "PermissionError"; "OSError"]%string
    (m <- get ;;
     match disk m with
     | None => ret tt
     | Some content =>
         may_raise_named (read_raises e) ;;;
         match content with
         | NotJson => raise "JSONDecodeError"
         | JsonObject loaded_settings =>
             modify (set_settings (dict_update (settings m) loaded_settings))
         | JsonArray elements => update_from_elements elements
         | JsonString s => if String.eqb s "" then ret tt else raise "ValueError"
         | JsonScalar => raise "TypeError"
         end
     end)
    (ret tt) ;;;
  m <- get ;;
  ret (settings m).

(** [if settings:] on the argument of [save_settings]: a dictionary with
    something in it. *)
Definition given (new_settings : option Dict) : option Dict :=
  match new_settings with
  | Some (kv :: rest) => Some (kv :: rest)
  | _ => None
  end.

(** [SettingsManager.save_settings] *)
Definition save_settings (e : SaveEnv) (new_settings : option Dict)
  : Method SettingsManager bool :=
  let current_time := t_save e in
  m <- get ;;
  if Qltb (current_time - last_save_time m) SAVE_DEBOUNCE_INTERVAL then ret false
  else
    match given new_settings with
    | Some d => modify (fun m => set_settings (dict_update (settings m) d) m)
    | None => ret tt
    end ;;;
    try_except_only ["PermissionError"; "OSError"]%string
      (may_raise_named (open_raises e) ;;;
       modify (fun m => set_disk (Some (JsonObject (json_dict (settings m)))) m) ;;;
       modify (set_last_save_time current_time) ;;;
       ret true)
      (ret false).

(** [SettingsManager.__init__] on a file system where the settings file
    holds [file]; an exception that [load_settings] lets through leaves
    [__init__]. *)
Definition init (file_name : string) (file : option FileContent) (e : LoadEnv)
  : Outcome Dict * SettingsManager :=
  load_settings e (mkSettingsManager file_name 0 defaults defaults file).

(** [SettingsManager.set] *)
Definition set (e : SaveEnv) (key : string) (value : Value) (save : bool)
  : Method SettingsManager unit :=
  modify (fun m => set_settings (dict_set key value (settings m)) m) ;;;
  if save then save_settings e None ;;; ret tt else ret tt.

(** [SettingsManager.get] *)
Definition get (key : string) (default : Value) (m : SettingsManager) : Value :=
  dict_get_default key default (settings m).

(** Calls of the public interface, and the manager after a sequence of
    them. *)
Inductive Op : Type :=
| OpLoad (e : LoadEnv)
| OpSave (e : SaveEnv) (new_settings : option Dict)
| OpSet (e : SaveEnv) (key : string) (value : Value) (save : bool).

Definition apply_op (op : Op) (m : SettingsManager) : SettingsManager :=
  match op with
  | OpLoad e => snd (load_settings e m)
  | OpSave e new_settings => snd (save_settings e new_settings m)
  | OpSet e key value save => snd (set e key value save m)
  end.

Definition run_ops (ops : list Op) (m : SettingsManager) : SettingsManager :=
  fold_left (fun m op => apply_op op m) ops m.








(** The exceptions that [save_settings] handles. *)
Definition save_handles (what : string) : bool :=
  existsb (String.eqb what) ["PermissionError"; "OSError"]%string.

(** A save that is due and goes through. *)
Definition saves (e : SaveEnv) (m : SettingsManager) : Prop :=
  SAVE_DEBOUNCE_INTERVAL <= t_save e - last_save_time m /\
  open_raises e = None.

End Settings.

(** * The rest of [AudioAlertSystem] *)

(** [v in ids] for a list of strings: only a string can be in it. *)
Definition value_in (v : Value) (ids : list string) : bool :=
  match v with
  | VStr s => existsb (String.eqb s) ids
  | _ => false
  end.

Module Audio.

(** [AudioAlertSystem] with the attributes that [trigger_alert] does not
    read: the voices (a voice is seen through its [id] only), their ids,
    and next to them the properties that were set on the engine with
    [setProperty]. *)
Record Speech : Type := mkSpeech {
  alert : AudioAlertSystem;
  voices : list string;
  voice_ids : list string;
  properties : Dict
}.

Definition set_alert v a := mkSpeech v (voices a) (voice_ids a) (properties a).
Definition set_voices v a := mkSpeech (alert a) v (voice_ids a) (properties a).
Definition set_voice_ids v a := mkSpeech (alert a) (voices a) v (properties a).
Definition set_properties v a := mkSpeech (alert a) (voices a) (voice_ids a) v.

Definition set_tts_engine v (a : AudioAlertSystem) :=
  mkAudioAlertSystem (last_alert_time a) v (spoken a).

Record InitEnv : Type := mkInitEnv {
  init_raises : bool;                  (* pyttsx3.init() raises *)
  get_voices : Outcome (list string);  (* getProperty("voices"), as ids *)
  setProperty_raises : string -> bool  (* setProperty(name, _) raises *)
}.

(** [self.tts_engine.setProperty(name, value)] *)
Definition setProperty (raises : string -> bool) (name : string) (value : Value)
  : Method Speech unit :=
  may_raise (raises name) "setProperty" ;;;
  modify (fun a => set_properties (dict_set name value (properties a)) a).

(** The object at the start of [__init__]. *)
Definition blank : Speech := mkSpeech (mkAudioAlertSystem 0 None []) [] [] [].

(** [voice_ids[0] if voice_ids else None] *)
Definition first_voice (ids : list string) : Value :=
  match ids with
  | id :: _ => VStr id
  | [] => VNone
  end.

(** [AudioAlertSystem.__init__] *)
Definition init (e : InitEnv) (settings : Dict) : Speech :=
  snd
    (try_except
       (may_raise (init_raises e) "pyttsx3.init" ;;;
        modify (fun a => set_alert (set_tts_engine (Some Pyttsx3) (alert a)) a) ;;;
        vs <- lift (get_voices e) ;;
        modify (set_voices vs) ;;;
        modify (set_voice_ids vs) ;;;
        setProperty (setProperty_raises e) "rate"
          (dict_get_default "speech_speed" (VInt Settings.DEFAULT_SPEECH_SPEED)
             settings) ;;;
        setProperty (setProperty_raises e) "volume"
          (dict_get_default "volume" (VFloat Settings.DEFAULT_VOLUME) settings) ;;;
        a <- get ;;
        let voice_id :=
          dict_get_default "voice_id" (first_voice (voice_ids a)) settings in
        if value_truthy voice_id && value_in voice_id (voice_ids a)
        then setProperty (setProperty_raises e) "voice" voice_id
        else
          match voice_ids a with
          | id :: _ => setProperty (setProperty_raises e) "voice" (VStr id)
          | [] => ret tt
          end)
       (modify (fun a => set_alert (set_tts_engine None (alert a)) a))
       blank).

(** [AudioAlertSystem.update_settings] *)
Definition update_settings (raises : string -> bool) (settings : Dict)
  : Method Speech unit :=
  a <- get ;;
  if is_none (tts_engine (alert a)) then ret tt
  else
    try_except
      (match dict_get "speech_speed" settings with
       | Some v => setProperty raises "rate" v
       | None => ret tt
       end ;;;
       match dict_get "volume" settings with
       | Some v => setProperty raises "volume" v
       | None => ret tt
       end ;;;
       match dict_get "voice_id" settings with
       | Some v =>
           if value_in v (voice_ids a) then setProperty raises "voice" v
           else ret tt
       | None => ret tt
       end)
      (ret tt).

Record CleanupEnv : Type := mkCleanupEnv {
  stop_raises : bool;      (* tts_engine.stop() raises *)
  in_loop : bool;          (* hasattr(engine, '_inLoop') and engine._inLoop *)
  endLoop_raises : bool    (* tts_engine.endLoop() raises *)
}.

(** [AudioAlertSystem.cleanup] *)
Definition cleanup (e : CleanupEnv) : Method AudioAlertSystem unit :=
  a <- get ;;
  if is_none (tts_engine a) then ret tt
  else
    try_except
      (may_raise (stop_raises e) "tts_engine.stop" ;;;
       (if in_loop e then may_raise (endLoop_raises e) "tts_engine.endLoop"
        else ret tt) ;;;
       modify (set_tts_engine None))
      (ret tt).

(** A method that works on the attributes of [trigger_alert], run on the
    whole object. *)
Definition on_alert {A} (m : Method AudioAlertSystem A) : Method Speech A :=
  fun a => let (o, alert') := m (alert a) in (o, set_alert alert' a).

(** Calls of the public interface, and the object after a sequence of
    them. *)
Inductive Op : Type :=
| OpTriggerAlert (e : AlertEnv) (message : string)
| OpUpdateSettings (raises : string -> bool) (settings : Dict)
| OpCleanup (e : CleanupEnv).

Definition apply_op (op : Op) (a : Speech) : Speech :=
  match op with
  | OpTriggerAlert e message => snd (on_alert (trigger_alert e message) a)
  | OpUpdateSettings raises settings => snd (update_settings raises settings a)
  | OpCleanup e => snd (on_alert (cleanup e) a)
  end.

Definition run_ops (ops : list Op) (a : Speech) : Speech :=
  fold_left (fun a op => apply_op op a) ops a.

(** The voice set on the engine, if one was set, is one of the voices the
    engine has. *)
Definition voice_available (a : Speech) : Prop :=
  match dict_get "voice" (properties a) with
  | None => True
  | Some v => value_in v (voice_ids a) = true
  end.

(** The second object has the voices and the alert attributes of the first,
    and an available voice if the first has. *)
Definition same_voices (a a' : Speech) : Prop :=
  voice_ids a' = voice_ids a /\ alert a' = alert a /\
  (voice_available a -> voice_available a').

(** A [cleanup] that goes through. *)
Definition cleans (e : CleanupEnv) : Prop :=
  stop_raises e = false /\ (in_loop e = false \/ endLoop_raises e = false).

(** Successive [trigger_alert] calls. *)
Fixpoint trigger_all (calls : list (AlertEnv * string)) (a : AudioAlertSystem)
  : list (Outcome bool) * AudioAlertSystem :=
  match calls with
  | [] => ([], a)
  | (e, message) :: calls' =>
      let (o, a1) := trigger_alert e message a in
      let (os, a2) := trigger_all calls' a1 in
      (o :: os, a2)
  end.

End Audio.

(** * The window's use of the components ([sentinel/ui/main_window.py]) *)

Module Window.

(** What the label of the window is set to. *)
Inductive StatusText : Type :=
| ErrorReadingFrame (camera_index : Z)   (* "Camera {i}: Error Reading Frame" *)
| RecordingStarted                       (* "Recording started (10 seconds)" *)
| NoneAvailable                          (* "Camera: None Available" *)
| Connected (camera_index : Z)           (* "Camera {i}: Connected" *)
| FailedToConnect (camera_index : Z)     (* "Camera {i}: Failed to Connect" *)
| Disconnected (camera_index : Value).   (* "Camera {i}: Disconnected" *)

(** Calls on the widgets that show something: the status label and the feed.
    Calls that only restyle or enable buttons are left out. *)
Inductive UiCall : Type :=
| SetStatus (t : StatusText)
| ShowFrame (frame : Frame)   (* display_frame *)
| ShowBlank.                  (* show_blank_frame *)

(** The current text of the camera drop-down, which [search_cameras] fills
    with "Camera {i}" items or with "No Cameras Found". *)
Inductive ComboText : Type :=
| NoCamerasFound
| CameraItem (i : Z).

(** The components the window holds, whether its timer runs, and what it
    put on its widgets.  Of the audio system only the attributes of
    [trigger_alert] are kept. *)
Record MainWindow : Type := mkMainWindow {
  settings_manager : Settings.SettingsManager;
  motion_detector : MotionDetector;
  audio_system : AudioAlertSystem;
  timer_active : bool;
  ui : list UiCall
}.

Definition set_settings_manager v w :=
  mkMainWindow v (motion_detector w) (audio_system w) (timer_active w) (ui w).
Definition set_motion_detector v w :=
  mkMainWindow (settings_manager w) v (audio_system w) (timer_active w) (ui w).
Definition set_audio_system v w :=
  mkMainWindow (settings_manager w) (motion_detector w) v (timer_active w) (ui w).
Definition set_timer_active v w :=
  mkMainWindow (settings_manager w) (motion_detector w) (audio_system w) v (ui w).
Definition show (c : UiCall) w :=
  mkMainWindow (settings_manager w) (motion_detector w) (audio_system w)
    (timer_active w) (ui w ++ [c]).

(** A method of a component, called through the window. *)
Definition on_detector {A} (m : Method MotionDetector A) : Method MainWindow A :=
  fun w => let (o, d) := m (motion_detector w) in (o, set_motion_detector d w).

Definition on_audio {A} (m : Method AudioAlertSystem A) : Method MainWindow A :=
  fun w => let (o, a) := m (audio_system w) in (o, set_audio_system a w).

Definition on_settings {A} (m : Method Settings.SettingsManager A)
  : Method MainWindow A :=
  fun w => let (o, s) := m (settings_manager w) in (o, set_settings_manager s w).

(** [MainWindow.display_frame]: the colour conversion may raise. *)
Definition display_frame (raises : bool) (frame : Frame) : Method MainWindow unit :=
  may_raise raises "cv2.cvtColor" ;;;
  modify (show (ShowFrame frame)).

(** [MainWindow.show_blank_frame], which ends in [display_frame]. *)
Definition show_blank_frame (raises : bool) : Method MainWindow unit :=
  may_raise raises "cv2.cvtColor" ;;;
  modify (show ShowBlank).

Record ToggleEnv : Type := mkToggleEnv {
  combo : ComboText;               (* camera_combo.currentText() *)
  device_opens : bool;             (* isOpened() of the new capture *)
  save_first : Settings.SaveEnv;   (* the first settings_manager.set *)
  save_second : Settings.SaveEnv;  (* the second settings_manager.set *)
  blank_raises : bool              (* show_blank_frame raises *)
}.

(** [MainWindow.toggle_feed] *)
Definition toggle_feed (e : ToggleEnv) : Method MainWindow unit :=
  w <- get ;;
  if negb (feed_active (motion_detector w)) then
    match combo e with
    | NoCamerasFound => modify (show (SetStatus NoneAvailable))
    | CameraItem camera_index =>
        ok <- on_detector (start_camera (device_opens e) camera_index) ;;
        if ok then
          modify (show (SetStatus (Connected camera_index))) ;;;
          modify (set_timer_active true) ;;;
          on_settings
            (Settings.set (save_first e) "camera_index" (VInt camera_index) true) ;;;
          on_settings
            (Settings.set (save_second e) "feed_active" (VBool true) true)
        else modify (show (SetStatus (FailedToConnect camera_index)))
    end
  else
    on_detector stop_camera ;;;
    w1 <- get ;;
    modify (show (SetStatus
                    (Disconnected
                       (Settings.get "camera_index" (VInt 0) (settings_manager w1))))) ;;;
    modify (set_timer_active false) ;;;
    on_settings (Settings.set (save_first e) "feed_active" (VBool false) true) ;;;
    show_blank_frame (blank_raises e).

Record FeedEnv : Type := mkFeedEnv {
  tick : TickEnv;                  (* the tick of detect_motion *)
  alert_env : AlertEnv;            (* trigger_alert *)
  toggle : ToggleEnv;              (* toggle_feed, on a failed tick *)
  display_raises : bool            (* display_frame raises *)
}.

(** [settings.get("cam_orientation", "horizontal") == "vertical"] *)
Definition is_vertical (v : Value) : bool :=
  match v with
  | VStr s => String.eqb s "vertical"
  | _ => false
  end.

(** [MainWindow.update_feed] *)
Definition update_feed (e : FeedEnv) : Method MainWindow unit :=
  r <- on_detector (detect_motion (tick e)) ;;
  let '(frame, _, motion_detected, recording_status) := r in
  match frame with
  | None =>
      w <- get ;;
      modify (show (SetStatus
                      (ErrorReadingFrame (camera_index (motion_detector w))))) ;;;
      toggle_feed (toggle e)
  | Some frame =>
      w <- get ;;
      let frame :=
        if is_vertical
             (Settings.get "cam_orientation" (VStr "horizontal") (settings_manager w))
        then rotate_90_clockwise frame else frame in
      match recording_status with
      | Some started => modify (show (SetStatus RecordingStarted))
      | _ => ret tt
      end ;;;
      (if motion_detected
       then on_audio (trigger_alert (alert_env e) "Motion detected!") ;;; ret tt
       else ret tt) ;;;
      display_frame (display_raises e) frame
  end.

(** [MainWindow.closeEvent] *)
Definition closeEvent (e : Settings.SaveEnv) : Method MainWindow unit :=
  w <- get ;;
  (if feed_active (motion_detector w)
   then modify (set_timer_active false) ;;; on_detector cleanup
   else ret tt) ;;;
  on_settings (Settings.save_settings e None) ;;;
  ret tt.

(** Events of the window, and the window after a sequence of them. *)
Inductive Event : Type :=
| EvUpdateFeed (e : FeedEnv)
| EvToggleFeed (e : ToggleEnv)
| EvClose (e : Settings.SaveEnv).

Definition handle (ev : Event) (w : MainWindow) : MainWindow :=
  match ev with
  | EvUpdateFeed e => snd (update_feed e w)
  | EvToggleFeed e => snd (toggle_feed e w)
  | EvClose e => snd (closeEvent e w)
  end.

Definition run_events (evs : list Event) (w : MainWindow) : MainWindow :=
  fold_left (fun w ev => handle ev w) evs w.

(** The timer runs exactly while the feed is active. *)
Definition timer_follows_feed (w : MainWindow) : Prop :=
  timer_active w = feed_active (motion_detector w).

(** A window whose components were just made and whose timer does not run. *)
Definition fresh (s : Settings.SettingsManager) (a : AudioAlertSystem) : MainWindow :=
  mkMainWindow s init a false [].

End Window.

(** Only the settings and the widgets differ. *)
Definition same_devices (w w' : Window.MainWindow) : Prop :=
  Window.motion_detector w' = Window.motion_detector w /\
  Window.audio_system w' = Window.audio_system w /\
  Window.timer_active w' = Window.timer_active w.

(** A window whose detector is recording since time 100 and whose audio
    system has an engine, and a tick at time 105 that sees motion. *)
Definition recording_window : Window.MainWindow :=
  Window.mkMainWindow
    (snd (Settings.init "settings.json" None (Settings.mkLoadEnv None)))
    recording_since_100 (alert_init (Some Pyttsx3)) true [].

Definition motion_feed : Window.FeedEnv :=
  Window.mkFeedEnv
    (mkTickEnv (Returned (Some sample_frame))
       (Returned [mkContour 800 (1, 2, 3, 4)%Z]) (clock 105) false 105)
    (alert_at 105)
    (Window.mkToggleEnv Window.NoCamerasFound false
       (Settings.mkSaveEnv 105 None) (Settings.mkSaveEnv 105 None) false)
    false.

(** A window polling a started camera, and a tick whose read gives no
    frame. *)
Definition polling_window : Window.MainWindow :=
  Window.mkMainWindow
    (snd (Settings.init "settings.json" None (Settings.mkLoadEnv None)))
    camera_on (alert_init (Some Pyttsx3)) true [].

Definition no_frame_feed : Window.FeedEnv :=
  Window.mkFeedEnv no_frame_tick (alert_at 105)
    (Window.mkToggleEnv (Window.CameraItem 0) true
       (Settings.mkSaveEnv 105 None) (Settings.mkSaveEnv 105 None) false)
    false.

(** A tick that sees motion, opens a session and then fails in drawing the
    overlay. *)
Definition overlay_fails_feed : Window.FeedEnv :=
  Window.mkFeedEnv
    (mkTickEnv (Returned (Some sample_frame))
       (Returned [mkContour 800 (1, 2, 3, 4)%Z]) (clock 105) true 105)
    (alert_at 105)
    (Window.mkToggleEnv (Window.CameraItem 0) true
       (Settings.mkSaveEnv 105 None) (Settings.mkSaveEnv 105 None) false)
    false.

(** ** Proof automation for the rest of the code *)

(** One line of the status table, from the status [Hst] that the call has
    and the lemma [inj] that a call has one status. *)
Ltac status_iff inj Hst :=
  split;
  [ let H := fresh "H" in
    let Hne := fresh "Hne" in
    intros H; pose proof (inj _ _ _ Hst H) as Hne;
    first [ discriminate Hne
          | clear H Hne; intuition (assumption || congruence || lra) ]
  | let Hcond := fresh "Hcond" in
    intros Hcond;
    first [ exact Hst
          | exfalso; intuition (assumption || congruence || lra) ] ].

(** The steps of [AudioAlertSystem.__init__] up to the choice of the voice. *)
Ltac run_init e :=
  unfold Audio.init;
  unfold try_except, bind, may_raise, modify, lift, get, ret, raise,
    Audio.setProperty;
  destruct (Audio.init_raises e); cbn;
  [|destruct (Audio.get_voices e) as [vs|what]; cbn;
    [destruct (Audio.setProperty_raises e "rate"); cbn;
     [|destruct (Audio.setProperty_raises e "volume"); cbn]|]].

(** Running a method of the window, and splitting on what the calls it
    makes return. *)
Ltac run_window :=
  unfold bind, get, modify, ret, raise, may_raise, Window.on_detector,
    Window.on_audio, Window.on_settings, Window.display_frame,
    Window.show_blank_frame;
  cbn [fst snd Window.motion_detector Window.audio_system Window.timer_active
       Window.settings_manager Window.ui Window.set_motion_detector
       Window.set_audio_system Window.set_timer_active
       Window.set_settings_manager Window.show].

Ltac split_calls :=
  repeat match goal with
    | |- context [Settings.set ?e ?k ?v ?b ?s] =>
        destruct (Settings.set e k v b s) as [[[]|?] ?]; run_window
    | |- context [Settings.save_settings ?e ?n ?s] =>
        destruct (Settings.save_settings e n s) as [[?|?] ?]; run_window
    | |- context [trigger_alert ?e ?m ?a] =>
        destruct (trigger_alert e m a) as [[?|?] ?]; run_window
    | |- context [if ?b then _ else _] => destruct b; run_window
    end.

(** * Properties *)

(** ** Comparisons *)

Lemma Qgeb_true a b : Qgeb a b = true <-> b <= a.
Proof. unfold Qgeb. apply Qle_bool_iff. Qed.

Lemma Qgeb_false a b : Qgeb a b = false <-> a < b.
Proof.
  unfold Qgeb. split; intro H.
  - apply Qnot_le_lt. intro Hle. apply Qle_bool_iff in Hle. congruence.
  - destruct (Qle_bool b a) eqn:E; [|reflexivity].
    apply Qle_bool_iff in E. lra.
Qed.

Lemma Qltb_true a b : Qltb a b = true <-> a < b.
Proof.
  unfold Qltb. rewrite negb_true_iff. apply Qgeb_false.
Qed.

Lemma Qltb_false a b : Qltb a b = false <-> b <= a.
Proof.
  unfold Qltb. rewrite negb_false_iff. apply Qgeb_true.
Qed.

(** ** [stop_recording], [start_recording], [write_frame] *)

Lemma stop_recording_open e s w :
  recording s = true -> video_writer s = Some w ->
  stop_recording e s = (Returned (Some (negb (release_raises e))), after_stop e w s).
Proof.
  intros Hr Hw. unfold stop_recording, after_stop. run_method.
  rewrite Hr, Hw. destruct (release_raises e); reflexivity.
Qed.

Lemma stop_recording_idle e s :
  recording s = false -> stop_recording e s = (Returned None, s).
Proof.
  intros Hr. unfold stop_recording. run_method. rewrite Hr. reflexivity.
Qed.

Lemma stop_recording_returns e s : exists r, fst (stop_recording e s) = Returned r.
Proof.
  unfold stop_recording. run_method.
  destruct (recording s); [|eexists; reflexivity].
  destruct (video_writer s); [|eexists; reflexivity].
  destruct (release_raises e); eexists; reflexivity.
Qed.

Lemma start_recording_raises e size s :
  recording s = false -> open_raises e = true ->
  start_recording e size s
  = (Returned None, set_video_writer None (set_recording false s)).
Proof.
  intros Hr Ho. unfold start_recording. run_method. rewrite Hr, Ho. reflexivity.
Qed.

Lemma start_recording_opens e size s :
  recording s = false -> open_raises e = false ->
  start_recording e size s
  = (Returned (Some (video_path_of (strftime e))), after_start e size s).
Proof.
  intros Hr Ho. unfold start_recording, after_start. run_method.
  rewrite Hr, Ho. reflexivity.
Qed.

Lemma video_path_truthy ts : truthy (Some (video_path_of ts)) = true.
Proof. reflexivity. Qed.

Lemma write_frame_raises e frame s :
  write_raises e = true -> write_frame e frame s = (Returned false, s).
Proof.
  intros Hw. unfold write_frame. run_method.
  destruct (recording s); [|reflexivity].
  destruct (video_writer s); [|reflexivity].
  rewrite Hw. reflexivity.
Qed.

Lemma write_frame_continue e frame s w :
  recording s = true -> video_writer s = Some w ->
  write_raises e = false ->
  t_write e - recording_start_time s < RECORDING_DURATION ->
  write_frame e frame s = (Returned true, after_write w frame s).
Proof.
  intros Hr Hw Hx Hlt. apply Qgeb_false in Hlt.
  unfold write_frame, after_write. run_method.
  rewrite Hr, Hw, Hx. cbn. rewrite Hlt. reflexivity.
Qed.

Lemma write_frame_expire e frame s w :
  recording s = true -> video_writer s = Some w ->
  write_raises e = false ->
  RECORDING_DURATION <= t_write e - recording_start_time s ->
  write_frame e frame s = (Returned true, after_stop e w (after_write w frame s)).
Proof.
  intros Hr Hw Hx Hge. apply Qgeb_true in Hge.
  unfold write_frame. run_method.
  rewrite Hr, Hw, Hx. cbn. rewrite Hge.
  unfold stop_recording. run_method. rewrite Hr, Hw.
  unfold after_stop, after_write.
  destruct (release_raises e); reflexivity.
Qed.

Lemma write_frame_returns e frame s :
  exists b, fst (write_frame e frame s) = Returned b.
Proof.
  destruct (recording s) eqn:Hr; cycle 1.
  { unfold write_frame. run_method. rewrite Hr. eexists; reflexivity. }
  destruct (video_writer s) as [w|] eqn:Hw; cycle 1.
  { unfold write_frame. run_method. rewrite Hr, Hw. eexists; reflexivity. }
  destruct (write_raises e) eqn:Hx.
  { rewrite write_frame_raises by assumption. eexists; reflexivity. }
  destruct (Qlt_le_dec (t_write e - recording_start_time s) RECORDING_DURATION).
  - rewrite (write_frame_continue e frame s w) by assumption. eexists; reflexivity.
  - rewrite (write_frame_expire e frame s w) by assumption. eexists; reflexivity.
Qed.

(** ** The cases of [check_recording_status] *)

Lemma check_disabled_open e m frame s w :
  recording_enabled s = false ->
  recording s = true -> video_writer s = Some w ->
  check_recording_status e m frame s
  = (Returned (Some stopped, None), after_stop e w s).
Proof.
  intros He Hr Hw. unfold check_recording_status.
  unfold bind at 1. unfold get at 1. rewrite He, Hr. cbn [negb andb].
  unfold bind. rewrite (stop_recording_open e s w Hr Hw). reflexivity.
Qed.

Lemma check_disabled_idle e m frame s :
  recording_enabled s = false -> recording s = false ->
  check_recording_status e m frame s = (Returned (None, None), s).
Proof.
  intros He Hr. unfold check_recording_status. run_method.
  rewrite He, Hr. reflexivity.
Qed.

Lemma check_start_opens e frame s :
  recording_enabled s = true -> recording s = false ->
  motion_cooldown s <= t_check e - last_motion_time s ->
  open_raises e = false ->
  check_recording_status e true frame s
  = (Returned (Some started, Some (video_path_of (strftime e))),
     after_start e (frame_size frame) (set_last_motion_time (t_check e) s)).
Proof.
  intros He Hr Hc Ho. apply Qgeb_true in Hc.
  unfold check_recording_status, start_recording, after_start, frame_size.
  run_method. rewrite He, Hr. cbn. rewrite Hc. cbn. rewrite Hr, Ho. reflexivity.
Qed.

Lemma check_start_fails e frame s :
  recording_enabled s = true -> recording s = false ->
  motion_cooldown s <= t_check e - last_motion_time s ->
  open_raises e = true ->
  check_recording_status e true frame s
  = (Returned (None, None),
     set_video_writer None (set_recording false (set_last_motion_time (t_check e) s))).
Proof.
  intros He Hr Hc Ho. apply Qgeb_true in Hc.
  unfold check_recording_status, start_recording.
  run_method. rewrite He, Hr. cbn. rewrite Hc. cbn. rewrite Hr, Ho. reflexivity.
Qed.

Lemma check_idle_no_motion e frame s :
  recording_enabled s = true -> recording s = false ->
  check_recording_status e false frame s = (Returned (None, None), s).
Proof.
  intros He Hr. unfold check_recording_status. run_method.
  rewrite He. cbn. rewrite Hr. reflexivity.
Qed.

Lemma check_idle_cooling e m frame s :
  recording_enabled s = true -> recording s = false ->
  t_check e - last_motion_time s < motion_cooldown s ->
  check_recording_status e m frame s = (Returned (None, None), s).
Proof.
  intros He Hr Hc. destruct m; [|apply check_idle_no_motion; assumption].
  apply Qgeb_false in Hc.
  unfold check_recording_status. run_method.
  rewrite He, Hr. cbn. rewrite Hc. cbn. rewrite Hr. reflexivity.
Qed.

(** With a session open and recording enabled, the tick is a [write_frame]
    followed by the refresh of [last_motion_time]. *)
Lemma check_open e m frame s :
  recording_enabled s = true -> recording s = true ->
  check_recording_status e m frame s
  = (Returned (Some recording_, None),
     refresh_motion e m (snd (write_frame e frame s))).
Proof.
  intros He Hr. unfold check_recording_status.
  unfold bind at 1. unfold get at 1. rewrite He, Hr. cbn [negb andb].
  rewrite andb_false_r.
  unfold bind at 1. unfold ret at 1. cbn [truthy].
  unfold bind at 1. unfold get at 1. rewrite Hr.
  unfold bind at 1.
  destruct (write_frame_returns e frame s) as [b Hb].
  destruct (write_frame e frame s) as [o s1]. cbn in Hb. subst o. cbn [snd].
  unfold refresh_motion. destruct m; reflexivity.
Qed.

Lemma check_open_continue e m frame s w :
  recording_enabled s = true ->
  recording s = true -> video_writer s = Some w ->
  write_raises e = false ->
  t_write e - recording_start_time s < RECORDING_DURATION ->
  check_recording_status e m frame s
  = (Returned (Some recording_, None), refresh_motion e m (after_write w frame s)).
Proof.
  intros He Hr Hw Hx Hlt. rewrite check_open by assumption.
  rewrite (write_frame_continue e frame s w) by assumption. reflexivity.
Qed.

Lemma check_open_expire e m frame s w :
  recording_enabled s = true ->
  recording s = true -> video_writer s = Some w ->
  write_raises e = false ->
  RECORDING_DURATION <= t_write e - recording_start_time s ->
  check_recording_status e m frame s
  = (Returned (Some recording_, None),
     refresh_motion e m (after_stop e w (after_write w frame s))).
Proof.
  intros He Hr Hw Hx Hge. rewrite check_open by assumption.
  rewrite (write_frame_expire e frame s w) by assumption. reflexivity.
Qed.

Lemma check_open_write_raises e m frame s :
  recording_enabled s = true -> recording s = true ->
  write_raises e = true ->
  check_recording_status e m frame s
  = (Returned (Some recording_, None), refresh_motion e m s).
Proof.
  intros He Hr Hx. rewrite check_open by assumption.
  rewrite write_frame_raises by assumption. reflexivity.
Qed.

(** ** Runs of ticks *)

Lemma run_app ticks1 ticks2 s :
  run (ticks1 ++ ticks2) s
  = (fst (run ticks1 s) ++ fst (run ticks2 (snd (run ticks1 s))),
     snd (run ticks2 (snd (run ticks1 s)))).
Proof.
  revert s. induction ticks1 as [|t ticks1 IH]; intros s; cbn [app run].
  - cbn. destruct (run ticks2 s); reflexivity.
  - destruct (check_tick t s) as [o s1]. rewrite IH.
    destruct (run ticks1 s1) as [os s2]. cbn [fst snd]. reflexivity.
Qed.

Lemma run_one t s : run [t] s = ([fst (check_tick t s)], snd (check_tick t s)).
Proof. cbn [run]. destruct (check_tick t s); reflexivity. Qed.

Lemma run_length ticks s : length (fst (run ticks s)) = length ticks.
Proof.
  revert s. induction ticks as [|t ticks IH]; intros s; cbn [run]; [reflexivity|].
  destruct (check_tick t s) as [o s1]. specialize (IH s1).
  destruct (run ticks s1). cbn in *. congruence.
Qed.

Lemma refresh_motion_fields e m s :
  recording_enabled (refresh_motion e m s) = recording_enabled s /\
  recording (refresh_motion e m s) = recording s /\
  video_writer (refresh_motion e m s) = video_writer s /\
  recording_start_time (refresh_motion e m s) = recording_start_time s /\
  frames_recorded (refresh_motion e m s) = frames_recorded s /\
  calls (refresh_motion e m s) = calls s.
Proof. destruct m; cbn; repeat split; reflexivity. Qed.

Lemma check_keeps_open w since t s :
  open_session w since s -> keeps_open since t ->
  status_is (Some recording_) (fst (check_tick t s)) /\
  open_session w since (snd (check_tick t s)) /\
  frames_recorded (snd (check_tick t s)) = (frames_recorded s + writes [t])%Z.
Proof.
  intros (He & Hr & Hw & Hs) Hk. unfold check_tick, writes, open_session.
  cbn [filter].
  destruct (write_raises (tick_env t)) eqn:Hx.
  - rewrite check_open_write_raises by assumption. cbn [fst snd].
    destruct (refresh_motion_fields (tick_env t) (tick_motion t) s)
      as (-> & -> & -> & -> & -> & _).
    split; [eexists; reflexivity|]. split; [repeat split; assumption|].
    cbn. lia.
  - destruct Hk as [Hk|Hk]; [congruence|]. rewrite <- Hs in Hk.
    rewrite (check_open_continue _ _ _ s w) by assumption. cbn [fst snd].
    destruct (refresh_motion_fields (tick_env t) (tick_motion t)
                (after_write w (tick_frame t) s))
      as (-> & -> & -> & -> & -> & _).
    split; [eexists; reflexivity|]. split; [repeat split; assumption|].
    cbn. lia.
Qed.

Lemma check_expires w since t s :
  open_session w since s -> expires since t ->
  status_is (Some recording_) (fst (check_tick t s)) /\
  recording (snd (check_tick t s)) = false /\
  video_writer (snd (check_tick t s)) = None /\
  frames_recorded (snd (check_tick t s)) = (frames_recorded s + 1)%Z /\
  (release_raises (tick_env t) = false ->
   In (WriterRelease w) (calls (snd (check_tick t s)))).
Proof.
  intros (He & Hr & Hw & Hs) (Hx & Hge). unfold check_tick. rewrite <- Hs in Hge.
  rewrite (check_open_expire _ _ _ s w) by assumption. cbn [fst snd].
  destruct (refresh_motion_fields (tick_env t) (tick_motion t)
              (after_stop (tick_env t) w (after_write w (tick_frame t) s)))
    as (_ & -> & -> & _ & -> & ->).
  split; [eexists; reflexivity|].
  split; [reflexivity|]. split; [reflexivity|].
  split; [unfold after_stop; destruct (release_raises (tick_env t)); reflexivity|].
  intros Hrel. unfold after_stop. rewrite Hrel. cbn.
  apply in_or_app. right. left. reflexivity.
Qed.

Lemma run_keeps_open w since ticks : forall s,
  open_session w since s -> Forall (keeps_open since) ticks ->
  Forall (status_is (Some recording_)) (fst (run ticks s)) /\
  open_session w since (snd (run ticks s)) /\
  frames_recorded (snd (run ticks s)) = (frames_recorded s + writes ticks)%Z.
Proof.
  induction ticks as [|t ticks IH]; intros s Ho Hall.
  - cbn. repeat split; try apply Ho; [constructor | lia].
  - inversion Hall as [|? ? Ht Hrest]; subst.
    destruct (check_keeps_open w since t s Ho Ht) as (Hst & Ho1 & Hf1).
    cbn [run]. destruct (check_tick t s) as [o s1]. cbn [fst snd] in *.
    destruct (IH s1 Ho1 Hrest) as (Hsts & Ho2 & Hf2).
    destruct (run ticks s1) as [os s2]. cbn [fst snd] in *.
    split; [constructor; assumption|]. split; [assumption|].
    rewrite Hf2, Hf1. unfold writes. cbn [filter].
    destruct (write_raises (tick_env t)); cbn [negb length]; lia.
Qed.

(** A session closes on a tick only through the duration check. *)
Lemma check_closes_only_expired t s :
  recording_enabled s = true -> recording s = true ->
  recording (snd (check_tick t s)) = false ->
  expires (recording_start_time s) t.
Proof.
  intros He Hr Hclosed. unfold check_tick in Hclosed.
  rewrite check_open in Hclosed by assumption. cbn [snd] in Hclosed.
  destruct (refresh_motion_fields (tick_env t) (tick_motion t)
              (snd (write_frame (tick_env t) (tick_frame t) s)))
    as (_ & Hrec & _).
  rewrite Hrec in Hclosed. clear Hrec.
  destruct (write_raises (tick_env t)) eqn:Hx.
  { rewrite write_frame_raises in Hclosed by assumption. cbn in Hclosed. congruence. }
  destruct (video_writer s) as [w|] eqn:Hw; cycle 1.
  { unfold write_frame in Hclosed. run_method. rewrite Hr, Hw in Hclosed.
    cbn in Hclosed. congruence. }
  destruct (Qlt_le_dec (t_write (tick_env t) - recording_start_time s)
              RECORDING_DURATION) as [Hlt|Hge].
  - rewrite (write_frame_continue _ _ s w) in Hclosed by assumption.
    cbn in Hclosed. congruence.
  - split; assumption.
Qed.

(** ** C3: the forced stop comes with the first write that finds the
    duration reached *)

(** Claim C3, as the code has it.  Take an open session (recording enabled)
    and any ticks, with motion or without.  As long as each tick either
    fails to write or reads an elapsed time below [RECORDING_DURATION], the
    session stays open; the first tick whose write goes through and reads an
    elapsed time of at least [RECORDING_DURATION] closes it, on that very
    tick.  And a tick closes an open session only if it read an elapsed time
    of at least [RECORDING_DURATION].  The duration is looked at only after
    a write that went through: a tick whose write raises leaves the session
    open whatever the time, so the stop may come later than the first tick
    at which the duration is reached. *)
Theorem forced_stop_at_first_expiry w since s mid last :
  open_session w since s ->
  Forall (keeps_open since) mid ->
  expires since last ->
  recording (snd (run mid s)) = true /\
  recording (snd (run (mid ++ [last]) s)) = false /\
  video_writer (snd (run (mid ++ [last]) s)) = None /\
  RECORDING_DURATION <= elapsed last (snd (run mid s)) /\
  (forall t s0,
      recording_enabled s0 = true -> recording s0 = true ->
      recording (snd (check_tick t s0)) = false ->
      RECORDING_DURATION <= elapsed t s0).
Proof.
  intros Ho Hmid Hlast.
  destruct (run_keeps_open w since mid s Ho Hmid) as (_ & Ho1 & _).
  destruct (check_expires w since last _ Ho1 Hlast) as (_ & Hr & Hw & _).
  rewrite run_app, run_one. cbn [fst snd].
  split; [apply Ho1|]. split; [exact Hr|]. split; [exact Hw|].
  split.
  - unfold elapsed. destruct Ho1 as (_ & _ & _ & ->). apply Hlast.
  - intros t s0 He0 Hr0 Hclosed.
    apply (check_closes_only_expired t s0 He0 Hr0 Hclosed).
Qed.

Lemma forced_stop_at_first_expiry_witness :
  open_session sample_writer 100 recording_since_100 /\
  Forall (keeps_open 100) [motion_at 103; still_at 106] /\
  expires 100 (motion_at 110) /\
  recording (snd (run [motion_at 103; still_at 106] recording_since_100)) = true /\
  recording (snd (run ([motion_at 103; still_at 106] ++ [motion_at 110])
                    recording_since_100)) = false.
Proof.
  assert (Hopen : open_session sample_writer 100 recording_since_100).
  { repeat split. }
  assert (Hmid : Forall (keeps_open 100) [motion_at 103; still_at 106]).
  { repeat constructor; right; reflexivity. }
  assert (Hlast : expires 100 (motion_at 110)).
  { split; [reflexivity | discriminate]. }
  destruct (forced_stop_at_first_expiry sample_writer 100 recording_since_100
              [motion_at 103; still_at 106] (motion_at 110)
              Hopen Hmid Hlast) as (H1 & H2 & _).
  split; [exact Hopen|]. split; [exact Hmid|]. split; [exact Hlast|].
  split; assumption.
Defined.

(** Claim C3, in the wording of the specification, fails on this run: a
    session opened at time 100 whose writer raises on the ticks at 110 and
    at 500.  Both ticks come with the duration reached, by the clock read at
    the top of [check_recording_status] and by the one [write_frame] would
    have read, and both leave the session open, since the [except] clause of
    [write_frame] is entered before the duration is looked at.  The session
    is stopped by the tick at 900, the first whose write goes through: not
    by the first tick at which the elapsed time is at least
    [RECORDING_DURATION], but two ticks later. *)
Lemma forced_stop_skipped_by_failing_write_counterexample :
  let s := recording_since_100 in
  let first := write_fails_at 110 in
  let second := write_fails_at 500 in
  let third := motion_at 900 in
  open_session sample_writer 100 s /\
  RECORDING_DURATION <= t_check (tick_env first) - recording_start_time s /\
  RECORDING_DURATION <= elapsed first s /\
  recording (snd (run [first] s)) = true /\
  video_writer (snd (run [first] s)) = Some sample_writer /\
  RECORDING_DURATION <= elapsed second (snd (run [first] s)) /\
  recording (snd (run [first; second] s)) = true /\
  recording (snd (run [first; second; third] s)) = false /\
  ~ (forall t s0,
       recording_enabled s0 = true -> recording s0 = true ->
       video_writer s0 <> None ->
       RECORDING_DURATION <= elapsed t s0 ->
       recording (snd (check_tick t s0)) = false).
Proof.
  cbv zeta. split; [repeat split|].
  split; [discriminate|]. split; [discriminate|].
  split; [reflexivity|]. split; [reflexivity|].
  split; [discriminate|]. split; [reflexivity|]. split; [reflexivity|].
  intros H.
  specialize (H (write_fails_at 110) recording_since_100 eq_refl eq_refl).
  assert (Hopen : recording (snd (check_tick (write_fails_at 110) recording_since_100))
                  = true) by reflexivity.
  rewrite H in Hopen; [discriminate Hopen | discriminate | discriminate].
Qed.

(** ** C2: what the tick that reaches the duration reports *)

Lemma records_keeps_open since t : records since t -> keeps_open since t.
Proof. intros [_ H]. right. exact H. Qed.

Lemma writes_all_recorded since ticks :
  Forall (records since) ticks -> writes ticks = Z.of_nat (length ticks).
Proof.
  unfold writes. induction 1 as [|t ticks [Hx _] _ IH]; [reflexivity|].
  cbn [filter]. rewrite Hx. cbn [negb length]. lia.
Qed.

Lemma check_opens_session s t :
  recording_enabled s = true -> recording s = false ->
  opens_session s t ->
  status_is (Some started) (fst (check_tick t s)) /\
  open_session
    (mkVideoWriter (video_path_of (strftime (tick_env t))) VIDEO_CODEC
       RECORDING_FPS (frame_size (tick_frame t)))
    (t_start (tick_env t)) (snd (check_tick t s)) /\
  frames_recorded (snd (check_tick t s)) = 0%Z.
Proof.
  intros He Hr (Hm & Hc & Ho). unfold check_tick. rewrite Hm.
  rewrite check_start_opens by assumption. cbn [fst snd].
  split; [eexists; reflexivity|]. split; [|reflexivity].
  repeat split. exact He.
Qed.

(** Claim C2, as the code has it.  A session opened by tick [t0], kept
    through the ticks [mid] (each writes its frame and stays short of the
    duration) and reaching the duration on tick [last], whose write goes
    through: [t0] reports "started", every later tick, [last] included,
    reports "recording"; after [last] the session is closed, and
    [frames_recorded] is the number of ticks that reported "recording",
    one less than the ticks from "started" to the closing one. *)
Theorem expiry_tick_reports_recording s t0 mid last :
  recording_enabled s = true -> recording s = false ->
  opens_session s t0 ->
  Forall (records (t_start (tick_env t0))) mid ->
  expires (t_start (tick_env t0)) last ->
  let r := run (t0 :: mid ++ [last]) s in
  exists o0 os ol,
    fst r = o0 :: os ++ [ol] /\
    status_is (Some started) o0 /\
    length os = length mid /\
    Forall (status_is (Some recording_)) os /\
    status_is (Some recording_) ol /\
    recording (snd r) = false /\
    video_writer (snd r) = None /\
    frames_recorded (snd r) = Z.of_nat (length (mid ++ [last])) /\
    frames_recorded (snd r) = (Z.of_nat (length (t0 :: mid ++ [last])) - 1)%Z.
Proof.
  intros He Hr H0 Hmid Hlast r. subst r.
  destruct (check_opens_session s t0 He Hr H0) as (Hst0 & Hopen & Hf0).
  set (w := mkVideoWriter _ _ _ _) in Hopen.
  assert (Hkeep : Forall (keeps_open (t_start (tick_env t0))) mid).
  { eapply Forall_impl; [|exact Hmid]. intros t. apply records_keeps_open. }
  cbn [run]. destruct (check_tick t0 s) as [o0 s1]. cbn [fst snd] in *.
  destruct (run_keeps_open w _ mid s1 Hopen Hkeep) as (Hsts & Hopen2 & Hf2).
  destruct (check_expires w _ last _ Hopen2 Hlast) as (Hstl & Hrl & Hwl & Hfl & _).
  pose proof (run_length mid s1) as Hlen.
  rewrite run_app, run_one. cbn [fst snd].
  exists o0, (fst (run mid s1)), (fst (check_tick last (snd (run mid s1)))).
  split; [reflexivity|]. split; [exact Hst0|]. split; [exact Hlen|].
  split; [exact Hsts|]. split; [exact Hstl|]. split; [exact Hrl|].
  split; [exact Hwl|].
  rewrite Hfl, Hf2, Hf0, (writes_all_recorded _ _ Hmid).
  cbn [length]. rewrite length_app. cbn [length]. split; lia.
Qed.

Lemma expiry_tick_reports_recording_witness :
  opens_session camera_on (motion_at 100) /\
  Forall (records 100) [motion_at 105] /\
  expires 100 (motion_at 110) /\
  exists o0 os ol,
    fst (run (motion_at 100 :: [motion_at 105] ++ [motion_at 110]) camera_on)
    = o0 :: os ++ [ol] /\
    status_is (Some recording_) ol /\
    frames_recorded
      (snd (run (motion_at 100 :: [motion_at 105] ++ [motion_at 110]) camera_on))
    = 2%Z.
Proof.
  assert (H0 : opens_session camera_on (motion_at 100)).
  { split; [reflexivity|]. split; [discriminate | reflexivity]. }
  assert (Hmid : Forall (records 100) [motion_at 105]).
  { repeat constructor. }
  assert (Hlast : expires 100 (motion_at 110)).
  { split; [reflexivity | discriminate]. }
  destruct (expiry_tick_reports_recording camera_on (motion_at 100)
              [motion_at 105] (motion_at 110) eq_refl eq_refl H0 Hmid Hlast)
    as (o0 & os & ol & Hrun & _ & _ & _ & Hol & _ & _ & Hf & _).
  split; [exact H0|]. split; [exact Hmid|]. split; [exact Hlast|].
  exists o0, os, ol. split; [exact Hrun|]. split; [exact Hol|]. exact Hf.
Defined.

(** Claim C2, in the wording of the specification, fails on this run: a
    session opened at time 100 and ticked at 105 and 110.  The tick at 110 reaches
    the duration; it reports "recording", not "stopped", and two frames were
    recorded over the three ticks the session was open. *)
Lemma expiry_tick_reports_stopped_counterexample :
  let ticks := [motion_at 100; motion_at 105; motion_at 110] in
  let before := snd (run [motion_at 100; motion_at 105] camera_on) in
  let r := run ticks camera_on in
  recording before = true /\
  RECORDING_DURATION <= elapsed (motion_at 110) before /\
  recording (snd r) = false /\
  nth_error (fst r) 2 = Some (Returned (Some recording_, None)) /\
  ~ (exists ol, nth_error (fst r) 2 = Some ol /\ status_is (Some stopped) ol) /\
  frames_recorded (snd r) = 2%Z /\
  frames_recorded (snd r) <> Z.of_nat (length ticks).
Proof.
  cbv zeta. split; [reflexivity|]. split; [discriminate|].
  split; [reflexivity|]. split; [reflexivity|].
  split; [|split; [reflexivity|discriminate]].
  intros (ol & Hnth & p & Hst). cbn in Hnth. congruence.
Qed.

(** ** C1: [cleanup] with a session open *)

Lemma cleanup_keeps_session s :
  recording (snd (cleanup s)) = recording s /\
  video_writer (snd (cleanup s)) = video_writer s /\
  cap (snd (cleanup s)) = None /\
  feed_active (snd (cleanup s)) = false.
Proof.
  unfold cleanup, stop_camera. run_method.
  destruct (cap s) eqn:Ecap; cbn; repeat split; try reflexivity; exact Ecap.
Qed.

(** Claim C1 does not hold of the code.  [recording_since_100] has a session
    open.  [cleanup], the method the class ends up with, releases the camera
    and leaves the session as it was: the flag still set, the writer still
    held and never released.  The first definition of [cleanup] in the class
    body, which the second one replaces, finalizes the session and releases
    the camera. *)
Theorem cleanup_leaves_session_open :
  let s := recording_since_100 in
  let s' := snd (cleanup s) in
  let s1 := snd (cleanup_first_def (clock 101) s) in
  (recording s = true /\ video_writer s = Some sample_writer) /\
  (recording s' = true /\ video_writer s' = Some sample_writer /\
   ~ In (WriterRelease sample_writer) (calls s')) /\
  (cap s' = None /\ In (CaptureRelease (mkVideoCapture 0 true)) (calls s')) /\
  (recording s1 = false /\ video_writer s1 = None /\
   In (WriterRelease sample_writer) (calls s1) /\ cap s1 = None).
Proof.
  cbv zeta. split; [split; reflexivity|]. split.
  - split; [reflexivity|]. split; [reflexivity|].
    cbn. intros [H|[H|[H|[]]]]; discriminate H.
  - split.
    + split; [reflexivity|]. cbn. right. right. left. reflexivity.
    + split; [reflexivity|]. split; [reflexivity|]. split; [|reflexivity].
      cbn. right. right. left. reflexivity.
Qed.

(** ** C4: recording disabled *)


Lemma Forall_map_const {A B} (P : B -> Prop) (b : B) (l : list A) :
  P b -> Forall P (map (fun _ => b) l).
Proof. intros Hb. induction l; cbn; constructor; assumption. Qed.

Lemma status_is_none : status_is None (Returned (None, None)).
Proof. eexists; reflexivity. Qed.



(** ** C7: the open raises *)

(** Claim C7.  When [check_recording_status] goes for a new session (enabled,
    not recording, motion, cooldown over) and the writer cannot be created,
    [start_recording] returns [None] with the flag false and no writer, and
    the tick itself returns, with no status and no path. *)
Theorem failed_open_aborts_transition e frame s :
  recording_enabled s = true -> recording s = false ->
  motion_cooldown s <= t_check e - last_motion_time s ->
  open_raises e = true ->
  (forall size,
      fst (start_recording e size s) = Returned None /\
      recording (snd (start_recording e size s)) = false /\
      video_writer (snd (start_recording e size s)) = None) /\
  fst (check_recording_status e true frame s) = Returned (None, None) /\
  recording (snd (check_recording_status e true frame s)) = false /\
  video_writer (snd (check_recording_status e true frame s)) = None.
Proof.
  intros He Hr Hc Ho. split.
  - intros size. rewrite start_recording_raises by assumption.
    repeat split.
  - rewrite check_start_fails by assumption. repeat split.
Qed.

Lemma failed_open_aborts_transition_witness :
  motion_cooldown camera_on <= t_check (failing_open 100) - last_motion_time camera_on /\
  fst (check_recording_status (failing_open 100) true sample_frame camera_on)
  = Returned (None, None) /\
  recording (snd (check_recording_status (failing_open 100) true sample_frame camera_on))
  = false.
Proof.
  assert (Hc : motion_cooldown camera_on
               <= t_check (failing_open 100) - last_motion_time camera_on).
  { discriminate. }
  destruct (failed_open_aborts_transition (failing_open 100) sample_frame camera_on
              eq_refl eq_refl Hc eq_refl) as (_ & H1 & H2 & _).
  split; [exact Hc|]. split; [exact H1 | exact H2].
Defined.

(** ** C9: a start attempt uses up the cooldown *)

Lemma run_cooling ticks : forall s,
  recording_enabled s = true -> recording s = false ->
  Forall (fun t => t_check (tick_env t) - last_motion_time s < motion_cooldown s)
    ticks ->
  run ticks s = (map (fun _ => Returned (None, None)) ticks, s).
Proof.
  induction ticks as [|t ticks IH]; intros s He Hr Hall; cbn [run map];
    [reflexivity|].
  inversion Hall as [|? ? Ht Hrest]; subst.
  unfold check_tick. rewrite check_idle_cooling by assumption.
  rewrite IH by assumption. reflexivity.
Qed.

(** Claim C9.  When a start is attempted at time [t_check e], the state the
    tick leaves is the one [start_recording] leaves when run on the detector
    with [last_motion_time] already set to [t_check e]; so
    [last_motion_time] is [t_check e] afterwards whether the open went
    through or raised.  After an open that raised, ticks that come less than
    [motion_cooldown] after [t_check e] start nothing, with motion or
    without: none reports a status, none creates a writer, and the detector
    is left as the failed attempt left it. *)
Theorem start_attempt_sets_last_motion_time e frame s :
  recording_enabled s = true -> recording s = false ->
  motion_cooldown s <= t_check e - last_motion_time s ->
  let s' := snd (check_recording_status e true frame s) in
  s' = snd (start_recording e (frame_size frame)
              (set_last_motion_time (t_check e) s)) /\
  last_motion_time s' = t_check e /\
  (open_raises e = true ->
   recording s' = false /\
   forall ticks,
     Forall (fun t => t_check (tick_env t) - t_check e < motion_cooldown s) ticks ->
     Forall (status_is None) (fst (run ticks s')) /\
     snd (run ticks s') = s').
Proof.
  intros He Hr Hc. cbv zeta. destruct (open_raises e) eqn:Ho.
  - rewrite check_start_fails by assumption.
    rewrite start_recording_raises by assumption. cbn [snd].
    split; [reflexivity|]. split; [reflexivity|]. intros _.
    split; [reflexivity|]. intros ticks Hall.
    rewrite run_cooling; [|exact He|reflexivity|exact Hall]. cbn [fst snd].
    split; [|reflexivity]. apply Forall_map_const, status_is_none.
  - rewrite check_start_opens by assumption.
    rewrite start_recording_opens by assumption. cbn [snd].
    split; [reflexivity|]. split; [reflexivity|]. intros H. discriminate H.
Qed.

Lemma start_attempt_sets_last_motion_time_witness :
  motion_cooldown camera_on <= t_check (failing_open 100) - last_motion_time camera_on /\
  last_motion_time
    (snd (check_recording_status (failing_open 100) true sample_frame camera_on))
  = 100 /\
  Forall (status_is None)
    (fst (run [motion_at 101]
            (snd (check_recording_status (failing_open 100) true sample_frame
                    camera_on)))).
Proof.
  assert (Hc : motion_cooldown camera_on
               <= t_check (failing_open 100) - last_motion_time camera_on).
  { discriminate. }
  destruct (start_attempt_sets_last_motion_time (failing_open 100) sample_frame
              camera_on eq_refl eq_refl Hc) as (_ & H1 & H2).
  destruct (H2 eq_refl) as [_ H3].
  assert (Hsoon : Forall (fun t => t_check (tick_env t) - t_check (failing_open 100)
                                   < motion_cooldown camera_on) [motion_at 101]).
  { repeat constructor. }
  destruct (H3 [motion_at 101] Hsoon) as [H4 _].
  split; [exact Hc|]. split; [exact H1 | exact H4].
Defined.

(** ** C5 and C10: the alert gate *)

Lemma trigger_alert_no_engine e msg a :
  tts_engine a = None -> trigger_alert e msg a = (Returned false, a).
Proof. intros Hn. unfold trigger_alert. run_method. rewrite Hn. reflexivity. Qed.

Lemma trigger_alert_early e msg a :
  t_alert e - last_alert_time a <= MOTION_TIMEOUT ->
  trigger_alert e msg a = (Returned false, a).
Proof.
  intros Hle. apply Qle_bool_iff in Hle.
  unfold trigger_alert. run_method. rewrite Hle, orb_true_r. reflexivity.
Qed.

Lemma Qle_bool_false a b : Qle_bool a b = false <-> b < a.
Proof. apply (Qgeb_false b a). Qed.

Lemma trigger_alert_fires e msg a :
  tts_engine a <> None ->
  MOTION_TIMEOUT < t_alert e - last_alert_time a ->
  working e ->
  trigger_alert e msg a
  = (Returned true, set_last_alert_time (t_alert e) (log_spoken msg a)).
Proof.
  intros Heng Hgt [Hs Hw]. apply Qle_bool_false in Hgt.
  unfold trigger_alert. run_method.
  destruct (tts_engine a); [|congruence]. cbn. rewrite Hgt, Hs, Hw. reflexivity.
Qed.

Lemma trigger_alert_delivery_raises e msg a :
  tts_engine a <> None ->
  MOTION_TIMEOUT < t_alert e - last_alert_time a ->
  delivery_raises e ->
  trigger_alert e msg a = (Returned false, a).
Proof.
  intros Heng Hgt Hraise. apply Qle_bool_false in Hgt.
  unfold trigger_alert. run_method.
  destruct (tts_engine a); [|congruence]. cbn. rewrite Hgt.
  destruct (say_raises e) eqn:Hs; [reflexivity|].
  destruct Hraise as [H|H]; [congruence|]. rewrite H. reflexivity.
Qed.

(** Claim C5, in the wording of the specification, fails when
    [pyttsx3.init] raised at construction: there is no engine, the timeout
    is long over, and the call returns false. *)
Lemma alert_gate_without_engine_counterexample :
  let a := alert_init None in
  let e := mkAlertEnv 100 false false in
  MOTION_TIMEOUT < t_alert e - last_alert_time a /\
  fst (trigger_alert e "Motion detected!" a) = Returned false /\
  ~ (fst (trigger_alert e "Motion detected!" a) = Returned true
     <-> MOTION_TIMEOUT < t_alert e - last_alert_time a).
Proof.
  cbv zeta. split; [reflexivity|]. split; [reflexivity|].
  intros [_ H]. assert (Hlt : MOTION_TIMEOUT < 100 - 0) by reflexivity.
  specialize (H Hlt). discriminate H.
Qed.

(** Claim C5, as the code has it.  With an engine present and a delivery
    that does not raise, [trigger_alert] returns true exactly when more than
    [MOTION_TIMEOUT] has passed since [last_alert_time]; when it does, the
    message is spoken and [last_alert_time] becomes the time of the call,
    and otherwise nothing changes.  After a call that fired, a second call
    less than [MOTION_TIMEOUT] later returns false, and a second call
    [MOTION_TIMEOUT + eps] later, [eps > 0], returns true again. *)
Theorem alert_gate_fires_after_timeout (e : AlertEnv) (msg : string)
  (a : AudioAlertSystem) :
  tts_engine a <> None ->
  working e ->
  let r := trigger_alert e msg a in
  (fst r = Returned true <-> MOTION_TIMEOUT < t_alert e - last_alert_time a) /\
  (fst r = Returned true ->
   last_alert_time (snd r) = t_alert e /\ spoken (snd r) = spoken a ++ [msg]) /\
  (fst r <> Returned true -> snd r = a) /\
  (fst r = Returned true ->
   forall (e2 : AlertEnv) (msg2 : string),
     (t_alert e2 - t_alert e < MOTION_TIMEOUT ->
      fst (trigger_alert e2 msg2 (snd r)) = Returned false) /\
     (forall eps, 0 < eps ->
        t_alert e2 - t_alert e == MOTION_TIMEOUT + eps ->
        working e2 ->
        fst (trigger_alert e2 msg2 (snd r)) = Returned true)).
Proof.
  intros Heng Hwork. cbv zeta.
  destruct (Qlt_le_dec MOTION_TIMEOUT (t_alert e - last_alert_time a)) as [Hgt|Hle].
  - rewrite trigger_alert_fires by assumption. cbn [fst snd].
    split; [split; [intros _; exact Hgt | reflexivity]|].
    split; [intros _; split; reflexivity|].
    split; [intros H; congruence|].
    intros _ e2 msg2. split.
    + intros Hsoon. rewrite trigger_alert_early; [reflexivity|].
      cbn. lra.
    + intros eps Heps Hgap Hwork2. rewrite trigger_alert_fires; [reflexivity| | |].
      * cbn. exact Heng.
      * cbn. lra.
      * exact Hwork2.
  - rewrite trigger_alert_early by assumption. cbn [fst snd].
    split; [split; [intros H; discriminate H | intros H; lra]|].
    split; [intros H; discriminate H|].
    split; [reflexivity|]. intros H; discriminate H.
Qed.

Lemma alert_gate_fires_after_timeout_witness :
  tts_engine (alert_init (Some Pyttsx3)) <> None /\
  working (alert_at 100) /\
  fst (trigger_alert (alert_at 100) "Motion detected!" (alert_init (Some Pyttsx3)))
  = Returned true /\
  fst (trigger_alert (alert_at 105) "Motion detected!"
         (snd (trigger_alert (alert_at 100) "Motion detected!"
                 (alert_init (Some Pyttsx3)))))
  = Returned false /\
  fst (trigger_alert (alert_at 111) "Motion detected!"
         (snd (trigger_alert (alert_at 100) "Motion detected!"
                 (alert_init (Some Pyttsx3)))))
  = Returned true.
Proof.
  assert (Heng : tts_engine (alert_init (Some Pyttsx3)) <> None) by discriminate.
  assert (Hwork : forall t, working (alert_at t)) by (intros t; split; reflexivity).
  destruct (alert_gate_fires_after_timeout (alert_at 100) "Motion detected!"
              (alert_init (Some Pyttsx3)) Heng (Hwork 100))
    as ([_ Hfire] & _ & _ & Htwo).
  assert (H1 : fst (trigger_alert (alert_at 100) "Motion detected!"
                      (alert_init (Some Pyttsx3))) = Returned true).
  { apply Hfire. reflexivity. }
  split; [exact Heng|]. split; [exact (Hwork 100)|]. split; [exact H1|]. split.
  - destruct (Htwo H1 (alert_at 105) "Motion detected!"%string) as [Hsoon _].
    apply Hsoon. reflexivity.
  - destruct (Htwo H1 (alert_at 111) "Motion detected!"%string) as [_ Hlate].
    apply (Hlate 1); [reflexivity | reflexivity | exact (Hwork 111)].
Defined.

(** Claim C10.  When the engine is there, the timeout is over and the
    delivery raises (in [say] or in [runAndWait]), [trigger_alert] returns
    false and leaves the alert system as it was, [last_alert_time]
    included; a later call for which the timeout is still over, and whose
    delivery goes through, fires. *)
Theorem failed_alert_keeps_last_alert_time (e : AlertEnv) (msg : string)
  (a : AudioAlertSystem) :
  tts_engine a <> None ->
  MOTION_TIMEOUT < t_alert e - last_alert_time a ->
  delivery_raises e ->
  let r := trigger_alert e msg a in
  fst r = Returned false /\
  last_alert_time (snd r) = last_alert_time a /\
  snd r = a /\
  (forall (e2 : AlertEnv) (msg2 : string),
      MOTION_TIMEOUT < t_alert e2 - last_alert_time a ->
      working e2 ->
      fst (trigger_alert e2 msg2 (snd r)) = Returned true).
Proof.
  intros Heng Hgt Hraise. cbv zeta.
  rewrite trigger_alert_delivery_raises by assumption. cbn [fst snd].
  split; [reflexivity|]. split; [reflexivity|]. split; [reflexivity|].
  intros e2 msg2 Hgt2 Hwork2. rewrite trigger_alert_fires by assumption.
  reflexivity.
Qed.

Lemma failed_alert_keeps_last_alert_time_witness :
  delivery_raises (mkAlertEnv 100 false true) /\
  fst (trigger_alert (mkAlertEnv 100 false true) "Motion detected!"
         (alert_init (Some Pyttsx3))) = Returned false /\
  fst (trigger_alert (alert_at 101) "Motion detected!"
         (snd (trigger_alert (mkAlertEnv 100 false true) "Motion detected!"
                 (alert_init (Some Pyttsx3))))) = Returned true.
Proof.
  assert (Heng : tts_engine (alert_init (Some Pyttsx3)) <> None) by discriminate.
  assert (Hraise : delivery_raises (mkAlertEnv 100 false true)).
  { right. reflexivity. }
  assert (Hgt : MOTION_TIMEOUT
                < t_alert (mkAlertEnv 100 false true)
                  - last_alert_time (alert_init (Some Pyttsx3))).
  { reflexivity. }
  destruct (failed_alert_keeps_last_alert_time (mkAlertEnv 100 false true)
              "Motion detected!" (alert_init (Some Pyttsx3)) Heng Hgt Hraise)
    as (H1 & _ & _ & H2).
  split; [exact Hraise|]. split; [exact H1|].
  apply H2; [reflexivity | split; reflexivity].
Defined.

(** ** The capture tick *)

Lemma check_returns e m frame s :
  exists r, fst (check_recording_status e m frame s) = Returned r.
Proof.
  destruct (recording_enabled s) eqn:He; destruct (recording s) eqn:Hr.
  - rewrite check_open by assumption. eexists; reflexivity.
  - destruct m; [|rewrite check_idle_no_motion by assumption; eexists; reflexivity].
    destruct (Qlt_le_dec (t_check e - last_motion_time s) (motion_cooldown s)).
    + rewrite check_idle_cooling by assumption. eexists; reflexivity.
    + destruct (open_raises e) eqn:Ho.
      * rewrite check_start_fails by assumption. eexists; reflexivity.
      * rewrite check_start_opens by assumption. eexists; reflexivity.
  - unfold check_recording_status.
    unfold bind at 1. unfold get at 1. rewrite He, Hr. cbn [negb andb].
    unfold bind. destruct (stop_recording_returns e s) as [r Hret].
    destruct (stop_recording e s) as [o s1]. cbn in Hret. subst o.
    eexists; reflexivity.
  - rewrite check_disabled_idle by assumption. eexists; reflexivity.
Qed.

Lemma contour_step_spec frame rects md c :
  exists frame',
    contour_step (frame, rects, md) c
    = (frame',
       rects ++ (if survives c then [boundingRect c] else []),
       md || survives c).
Proof.
  unfold contour_step, survives.
  destruct (Qltb (contourArea c) MIN_CONTOUR_AREA); cbn [negb].
  - exists frame. rewrite app_nil_r, orb_false_r. reflexivity.
  - destruct (boundingRect c) as [[[x y] w] h]. eexists.
    rewrite orb_true_r. reflexivity.
Qed.

Lemma fold_contour_step contours : forall frame rects md,
  exists frame',
    fold_left contour_step contours (frame, rects, md)
    = (frame',
       rects ++ map boundingRect (filter survives contours),
       md || existsb survives contours).
Proof.
  induction contours as [|c contours IH]; intros frame rects md; cbn [fold_left].
  - exists frame. cbn. rewrite app_nil_r, orb_false_r. reflexivity.
  - destruct (contour_step_spec frame rects md c) as [frame1 ->].
    destruct (IH frame1 (rects ++ (if survives c then [boundingRect c] else []))
                (md || survives c)) as [frame2 ->].
    exists frame2. cbn [filter existsb].
    destruct (survives c); cbn [map];
      rewrite <- ?app_assoc, ?app_nil_r, ?orb_false_r, ?orb_true_r; reflexivity.
Qed.

Lemma contour_loop_spec contours frame :
  exists frame',
    contour_loop contours frame
    = (frame', map boundingRect (filter survives contours),
       existsb survives contours).
Proof.
  unfold contour_loop.
  destruct (fold_contour_step contours frame [] false) as [frame' ->].
  exists frame'. reflexivity.
Qed.

Lemma survives_iff c : survives c = true <-> MIN_CONTOUR_AREA <= contourArea c.
Proof. unfold survives. rewrite negb_true_iff. apply Qltb_false. Qed.

(** A tick that got as far as returning a frame ran the size filter on the
    contours that [cv2.findContours] gave. *)
Lemma detect_motion_body_returned e s f rects md st s' :
  detect_motion_body e s = (Returned (f, rects, md, st), s') ->
  f <> None /\
  exists contours,
    find_contours e = Returned contours /\
    rects = map boundingRect (filter survives contours) /\
    md = existsb survives contours.
Proof.
  unfold detect_motion_body. unfold bind at 1. unfold lift at 1.
  destruct (cap_read e) as [[frame|]|what]; [|intros H; discriminate H..].
  unfold bind at 1. unfold lift at 1.
  destruct (find_contours e) as [contours|what]; [|intros H; discriminate H].
  destruct (contour_loop_spec contours frame) as [frame1 ->].
  unfold bind at 1.
  destruct (check_returns (rec_env e) (existsb survives contours) frame s)
    as [[status path] Hret].
  destruct (check_recording_status _ _ _ s) as [o s1]. cbn in Hret. subst o.
  run_method. destruct (recording s1); cbn.
  - destruct (overlay_raises e); cbn; intros H; [discriminate H|].
    injection H as <- <- <- <- <-. split; [discriminate|].
    exists contours. repeat split.
  - intros H. injection H as <- <- <- <- <-. split; [discriminate|].
    exists contours. repeat split.
Qed.

Lemma detect_motion_cases e s :
  detect_motion e s
  = if feed_unavailable s then (Returned failed_tick, s)
    else match detect_motion_body e s with
         | (Returned r, s') => (Returned r, s')
         | (Raised _, s') => (Returned failed_tick, s')
         end.
Proof.
  unfold detect_motion. unfold bind, get, try_except, ret.
  destruct (feed_unavailable s); reflexivity.
Qed.

Lemma feed_unavailable_iff s :
  feed_unavailable s = true <->
  feed_active s = false \/ cap s = None
  \/ exists c, cap s = Some c /\ isOpened c = false.
Proof.
  unfold feed_unavailable. rewrite orb_true_iff, negb_true_iff.
  destruct (cap s) as [c|]; split.
  - intros [H|H]; [left; exact H|]. right. right. exists c.
    apply negb_true_iff in H. split; [reflexivity | exact H].
  - intros [H|[H|(c' & Hc & Ho)]]; [left; exact H | discriminate H |].
    injection Hc as <-. right. apply negb_true_iff. exact Ho.
  - intros _. right. left. reflexivity.
  - intros _. right. reflexivity.
Qed.

(** ** C6: the size filter *)

(** Claim C6.  Whatever [detect_motion] returns: every rectangle in the
    result is the bounding rectangle of a contour of this tick whose area is
    at least [MIN_CONTOUR_AREA], and the motion flag is set exactly when the
    list of rectangles is not empty.  When the tick returns a frame, the
    rectangles are, in order, the bounding rectangles of the contours whose
    area is not below [MIN_CONTOUR_AREA], one for each and none for the
    others, and the flag is set exactly when there is such a contour. *)
Theorem small_contours_not_reported e s f rects md st :
  fst (detect_motion e s) = Returned (f, rects, md, st) ->
  (forall r, In r rects ->
     exists contours c,
       find_contours e = Returned contours /\ In c contours /\
       boundingRect c = r /\ MIN_CONTOUR_AREA <= contourArea c) /\
  (md = true <-> rects <> []) /\
  (f <> None ->
   exists contours,
     find_contours e = Returned contours /\
     rects = map boundingRect (filter survives contours) /\
     (forall c, In c (filter survives contours) <->
                In c contours /\ MIN_CONTOUR_AREA <= contourArea c) /\
     (md = true <->
      exists c, In c contours /\ MIN_CONTOUR_AREA <= contourArea c)).
Proof.
  intros Hret.
  assert (Hfailed : (f, rects, md, st) = failed_tick ->
    (forall r, In r rects ->
       exists contours c,
         find_contours e = Returned contours /\ In c contours /\
         boundingRect c = r /\ MIN_CONTOUR_AREA <= contourArea c) /\
    (md = true <-> rects <> []) /\
    (f <> None ->
     exists contours,
       find_contours e = Returned contours /\
       rects = map boundingRect (filter survives contours) /\
       (forall c, In c (filter survives contours) <->
                  In c contours /\ MIN_CONTOUR_AREA <= contourArea c) /\
       (md = true <->
        exists c, In c contours /\ MIN_CONTOUR_AREA <= contourArea c))).
  { intros H. injection H as -> -> -> ->.
    split; [intros r []|]. split; [split; [discriminate | congruence]|].
    intros H. congruence. }
  rewrite detect_motion_cases in Hret.
  destruct (feed_unavailable s).
  { cbn in Hret. apply Hfailed. congruence. }
  destruct (detect_motion_body e s) as [[r|what] s'] eqn:Hbody; cbn in Hret;
    [|apply Hfailed; congruence].
  injection Hret as ->.
  destruct (detect_motion_body_returned _ _ _ _ _ _ _ Hbody)
    as (_ & contours & Hfind & -> & ->).
  assert (Hin : forall c, In c (filter survives contours) <->
                          In c contours /\ MIN_CONTOUR_AREA <= contourArea c).
  { intros c. rewrite filter_In, survives_iff. reflexivity. }
  assert (Hex : existsb survives contours = true <->
                exists c, In c contours /\ MIN_CONTOUR_AREA <= contourArea c).
  { rewrite existsb_exists. split; intros (c & Hc & Hs); exists c;
      (split; [exact Hc | apply survives_iff; exact Hs]). }
  split; [|split].
  - intros r Hr. apply in_map_iff in Hr. destruct Hr as (c & Hrc & Hc).
    apply Hin in Hc. exists contours, c.
    split; [exact Hfind|]. split; [apply Hc|]. split; [exact Hrc | apply Hc].
  - rewrite Hex. split.
    + intros (c & Hc) Hnil.
      assert (Hc' : In c (filter survives contours)) by (apply Hin; exact Hc).
      destruct (filter survives contours); [destruct Hc' | discriminate Hnil].
    + intros Hne. destruct (filter survives contours) as [|c l] eqn:Hf;
        [cbn in Hne; congruence|].
      exists c. apply Hin. left. reflexivity.
  - intros _. exists contours. split; [exact Hfind|]. split; [reflexivity|].
    split; [exact Hin | exact Hex].
Qed.

Lemma small_contours_not_reported_witness :
  exists f,
    fst (detect_motion sample_tick camera_on)
    = Returned (Some f, [(1, 2, 3, 4)%Z], true, Some started) /\
    forall r, In r [(1, 2, 3, 4)%Z] ->
      exists contours c,
        find_contours sample_tick = Returned contours /\ In c contours /\
        boundingRect c = r /\ MIN_CONTOUR_AREA <= contourArea c.
Proof.
  eexists. split; [reflexivity|].
  apply (small_contours_not_reported sample_tick camera_on _ _ true (Some started)
           eq_refl).
Defined.

(** ** C8: no exception leaves [detect_motion] *)

Lemma detect_motion_body_raises e s :
  cap_read e = Returned None
  \/ (exists what, cap_read e = Raised what)
  \/ (exists what, find_contours e = Raised what) ->
  exists what, fst (detect_motion_body e s) = Raised what.
Proof.
  intros H. unfold detect_motion_body. unfold bind at 1. unfold lift at 1.
  destruct (cap_read e) as [[frame|]|what] eqn:Hread;
    [|eexists; reflexivity..].
  destruct H as [H|[[what H]|[what H]]]; [discriminate H..|].
  unfold bind at 1. unfold lift at 1. rewrite H. eexists; reflexivity.
Qed.

(** Claim C8.  [detect_motion] always returns.  When the feed is inactive,
    when there is no camera handle or the handle is not opened, and when the
    body of the tick raises, it returns [(None, [], False, None)]; the body
    raises, among other things, when the read gives no frame, when the read
    itself raises and when the image processing up to [findContours]
    raises. *)
Theorem detect_motion_never_raises e s :
  (exists r, fst (detect_motion e s) = Returned r) /\
  (feed_active s = false
   \/ cap s = None
   \/ (exists c, cap s = Some c /\ isOpened c = false)
   \/ (exists what, fst (detect_motion_body e s) = Raised what) ->
   fst (detect_motion e s) = Returned (None, [], false, None)) /\
  (cap_read e = Returned None
   \/ (exists what, cap_read e = Raised what)
   \/ (exists what, find_contours e = Raised what) ->
   fst (detect_motion e s) = Returned (None, [], false, None)).
Proof.
  assert (Hbody : (exists what, fst (detect_motion_body e s) = Raised what) ->
                  fst (detect_motion e s) = Returned (None, [], false, None)).
  { intros [what Hraised]. rewrite detect_motion_cases.
    destruct (feed_unavailable s); [reflexivity|].
    destruct (detect_motion_body e s) as [o s']. cbn in Hraised. subst o.
    reflexivity. }
  split; [|split].
  - rewrite detect_motion_cases. destruct (feed_unavailable s).
    + eexists; reflexivity.
    + destruct (detect_motion_body e s) as [[r|what] s']; eexists; reflexivity.
  - intros [H|[H|[H|H]]]; [| | |apply Hbody; exact H];
      rewrite detect_motion_cases;
      (replace (feed_unavailable s) with true; [reflexivity|]);
      symmetry; apply feed_unavailable_iff; tauto.
  - intros H. apply Hbody. apply detect_motion_body_raises. exact H.
Qed.

Lemma detect_motion_never_raises_witness :
  fst (detect_motion sample_tick init) = Returned (None, [], false, None) /\
  fst (detect_motion no_frame_tick camera_on) = Returned (None, [], false, None).
Proof.
  split.
  - destruct (detect_motion_never_raises sample_tick init) as (_ & H & _).
    apply H. left. reflexivity.
  - destruct (detect_motion_never_raises no_frame_tick camera_on) as (_ & _ & H).
    apply H. left. reflexivity.
Defined.

(** * The rest of [MotionDetector] *)

(** ** The recording methods as sequences of changes *)

Lemma steps_atom s s' : session_atom s s' -> session_steps s s'.
Proof. intros H. eapply steps_then; [apply steps_none | exact H]. Qed.

Lemma steps_trans s1 s2 s3 :
  session_steps s1 s2 -> session_steps s2 s3 -> session_steps s1 s3.
Proof.
  intros H12 H23. induction H23 as [|s2 s3 s4 _ IH Hatom]; [exact H12|].
  eapply steps_then; [apply IH; exact H12 | exact Hatom].
Qed.

Lemma stop_recording_no_writer e s :
  video_writer s = None -> stop_recording e s = (Returned None, s).
Proof.
  intros Hw. unfold stop_recording. run_method. rewrite Hw.
  destruct (recording s); reflexivity.
Qed.

Lemma stop_recording_steps e s : session_steps s (snd (stop_recording e s)).
Proof.
  destruct (recording s) eqn:Hr.
  - destruct (video_writer s) as [w|] eqn:Hw.
    + rewrite (stop_recording_open e s w Hr Hw). cbn [snd].
      apply steps_atom, atom_stop; assumption.
    + rewrite stop_recording_no_writer by assumption. apply steps_none.
  - rewrite stop_recording_idle by assumption. apply steps_none.
Qed.

Lemma start_recording_steps e size s :
  session_steps s (snd (start_recording e size s)).
Proof.
  destruct (recording s) eqn:Hr.
  - unfold start_recording. run_method. rewrite Hr. apply steps_none.
  - destruct (open_raises e) eqn:Ho.
    + rewrite start_recording_raises by assumption.
      apply steps_atom. apply (atom_abort s Hr).
    + rewrite start_recording_opens by assumption.
      apply steps_atom, atom_start; assumption.
Qed.

Lemma write_frame_steps e frame s :
  session_steps s (snd (write_frame e frame s)).
Proof.
  destruct (recording s) eqn:Hr; cycle 1.
  { unfold write_frame. run_method. rewrite Hr. apply steps_none. }
  destruct (video_writer s) as [w|] eqn:Hw; cycle 1.
  { unfold write_frame. run_method. rewrite Hr, Hw. apply steps_none. }
  destruct (write_raises e) eqn:Hx.
  { rewrite write_frame_raises by assumption. apply steps_none. }
  destruct (Qlt_le_dec (t_write e - recording_start_time s) RECORDING_DURATION).
  - rewrite (write_frame_continue e frame s w) by assumption.
    apply steps_atom, atom_write; assumption.
  - rewrite (write_frame_expire e frame s w) by assumption. cbn [snd].
    eapply steps_then.
    + apply steps_atom. apply (atom_write w frame s Hr Hw).
    + apply atom_stop; [exact Hr | exact Hw].
Qed.

Lemma refresh_motion_steps e m s : session_steps s (refresh_motion e m s).
Proof.
  destruct m; [apply steps_atom, atom_last_motion | apply steps_none].
Qed.

Lemma check_steps e m frame s :
  session_steps s (snd (check_recording_status e m frame s)).
Proof.
  destruct (recording_enabled s) eqn:He; destruct (recording s) eqn:Hr.
  - rewrite check_open by assumption. cbn [snd].
    eapply steps_trans; [apply write_frame_steps | apply refresh_motion_steps].
  - destruct m; [|rewrite check_idle_no_motion by assumption; apply steps_none].
    destruct (Qlt_le_dec (t_check e - last_motion_time s) (motion_cooldown s)).
    + rewrite check_idle_cooling by assumption. apply steps_none.
    + destruct (open_raises e) eqn:Ho.
      * rewrite check_start_fails by assumption. cbn [snd].
        eapply steps_then; [apply steps_atom, atom_last_motion|].
        apply atom_abort. exact Hr.
      * rewrite check_start_opens by assumption. cbn [snd].
        eapply steps_then; [apply steps_atom, atom_last_motion|].
        apply atom_start. exact Hr.
  - destruct (video_writer s) as [w|] eqn:Hw.
    + rewrite (check_disabled_open e m frame s w) by assumption.
      apply steps_atom, atom_stop; assumption.
    + unfold check_recording_status.
      unfold bind at 1. unfold get at 1. rewrite He, Hr. cbn [negb andb].
      unfold bind. rewrite stop_recording_no_writer by assumption.
      apply steps_none.
  - rewrite check_disabled_idle by assumption. apply steps_none.
Qed.

(** The only way a tick changes the detector is through
    [check_recording_status]. *)
Lemma detect_motion_body_state e s o s' :
  detect_motion_body e s = (o, s') ->
  s' = s \/
  exists m frame, s' = snd (check_recording_status (rec_env e) m frame s).
Proof.
  unfold detect_motion_body. unfold bind at 1. unfold lift at 1.
  destruct (cap_read e) as [[frame|]|what];
    [|intros H; injection H as _ <-; left; reflexivity..].
  unfold bind at 1. unfold lift at 1.
  destruct (find_contours e) as [contours|what];
    [|intros H; injection H as _ <-; left; reflexivity].
  destruct (contour_loop_spec contours frame) as [frame1 ->].
  intros H. right. exists (existsb survives contours), frame.
  revert H. unfold bind at 1.
  destruct (check_returns (rec_env e) (existsb survives contours) frame s)
    as [[status path] Hret].
  destruct (check_recording_status _ _ _ s) as [o1 s1]. cbn in Hret. subst o1.
  run_method. destruct (recording s1); cbn.
  - destruct (overlay_raises e); cbn; intros H; injection H as _ <-; reflexivity.
  - intros H; injection H as _ <-; reflexivity.
Qed.

Lemma detect_motion_state e s :
  snd (detect_motion e s) = s \/
  exists m frame,
    snd (detect_motion e s) = snd (check_recording_status (rec_env e) m frame s).
Proof.
  rewrite detect_motion_cases. destruct (feed_unavailable s); [left; reflexivity|].
  destruct (detect_motion_body e s) as [o s'] eqn:Hbody.
  apply detect_motion_body_state in Hbody.
  destruct o; cbn [snd]; exact Hbody.
Qed.

Lemma detect_motion_steps e s : session_steps s (snd (detect_motion e s)).
Proof.
  destruct (detect_motion_state e s) as [->|(m & frame & ->)];
    [apply steps_none | apply check_steps].
Qed.

Lemma capture_image_state e orientation s :
  snd (capture_image e orientation s) = s.
Proof.
  unfold capture_image. run_method.
  destruct (feed_unavailable s); [reflexivity|].
  destruct (still_read e) as [[frame|]|what]; reflexivity.
Qed.

Lemma stop_camera_spec s : stop_camera s = (Returned tt, after_stop_camera s).
Proof.
  unfold stop_camera, after_stop_camera. run_method.
  destruct (cap s); reflexivity.
Qed.

Lemma start_camera_spec device_opens index s :
  start_camera device_opens index s
  = let c := mkVideoCapture index device_opens in
    if device_opens
    then (Returned true, set_feed_active true (camera_created index c s))
    else (Returned false,
          set_cap None (log (CaptureRelease c) (camera_created index c s))).
Proof.
  unfold start_camera, camera_created.
  unfold bind at 1. unfold get at 1. unfold bind at 1.
  destruct (feed_active s).
  - rewrite stop_camera_spec. run_method. destruct device_opens; reflexivity.
  - run_method. destruct device_opens; reflexivity.
Qed.

(** ** Invariants of the detector *)

Lemma frames_in_last_clip_snoc cs c :
  frames_in_last_clip (cs ++ [c])
  = match c with
    | WriterCreated _ => 0%Z
    | WriterWrite _ _ => (frames_in_last_clip cs + 1)%Z
    | _ => frames_in_last_clip cs
    end.
Proof. unfold frames_in_last_clip. rewrite fold_left_app. reflexivity. Qed.

Lemma held_captures_snoc cs c :
  held_captures (cs ++ [c])
  = match c with
    | CaptureCreated _ => (held_captures cs + 1)%Z
    | CaptureRelease _ => (held_captures cs - 1)%Z
    | _ => held_captures cs
    end.
Proof. unfold held_captures. rewrite fold_left_app. reflexivity. Qed.

Lemma same_camera_refl s : same_camera s s.
Proof. repeat split. Qed.

Lemma same_camera_trans s1 s2 s3 :
  same_camera s1 s2 -> same_camera s2 s3 -> same_camera s1 s3.
Proof.
  unfold same_camera. intros (-> & -> & -> & -> & -> & ->) H. exact H.
Qed.

Lemma session_atom_same_camera s s' : session_atom s s' -> same_camera s s'.
Proof.
  intros H. destruct H; unfold same_camera, after_start, after_write, after_stop;
    try destruct (release_raises e); fields;
    rewrite ?held_captures_snoc; repeat split.
Qed.

Lemma session_steps_same_camera s s' : session_steps s s' -> same_camera s s'.
Proof.
  induction 1 as [|s1 s2 s3 _ IH Hatom]; [apply same_camera_refl|].
  eapply same_camera_trans; [exact IH | apply session_atom_same_camera, Hatom].
Qed.

Lemma session_atom_sound s s' : sound s -> session_atom s s' -> sound s'.
Proof.
  intros ([Hrec Hcam] & Hframes & Hheld) Hatom.
  destruct (session_atom_same_camera s s' Hatom)
    as (Hcap & Hfeed & _ & _ & _ & Hheld').
  unfold sound, consistent. rewrite Hcap, Hfeed, Hheld'.
  split; [split; [|exact Hcam]|split; [|exact Hheld]].
  - destruct Hatom; unfold after_start, after_write, after_stop;
      try destruct (release_raises e); fields;
      try exact Hrec; split; congruence.
  - destruct Hatom; unfold after_start, after_write, after_stop;
      try destruct (release_raises e); fields;
      rewrite ?frames_in_last_clip_snoc; congruence.
Qed.

Lemma session_steps_sound s s' : sound s -> session_steps s s' -> sound s'.
Proof.
  intros Hs Hsteps. induction Hsteps as [|s1 s2 s3 _ IH Hatom]; [exact Hs|].
  eapply session_atom_sound; [apply IH; exact Hs | exact Hatom].
Qed.

Lemma after_stop_camera_sound s : sound s -> sound (after_stop_camera s).
Proof.
  intros ([Hrec Hcam] & Hframes & Hheld). unfold after_stop_camera.
  destruct (cap s) as [c|] eqn:Hc; unfold sound, consistent; fields;
    rewrite ?frames_in_last_clip_snoc, ?held_captures_snoc, ?Hc.
  - split; [split; [exact Hrec | split; congruence]|]. split; [exact Hframes | lia].
  - split; [split; [exact Hrec | split; congruence]|]. split; assumption.
Qed.

Lemma start_camera_sound device_opens index s :
  sound s -> sound (snd (start_camera device_opens index s)).
Proof.
  intros Hs. rewrite start_camera_spec. cbv zeta.
  assert (H0 : sound (if feed_active s then after_stop_camera s else s) /\
               cap (if feed_active s then after_stop_camera s else s) = None).
  { destruct (feed_active s) eqn:Hf.
    - split; [apply after_stop_camera_sound, Hs|].
      unfold after_stop_camera. destruct (cap s) eqn:Hc; fields; congruence.
    - split; [exact Hs|]. destruct Hs as ([_ Hcam] & _).
      destruct (cap s); [|reflexivity].
      assert (feed_active s = true) by (apply Hcam; discriminate). congruence. }
  destruct H0 as [([Hrec _] & Hframes & Hheld) Hnone]. rewrite Hnone in Hheld.
  unfold camera_created.
  destruct device_opens; cbn [snd]; unfold sound, consistent; fields;
    rewrite ?frames_in_last_clip_snoc, ?held_captures_snoc.
  - split; [split; [exact Hrec | split; [discriminate | reflexivity]]|].
    split; [exact Hframes | lia].
  - split; [split; [exact Hrec|]|split; [exact Hframes | lia]].
    destruct (feed_active s) eqn:Hf.
    + unfold after_stop_camera. destruct (cap s); fields; split; congruence.
    + rewrite Hf. split; congruence.
Qed.

Lemma init_sound : sound init.
Proof.
  unfold sound, consistent. cbn.
  split; [split; split; congruence|]. split; reflexivity.
Qed.

Lemma apply_op_sound op s : sound s -> sound (apply_op op s).
Proof.
  intros Hs. destruct op; cbn [apply_op].
  - apply start_camera_sound, Hs.
  - rewrite stop_camera_spec. apply after_stop_camera_sound, Hs.
  - eapply session_steps_sound; [exact Hs | apply detect_motion_steps].
  - eapply session_steps_sound; [exact Hs | apply check_steps].
  - eapply session_steps_sound; [exact Hs | apply start_recording_steps].
  - eapply session_steps_sound; [exact Hs | apply stop_recording_steps].
  - eapply session_steps_sound; [exact Hs | apply write_frame_steps].
  - rewrite capture_image_state. exact Hs.
  - unfold cleanup. rewrite stop_camera_spec. apply after_stop_camera_sound, Hs.
  - exact Hs.
  - exact Hs.
Qed.

Lemma run_ops_sound ops : forall s, sound s -> sound (run_ops ops s).
Proof.
  unfold run_ops. induction ops as [|op ops IH]; intros s Hs; cbn [fold_left].
  - exact Hs.
  - apply IH, apply_op_sound, Hs.
Qed.

(** X1.  Whatever methods of [MotionDetector] are called on a fresh
    detector, in whatever order and environment, [recording] is set exactly
    when a video writer is held, and [feed_active] exactly when a camera
    handle is held. *)
Theorem reachable_consistent ops : consistent (run_ops ops init).
Proof. apply (run_ops_sound ops init init_sound). Qed.

(** X2.  Whatever methods are called on a fresh detector,
    [frames_recorded] is the number of frames that went into the clip
    opened last: the writes logged since the last writer was created. *)
Theorem frames_recorded_counts_written_frames ops :
  frames_recorded (run_ops ops init)
  = frames_in_last_clip (calls (run_ops ops init)).
Proof. apply (run_ops_sound ops init init_sound). Qed.

(** ** The calls on camera handles come in pairs *)

Lemma capture_calls_snoc cs c :
  capture_calls (cs ++ [c])
  = capture_calls cs
    ++ match c with
       | CaptureCreated _ | CaptureRelease _ => [c]
       | _ => []
       end.
Proof.
  unfold capture_calls. rewrite filter_app. destruct c; reflexivity.
Qed.

Lemma released_captures_snoc cs c :
  released_captures (cs ++ [c])
  = released_captures cs
    ++ match c with
       | CaptureRelease h => [h]
       | _ => []
       end.
Proof.
  unfold released_captures. rewrite flat_map_app. cbn [flat_map].
  rewrite app_nil_r. reflexivity.
Qed.

Lemma paired_captures_create hs h :
  paired_captures hs None ++ [CaptureCreated h] = paired_captures hs (Some h).
Proof. unfold paired_captures. rewrite app_nil_r. reflexivity. Qed.

Lemma paired_captures_release hs h :
  paired_captures hs (Some h) ++ [CaptureRelease h] = paired_captures (hs ++ [h]) None.
Proof.
  unfold paired_captures. rewrite flat_map_app. cbn [flat_map].
  rewrite !app_nil_r, <- app_assoc. reflexivity.
Qed.

(** The recording methods make no call on a camera handle. *)
Lemma session_atom_captures s s' :
  session_atom s s' ->
  cap s' = cap s /\
  capture_calls (calls s') = capture_calls (calls s) /\
  released_captures (calls s') = released_captures (calls s).
Proof.
  intros H. destruct H; unfold after_start, after_write, after_stop;
    try destruct (release_raises e); fields;
    rewrite ?capture_calls_snoc, ?released_captures_snoc, ?app_nil_r;
    repeat split.
Qed.

Lemma session_steps_captures s s' :
  session_steps s s' ->
  cap s' = cap s /\
  capture_calls (calls s') = capture_calls (calls s) /\
  released_captures (calls s') = released_captures (calls s).
Proof.
  induction 1 as [|s1 s2 s3 _ (IHc & IHcalls & IHrel) Hatom]; [repeat split|].
  destruct (session_atom_captures s2 s3 Hatom) as (Hc & Hcalls & Hrel).
  split; [congruence|]. split; congruence.
Qed.

Lemma session_steps_paired s s' :
  captures_paired s -> session_steps s s' -> captures_paired s'.
Proof.
  unfold captures_paired. intros Hp Hsteps.
  destruct (session_steps_captures s s' Hsteps) as (-> & -> & ->). exact Hp.
Qed.

Lemma after_stop_camera_paired s :
  captures_paired s ->
  captures_paired (after_stop_camera s) /\ cap (after_stop_camera s) = None.
Proof.
  unfold captures_paired, after_stop_camera. intros Hp.
  destruct (cap s) as [c|] eqn:Hc; fields.
  - split; [|reflexivity].
    rewrite capture_calls_snoc, released_captures_snoc, Hp.
    apply paired_captures_release.
  - split; [|exact Hc]. rewrite Hc. exact Hp.
Qed.

Lemma start_camera_paired device_opens index s :
  consistent s -> captures_paired s ->
  captures_paired (snd (start_camera device_opens index s)).
Proof.
  intros [_ Hcam] Hp. rewrite start_camera_spec. cbv zeta.
  assert (H0 : captures_paired (if feed_active s then after_stop_camera s else s) /\
               cap (if feed_active s then after_stop_camera s else s) = None).
  { destruct (feed_active s) eqn:Hf; [apply after_stop_camera_paired, Hp|].
    split; [exact Hp|]. destruct (cap s); [|reflexivity].
    assert (Hon : false = true) by (apply Hcam; discriminate). discriminate Hon. }
  destruct H0 as [Hp0 Hnone]. unfold captures_paired in Hp0. rewrite Hnone in Hp0.
  unfold camera_created, captures_paired.
  destruct device_opens; cbn [snd]; fields;
    rewrite ?capture_calls_snoc, ?released_captures_snoc, ?app_nil_r, Hp0.
  - apply paired_captures_create.
  - rewrite paired_captures_create. apply paired_captures_release.
Qed.

Lemma apply_op_paired op s :
  sound s -> captures_paired s -> captures_paired (apply_op op s).
Proof.
  intros Hs Hp. destruct op; cbn [apply_op].
  - apply start_camera_paired; [apply Hs | exact Hp].
  - rewrite stop_camera_spec. apply after_stop_camera_paired, Hp.
  - eapply session_steps_paired; [exact Hp | apply detect_motion_steps].
  - eapply session_steps_paired; [exact Hp | apply check_steps].
  - eapply session_steps_paired; [exact Hp | apply start_recording_steps].
  - eapply session_steps_paired; [exact Hp | apply stop_recording_steps].
  - eapply session_steps_paired; [exact Hp | apply write_frame_steps].
  - rewrite capture_image_state. exact Hp.
  - unfold cleanup. rewrite stop_camera_spec. apply after_stop_camera_paired, Hp.
  - exact Hp.
  - exact Hp.
Qed.

Lemma run_ops_paired ops : forall s,
  sound s -> captures_paired s -> captures_paired (run_ops ops s).
Proof.
  unfold run_ops. induction ops as [|op ops IH]; intros s Hs Hp; cbn [fold_left].
  - exact Hp.
  - apply IH; [apply apply_op_sound, Hs | apply apply_op_paired; assumption].
Qed.

(** X3.  Camera handles never leak and are never released twice.  Whatever
    methods are called on a fresh detector, the calls made on camera
    handles, in the order they were made, are: a handle is created, that
    same handle is released, the next handle is created, that one is
    released, and so on, one creation and one release for each handle that
    was released; and when the detector holds a handle in [cap], the
    creation of that handle comes last and has no release.  Nothing else is
    called on a camera handle: no release of a handle other than the one
    created last, no second release, no creation while a handle is held.  So
    the handles created and not released number one when [cap] holds a
    handle and none when it does not. *)
Theorem camera_handles_balanced ops :
  let s := run_ops ops init in
  capture_calls (calls s)
  = flat_map (fun h => [CaptureCreated h; CaptureRelease h])
      (released_captures (calls s))
    ++ match cap s with
       | Some h => [CaptureCreated h]
       | None => []
       end /\
  held_captures (calls s) = match cap s with Some _ => 1%Z | None => 0%Z end.
Proof.
  cbv zeta. split.
  - apply (run_ops_paired ops init init_sound). reflexivity.
  - apply (run_ops_sound ops init init_sound).
Qed.

(** ** [start_camera] *)

(** X4.  [start_camera] returns whether the device opened and always
    records the requested index in [camera_index].  When the device opens,
    the feed is active on the new handle.  When it does not, the new handle
    is released and the detector is left with no handle and the feed off,
    also when a feed was running before the call.  A feed that was running
    has its handle released either way. *)
Theorem start_camera_outcome device_opens index s :
  let r := start_camera device_opens index s in
  fst r = Returned device_opens /\
  camera_index (snd r) = index /\
  (device_opens = true ->
   feed_active (snd r) = true /\
   cap (snd r) = Some (mkVideoCapture index true)) /\
  (device_opens = false ->
   feed_active (snd r) = false /\ cap (snd r) = None /\
   In (CaptureRelease (mkVideoCapture index false)) (calls (snd r))) /\
  (forall c, feed_active s = true -> cap s = Some c ->
             In (CaptureRelease c) (calls (snd r))).
Proof.
  cbv zeta. rewrite start_camera_spec. cbv zeta. unfold camera_created.
  assert (Hold : forall c, feed_active s = true -> cap s = Some c ->
            In (CaptureRelease c)
               (calls (if feed_active s then after_stop_camera s else s))).
  { intros c Hf Hc. rewrite Hf. unfold after_stop_camera. rewrite Hc. fields.
    apply in_or_app. right. left. reflexivity. }
  assert (Hoff : device_opens = false ->
            feed_active (if feed_active s then after_stop_camera s else s) = false).
  { intros _. destruct (feed_active s) eqn:Hf; [|exact Hf].
    unfold after_stop_camera. destruct (cap s); reflexivity. }
  destruct device_opens; fields.
  - split; [reflexivity|]. split; [reflexivity|].
    split; [intros _; split; reflexivity|]. split; [intros H; discriminate H|].
    intros c Hf Hc. apply in_or_app. left. apply Hold; assumption.
  - split; [reflexivity|]. split; [reflexivity|].
    split; [intros H; discriminate H|]. split.
    + intros _. split; [apply Hoff; reflexivity|]. split; [reflexivity|].
      apply in_or_app. right. left. reflexivity.
    + intros c Hf Hc. apply in_or_app. left. apply in_or_app. left.
      apply Hold; assumption.
Qed.

(** ** Ticks and the camera *)


Lemma detect_motion_feed_unavailable e s :
  feed_unavailable s = true -> detect_motion e s = (Returned failed_tick, s).
Proof. intros Hf. rewrite detect_motion_cases, Hf. reflexivity. Qed.

Lemma after_stop_camera_unavailable s : feed_unavailable (after_stop_camera s) = true.
Proof.
  unfold feed_unavailable, after_stop_camera. destruct (cap s); reflexivity.
Qed.

(** X6.  Once the camera is stopped, ticks do nothing at all: after
    [stop_camera], any number of [detect_motion] calls, at whatever times,
    leave the detector exactly as [stop_camera] left it.  A session that was
    open stays open, unwritten and unreleased, however long ago it
    started. *)
Theorem ticks_after_stop_camera_do_nothing envs s :
  run_ops (OpStopCamera :: map OpDetectMotion envs) s = after_stop_camera s /\
  recording (run_ops (OpStopCamera :: map OpDetectMotion envs) s) = recording s /\
  video_writer (run_ops (OpStopCamera :: map OpDetectMotion envs) s)
  = video_writer s /\
  frames_recorded (run_ops (OpStopCamera :: map OpDetectMotion envs) s)
  = frames_recorded s /\
  (forall w, In (WriterRelease w)
               (calls (run_ops (OpStopCamera :: map OpDetectMotion envs) s)) ->
             In (WriterRelease w) (calls s)).
Proof.
  assert (Hrun : run_ops (OpStopCamera :: map OpDetectMotion envs) s
                 = after_stop_camera s).
  { unfold run_ops. cbn [fold_left apply_op]. rewrite stop_camera_spec. cbn [snd].
    pose proof (after_stop_camera_unavailable s) as Hoff.
    induction envs as [|e envs IH]; cbn [map fold_left apply_op]; [reflexivity|].
    rewrite detect_motion_feed_unavailable by exact Hoff. exact IH. }
  rewrite Hrun. split; [reflexivity|].
  unfold after_stop_camera. destruct (cap s); fields;
    (split; [reflexivity|]); (split; [reflexivity|]); (split; [reflexivity|]);
    intros w Hin; [|exact Hin].
  apply in_app_or in Hin. destruct Hin as [Hin|[Hin|[]]]; [exact Hin|discriminate Hin].
Qed.

(** ** [stop_recording] *)

(** X7.  On a detector whose flag and writer agree, [stop_recording] always
    ends the session: afterwards the flag is clear and no writer is held,
    whether the release went through (result [True], release logged) or
    raised (result [False]); with nothing to stop it returns [None] and
    changes nothing.  A second [stop_recording] finds nothing to stop. *)
Theorem stop_recording_ends_session e e2 s :
  (recording s = true <-> video_writer s <> None) ->
  let r := stop_recording e s in
  recording (snd r) = false /\ video_writer (snd r) = None /\
  (recording s = false -> r = (Returned None, s)) /\
  (recording s = true -> fst r = Returned (Some (negb (release_raises e)))) /\
  (forall w, recording s = true -> video_writer s = Some w ->
             release_raises e = false -> In (WriterRelease w) (calls (snd r))) /\
  (release_raises e = true -> calls (snd r) = calls s) /\
  stop_recording e2 (snd r) = (Returned None, snd r).
Proof.
  intros Hagree. cbv zeta. destruct (recording s) eqn:Hr.
  - destruct (video_writer s) as [w|] eqn:Hw;
      [|exfalso; apply (proj1 Hagree); reflexivity].
    rewrite (stop_recording_open e s w Hr Hw). cbn [fst snd].
    split; [reflexivity|]. split; [reflexivity|].
    split; [intros H; discriminate H|]. split; [reflexivity|]. split; [|split].
    + intros w' _ Hw' Hrel. injection Hw' as <-. unfold after_stop.
      rewrite Hrel. fields. apply in_or_app. right. left. reflexivity.
    + intros Hrel. unfold after_stop. rewrite Hrel. reflexivity.
    + apply stop_recording_idle. reflexivity.
  - rewrite stop_recording_idle by assumption. cbn [fst snd].
    assert (Hw : video_writer s = None).
    { destruct (video_writer s); [|reflexivity].
      assert (false = true) by (apply Hagree; discriminate). discriminate. }
    split; [exact Hr|]. split; [exact Hw|]. split; [reflexivity|].
    split; [intros H; discriminate H|]. split; [intros w H; discriminate H|].
    split; [reflexivity|]. apply stop_recording_idle. exact Hr.
Qed.

Lemma stop_recording_ends_session_witness :
  (recording recording_since_100 = true <-> video_writer recording_since_100 <> None) /\
  recording (snd (stop_recording (failing_open 101) recording_since_100)) = false /\
  video_writer (snd (stop_recording (failing_open 101) recording_since_100)) = None.
Proof.
  assert (Hagree : recording recording_since_100 = true
                   <-> video_writer recording_since_100 <> None).
  { split; [discriminate | reflexivity]. }
  destruct (stop_recording_ends_session (failing_open 101) (clock 102)
              recording_since_100 Hagree) as (H1 & H2 & _).
  split; [exact Hagree|]. split; [exact H1 | exact H2].
Defined.

(** ** Failing writes *)

Lemma writes_all_raise ticks :
  Forall (fun t => write_raises (tick_env t) = true) ticks -> writes ticks = 0%Z.
Proof.
  unfold writes. induction 1 as [|t ticks Hx _ IH]; [reflexivity|].
  cbn [filter]. rewrite Hx. cbn [negb]. exact IH.
Qed.

(** X8.  While every write raises, an open session never ends, whatever the
    clock says: each tick still reports "recording", the session stays open
    under the same writer, no frame is counted and nothing reaches the
    file. *)
Theorem failing_writes_never_expire w since s ticks :
  open_session w since s ->
  Forall (fun t => write_raises (tick_env t) = true) ticks ->
  Forall (status_is (Some recording_)) (fst (run ticks s)) /\
  open_session w since (snd (run ticks s)) /\
  frames_recorded (snd (run ticks s)) = frames_recorded s /\
  calls (snd (run ticks s)) = calls s.
Proof.
  intros Hopen Hall.
  assert (Hkeep : Forall (keeps_open since) ticks).
  { eapply Forall_impl; [|exact Hall]. intros t Ht. left. exact Ht. }
  destruct (run_keeps_open w since ticks s Hopen Hkeep) as (Hst & Ho & Hf).
  split; [exact Hst|]. split; [exact Ho|].
  split; [rewrite Hf, (writes_all_raise _ Hall); lia|].
  clear Hst Ho Hf Hkeep. revert s Hopen.
  induction Hall as [|t ticks Hx _ IH]; intros s Hopen; [reflexivity|].
  cbn [run]. destruct (check_keeps_open w since t s Hopen (or_introl Hx))
    as (_ & Ho1 & _).
  assert (Hcalls : calls (snd (check_tick t s)) = calls s).
  { destruct Hopen as (He & Hr & _). unfold check_tick.
    rewrite check_open_write_raises by assumption. cbn [snd].
    apply refresh_motion_fields. }
  destruct (check_tick t s) as [o s1]. cbn [snd] in *.
  specialize (IH s1 Ho1). destruct (run ticks s1) as [os s2]. cbn [snd] in *.
  congruence.
Qed.

Lemma failing_writes_never_expire_witness :
  open_session sample_writer 100 recording_since_100 /\
  recording (snd (run [write_fails_at 105; write_fails_at 500] recording_since_100))
  = true /\
  frames_recorded
    (snd (run [write_fails_at 105; write_fails_at 500] recording_since_100))
  = 0%Z.
Proof.
  assert (Hopen : open_session sample_writer 100 recording_since_100).
  { repeat split. }
  assert (Hall : Forall (fun t => write_raises (tick_env t) = true)
                   [write_fails_at 105; write_fails_at 500]).
  { repeat constructor. }
  destruct (failing_writes_never_expire sample_writer 100 recording_since_100
              [write_fails_at 105; write_fails_at 500] Hopen Hall)
    as (_ & (_ & Hr & _) & Hf & _).
  split; [exact Hopen|]. split; [exact Hr | exact Hf].
Defined.

(** ** The status that a tick reports *)

(** The status of [check_recording_status] as a table. *)
Lemma check_status_cases e m frame s :
  (recording_enabled s = false /\ recording s = true /\
   status_is (Some stopped) (fst (check_recording_status e m frame s))) \/
  (recording_enabled s = false /\ recording s = false /\
   check_recording_status e m frame s = (Returned (None, None), s)) \/
  (recording_enabled s = true /\ recording s = true /\
   status_is (Some recording_) (fst (check_recording_status e m frame s))) \/
  (recording_enabled s = true /\ recording s = false /\
   (m = false \/ t_check e - last_motion_time s < motion_cooldown s) /\
   check_recording_status e m frame s = (Returned (None, None), s)) \/
  (recording_enabled s = true /\ recording s = false /\ m = true /\
   motion_cooldown s <= t_check e - last_motion_time s /\
   open_raises e = true /\
   fst (check_recording_status e m frame s) = Returned (None, None) /\
   recording (snd (check_recording_status e m frame s)) = false) \/
  (recording_enabled s = true /\ recording s = false /\ m = true /\
   motion_cooldown s <= t_check e - last_motion_time s /\
   open_raises e = false /\
   check_recording_status e m frame s
   = (Returned (Some started, Some (video_path_of (strftime e))),
      after_start e (frame_size frame) (set_last_motion_time (t_check e) s))).
Proof.
  destruct (recording_enabled s) eqn:He; destruct (recording s) eqn:Hr.
  - right. right. left. rewrite check_open by assumption.
    repeat split. eexists; reflexivity.
  - right. right. right. destruct m.
    + destruct (Qlt_le_dec (t_check e - last_motion_time s) (motion_cooldown s)).
      * left. rewrite check_idle_cooling by assumption.
        split; [reflexivity|]. split; [reflexivity|]. split; [right; assumption|].
        reflexivity.
      * right. destruct (open_raises e) eqn:Ho.
        -- left. rewrite check_start_fails by assumption. repeat split. exact q.
        -- right. rewrite check_start_opens by assumption. repeat split. exact q.
    + left. rewrite check_idle_no_motion by assumption.
      split; [reflexivity|]. split; [reflexivity|]. split; [left; reflexivity|].
      reflexivity.
  - left. split; [reflexivity|]. split; [reflexivity|].
    unfold check_recording_status.
    unfold bind at 1. unfold get at 1. rewrite He, Hr. cbn [negb andb].
    unfold bind. destruct (stop_recording_returns e s) as [r Hret].
    destruct (stop_recording e s) as [o s1]. cbn in Hret. subst o.
    eexists; reflexivity.
  - right. left. rewrite check_disabled_idle by assumption. repeat split.
Qed.

Lemma status_is_inj st1 st2 o : status_is st1 o -> status_is st2 o -> st1 = st2.
Proof. intros [p1 ->] [p2 H]. congruence. Qed.

(** X9.  When [check_recording_status] reports which status.  "started":
    exactly when recording is enabled, no session is open, there is motion,
    the cooldown since [last_motion_time] is over and the writer is created
    without raising.  "stopped": exactly when recording is disabled and the
    flag is set.  "recording": exactly when recording is enabled and the flag
    is set.  No status in all other cases. *)
Theorem status_table e m frame s :
  let o := fst (check_recording_status e m frame s) in
  (status_is (Some started) o <->
   recording_enabled s = true /\ recording s = false /\ m = true /\
   motion_cooldown s <= t_check e - last_motion_time s /\
   open_raises e = false) /\
  (status_is (Some stopped) o <->
   recording_enabled s = false /\ recording s = true) /\
  (status_is (Some recording_) o <->
   recording_enabled s = true /\ recording s = true) /\
  (status_is None o <->
   recording s = false /\
   (recording_enabled s = false \/ m = false
    \/ t_check e - last_motion_time s < motion_cooldown s
    \/ open_raises e = true)).
Proof.
  cbv zeta.
  destruct (check_status_cases e m frame s)
    as [(He & Hr & Hst)|[(He & Hr & Heq)|[(He & Hr & Hst)|[(He & Hr & Hwhy & Heq)
       |[(He & Hr & Hm & Hc & Ho & Heq & _)|(He & Hr & Hm & Hc & Ho & Heq)]]]]];
    try (assert (Hst : status_is None (fst (check_recording_status e m frame s)))
           by (rewrite Heq; eexists; reflexivity));
    try (assert (Hst : status_is (Some started)
                         (fst (check_recording_status e m frame s)))
           by (rewrite Heq; eexists; reflexivity));
    try clear Heq;
    (split; [status_iff status_is_inj Hst|]);
    (split; [status_iff status_is_inj Hst|]);
    (split; [status_iff status_is_inj Hst|]); status_iff status_is_inj Hst.
Qed.

(** X10.  What the reported status says about the detector afterwards.  No
    status: no session is open.  "started": a session is open with no frame
    recorded yet, started at the time [start_recording] read, and the path
    of the new clip is returned; a path is returned with no other status.
    "stopped": the session is closed (given that a writer was held).
    "recording" alone does not tell: it is also what the tick that closes
    the session at the end of the duration reports. *)
Theorem status_and_session e m frame s :
  let r := check_recording_status e m frame s in
  (status_is None (fst r) -> recording (snd r) = false) /\
  (status_is (Some started) (fst r) ->
   fst r = Returned (Some started, Some (video_path_of (strftime e))) /\
   recording (snd r) = true /\ video_writer (snd r) <> None /\
   frames_recorded (snd r) = 0%Z /\
   recording_start_time (snd r) = t_start e /\
   last_motion_time (snd r) = t_check e) /\
  (status_is (Some stopped) (fst r) -> video_writer s <> None ->
   recording (snd r) = false /\ video_writer (snd r) = None) /\
  (forall st p, fst r = Returned (st, Some p) -> st = Some started).
Proof.
  cbv zeta.
  destruct (check_status_cases e m frame s)
    as [(He & Hr & Hst)|[(He & Hr & Heq)|[(He & Hr & Hst)|[(He & Hr & Hwhy & Heq)
       |[(He & Hr & Hm & Hc & Ho & Heq & Hrec)|(He & Hr & Hm & Hc & Ho & Heq)]]]]].
  - split; [intros H; pose proof (status_is_inj _ _ _ Hst H) as Hne; discriminate Hne|].
    split; [intros H; pose proof (status_is_inj _ _ _ Hst H) as Hne; discriminate Hne|].
    split.
    + intros _ Hw. destruct (video_writer s) as [w|] eqn:Ew; [|congruence].
      rewrite (check_disabled_open e m frame s w) by assumption.
      split; reflexivity.
    + intros st p Hp. destruct (video_writer s) as [w|] eqn:Ew.
      * rewrite (check_disabled_open e m frame s w) in Hp by assumption.
        discriminate Hp.
      * revert Hp. unfold check_recording_status.
        unfold bind at 1. unfold get at 1. rewrite He, Hr. cbn [negb andb].
        unfold bind. rewrite stop_recording_no_writer by assumption.
        intros Hp. discriminate Hp.
  - rewrite Heq. cbn [fst snd].
    split; [intros _; exact Hr|].
    split; [intros [p H]; discriminate H|].
    split; [intros [p H]; discriminate H|].
    intros st p H. discriminate H.
  - split; [intros H; pose proof (status_is_inj _ _ _ Hst H) as Hne; discriminate Hne|].
    split; [intros H; pose proof (status_is_inj _ _ _ Hst H) as Hne; discriminate Hne|].
    split; [intros H; pose proof (status_is_inj _ _ _ Hst H) as Hne; discriminate Hne|].
    intros st p Hp. rewrite check_open in Hp by assumption. discriminate Hp.
  - rewrite Heq. cbn [fst snd].
    split; [intros _; exact Hr|].
    split; [intros [p H]; discriminate H|].
    split; [intros [p H]; discriminate H|].
    intros st p H. discriminate H.
  - rewrite Heq.
    split; [intros _; exact Hrec|].
    split; [intros [p H]; discriminate H|].
    split; [intros [p H]; discriminate H|].
    intros st p H. discriminate H.
  - rewrite Heq. cbn [fst snd].
    split; [intros [p H]; discriminate H|].
    split; [intros _; repeat split; discriminate|].
    split; [intros [p H]; discriminate H|].
    intros st p H. congruence.
Qed.

(** ** Sessions under continuous motion *)

(** X11.  The cooldown of the next session runs from the last tick with
    motion, not from the start of the session.  When the tick that ends a
    session at the duration sees motion, [last_motion_time] becomes the time
    of that tick; a tick less than [motion_cooldown] later starts nothing
    even with motion, and a tick with motion [motion_cooldown] or more later
    starts a new session. *)
Theorem restart_waits_for_cooldown w since s last next :
  open_session w since s ->
  expires since last ->
  tick_motion last = true ->
  let s1 := snd (check_tick last s) in
  recording s1 = false /\
  last_motion_time s1 = t_check (tick_env last) /\
  (t_check (tick_env next) - t_check (tick_env last) < motion_cooldown s ->
   check_tick next s1 = (Returned (None, None), s1)) /\
  (motion_cooldown s <= t_check (tick_env next) - t_check (tick_env last) ->
   tick_motion next = true -> open_raises (tick_env next) = false ->
   status_is (Some started) (fst (check_tick next s1))).
Proof.
  intros (He & Hr & Hw & Hs) (Hx & Hge) Hm. cbv zeta. rewrite <- Hs in Hge.
  assert (Hend : check_tick last s
                 = (Returned (Some recording_, None),
                    refresh_motion (tick_env last) true
                      (after_stop (tick_env last) w
                         (after_write w (tick_frame last) s)))).
  { unfold check_tick. rewrite Hm. apply check_open_expire; assumption. }
  rewrite Hend. cbn [snd].
  set (s1 := refresh_motion _ true _).
  assert (He1 : recording_enabled s1 = true).
  { subst s1. unfold after_stop. destruct (release_raises (tick_env last)); exact He. }
  assert (Hr1 : recording s1 = false).
  { subst s1. unfold after_stop. destruct (release_raises (tick_env last)); reflexivity. }
  assert (Hl1 : last_motion_time s1 = t_check (tick_env last)) by reflexivity.
  assert (Hc1 : motion_cooldown s1 = motion_cooldown s).
  { subst s1. unfold after_stop. destruct (release_raises (tick_env last)); reflexivity. }
  split; [exact Hr1|]. split; [exact Hl1|]. split.
  - intros Hsoon. unfold check_tick. apply check_idle_cooling; [exact He1|exact Hr1|].
    rewrite Hl1, Hc1. exact Hsoon.
  - intros Hlate Hm2 Ho2. unfold check_tick. rewrite Hm2.
    rewrite check_start_opens; [eexists; reflexivity|exact He1|exact Hr1| |exact Ho2].
    rewrite Hl1, Hc1. exact Hlate.
Qed.

Lemma restart_waits_for_cooldown_witness :
  open_session sample_writer 100 recording_since_100 /\
  expires 100 (motion_at 110) /\
  check_tick (motion_at 111) (snd (check_tick (motion_at 110) recording_since_100))
  = (Returned (None, None), snd (check_tick (motion_at 110) recording_since_100)) /\
  status_is (Some started)
    (fst (check_tick (motion_at 112)
            (snd (check_tick (motion_at 110) recording_since_100)))).
Proof.
  assert (Hopen : open_session sample_writer 100 recording_since_100).
  { repeat split. }
  assert (Hlast : expires 100 (motion_at 110)).
  { split; [reflexivity | discriminate]. }
  split; [exact Hopen|]. split; [exact Hlast|]. split.
  - destruct (restart_waits_for_cooldown sample_writer 100 recording_since_100
                (motion_at 110) (motion_at 111) Hopen Hlast eq_refl)
      as (_ & _ & Hsoon & _).
    apply Hsoon. reflexivity.
  - destruct (restart_waits_for_cooldown sample_writer 100 recording_since_100
                (motion_at 110) (motion_at 112) Hopen Hlast eq_refl)
      as (_ & _ & _ & Hlate).
    apply Hlate; [discriminate | reflexivity | reflexivity].
Defined.

(** ** [capture_image] *)

(** X12.  [capture_image] never raises and never changes the detector, so a
    still taken while recording does not go into the clip and does not
    count as a frame.  It returns [None] exactly when the feed is inactive,
    the camera is missing or not opened, the read gives no frame, or the
    read raises; otherwise it returns the frame, turned when the
    orientation is exactly ["vertical"] and as read for any other
    orientation, with a file name under [CAPTURE_DIR]. *)
Theorem capture_image_outcome e (orientation : string) s :
  let r := capture_image e orientation s in
  snd r = s /\
  (exists v, fst r = Returned v) /\
  (fst r = Returned None <->
   feed_unavailable s = true \/ still_read e = Returned None
   \/ exists what, still_read e = Raised what) /\
  (forall frame,
      feed_unavailable s = false -> still_read e = Returned (Some frame) ->
      fst r = Returned
                (Some (if String.eqb orientation "vertical"
                       then rotate_90_clockwise frame else frame,
                       capture_filename (still_strftime e)))).
Proof.
  cbv zeta. split; [apply capture_image_state|].
  unfold capture_image. run_method.
  destruct (feed_unavailable s); cbn.
  - split; [eexists; reflexivity|]. split.
    + split; [intros _; left; reflexivity | reflexivity].
    + intros frame H. discriminate H.
  - destruct (still_read e) as [[frame|]|what]; cbn.
    + split; [eexists; reflexivity|]. split.
      * split; [intros H; discriminate H|].
        intros [H|[H|[what H]]]; discriminate H.
      * intros frame' _ H. injection H as <-. reflexivity.
    + split; [eexists; reflexivity|]. split.
      * split; [intros _; right; left; reflexivity | reflexivity].
      * intros frame _ H. discriminate H.
    + split; [eexists; reflexivity|]. split.
      * split; [intros _; right; right; exists what; reflexivity | reflexivity].
      * intros frame _ H. discriminate H.
Qed.

(** * Settings *)

(** ** Dictionaries *)

Lemma dict_get_set_same k v d : dict_get k (dict_set k v d) = Some v.
Proof.
  induction d as [|[k' v'] d IH]; cbn.
  - rewrite String.eqb_refl. reflexivity.
  - destruct (String.eqb k' k) eqn:E; cbn; rewrite E; [reflexivity | exact IH].
Qed.

Lemma dict_get_set_other k k' v d :
  k' <> k -> dict_get k' (dict_set k v d) = dict_get k' d.
Proof.
  intros Hne. induction d as [|[k0 v0] d IH]; cbn.
  - destruct (String.eqb_spec k k'); [congruence | reflexivity].
  - destruct (String.eqb_spec k0 k) as [->|Hk]; cbn.
    + destruct (String.eqb_spec k k'); [congruence | reflexivity].
    + destruct (String.eqb k0 k'); [reflexivity | exact IH].
Qed.

Lemma dict_get_set k k' v d :
  dict_get k' (dict_set k v d) = if String.eqb k k' then Some v else dict_get k' d.
Proof.
  destruct (String.eqb_spec k k') as [->|Hne].
  - apply dict_get_set_same.
  - apply dict_get_set_other. congruence.
Qed.












Lemma dict_get_json_dict k d :
  dict_get k (json_dict d) = option_map json_value (dict_get k d).
Proof.
  induction d as [|[k' v] d IH]; cbn; [reflexivity|].
  destruct (String.eqb k' k); [reflexivity | exact IH].
Qed.

Lemma json_value_idempotent v : json_value (json_value v) = json_value v.
Proof. destruct v; reflexivity. Qed.

(** ** The methods of [SettingsManager] *)

Lemma save_settings_debounced e new_settings m :
  Settings.t_save e - Settings.last_save_time m < Settings.SAVE_DEBOUNCE_INTERVAL ->
  Settings.save_settings e new_settings m = (Returned false, m).
Proof.
  intros Hsoon. apply Qltb_true in Hsoon.
  unfold Settings.save_settings. unfold bind at 1. unfold get at 1.
  rewrite Hsoon. reflexivity.
Qed.

(** The settings once the argument of [save_settings] is merged in. *)
Lemma save_settings_due e new_settings m :
  Settings.SAVE_DEBOUNCE_INTERVAL <= Settings.t_save e - Settings.last_save_time m ->
  Settings.save_settings e new_settings m
  = let merged :=
      match Settings.given new_settings with
      | Some d => Settings.set_settings (dict_update (Settings.settings m) d) m
      | None => m
      end in
    match Settings.open_raises e with
    | None =>
        (Returned true,
         Settings.set_last_save_time (Settings.t_save e)
           (Settings.set_disk
              (Some (Settings.JsonObject (json_dict (Settings.settings merged))))
              merged))
    | Some what =>
        if existsb (String.eqb what) ["PermissionError"; "OSError"]%string
        then (Returned false, merged)
        else (Raised what, merged)
    end.
Proof.
  intros Hdue. apply Qltb_false in Hdue.
  unfold Settings.save_settings. unfold bind at 1. unfold get at 1.
  rewrite Hdue. cbv zeta.
  destruct (Settings.given new_settings) as [d|];
    unfold try_except_only, may_raise_named; run_method;
    destruct (Settings.open_raises e) as [what|]; cbn; try reflexivity;
    destruct (existsb _ _); reflexivity.
Qed.

Lemma save_settings_none_settings e m :
  Settings.settings (snd (Settings.save_settings e None m)) = Settings.settings m.
Proof.
  destruct (Qlt_le_dec (Settings.t_save e - Settings.last_save_time m)
              Settings.SAVE_DEBOUNCE_INTERVAL) as [Hsoon|Hdue].
  - rewrite save_settings_debounced by exact Hsoon. reflexivity.
  - rewrite save_settings_due by exact Hdue. cbv zeta. cbn [Settings.given].
    destruct (Settings.open_raises e) as [what|]; [|reflexivity].
    match goal with |- context [if ?b then _ else _] => destruct b end;
      reflexivity.
Qed.

Lemma set_settings_after e key value save m :
  Settings.settings (snd (Settings.set e key value save m))
  = dict_set key value (Settings.settings m).
Proof.
  unfold Settings.set. unfold bind at 1. unfold modify at 1.
  destruct save; [|reflexivity].
  unfold bind.
  pose proof (save_settings_none_settings e
                (Settings.set_settings (dict_set key value (Settings.settings m)) m))
    as Hsame.
  destruct (Settings.save_settings e None _) as [[b|what] m1]; exact Hsame.
Qed.

Lemma set_calls_save e key value m :
  snd (Settings.set e key value true m)
  = snd (Settings.save_settings e None
           (Settings.set_settings (dict_set key value (Settings.settings m)) m)).
Proof.
  unfold Settings.set. unfold bind at 1. unfold modify at 1. unfold bind.
  destruct (Settings.save_settings e None _) as [[b|what] m1]; reflexivity.
Qed.

(** X13.  [set] followed by [get]: after [set(key, value)] the manager
    answers [value] for [key], and what it answered before for every other
    key, whether or not the save was asked for, was skipped because it came
    too soon, failed, or raised. *)
Theorem set_then_get e key value save m :
  let m' := snd (Settings.set e key value save m) in
  (forall default, Settings.get key default m' = value) /\
  (forall k default, k <> key -> Settings.get k default m' = Settings.get k default m).
Proof.
  cbv zeta. unfold Settings.get, dict_get_default.
  rewrite set_settings_after. split.
  - intros default. rewrite dict_get_set_same. reflexivity.
  - intros k default Hne. rewrite dict_get_set_other by exact Hne. reflexivity.
Qed.

(** X14.  A save that fails does not start the waiting time.  When
    [save_settings] is due and opening the file raises [PermissionError] or
    [OSError], it returns [False]; the file and [last_save_time] are as
    before, while the settings passed in stay merged in memory.  The next
    call, however soon, is therefore due again, and when its write goes
    through it returns [True] and the file holds the settings, the merged
    ones included. *)
Theorem failed_save_is_retried e new_settings what e2 m :
  Settings.SAVE_DEBOUNCE_INTERVAL <= Settings.t_save e - Settings.last_save_time m ->
  Settings.open_raises e = Some what ->
  Settings.save_handles what = true ->
  Settings.t_save e <= Settings.t_save e2 ->
  Settings.open_raises e2 = None ->
  let r := Settings.save_settings e new_settings m in
  fst r = Returned false /\
  Settings.disk (snd r) = Settings.disk m /\
  Settings.last_save_time (snd r) = Settings.last_save_time m /\
  Settings.settings (snd r)
  = match Settings.given new_settings with
    | Some d => dict_update (Settings.settings m) d
    | None => Settings.settings m
    end /\
  fst (Settings.save_settings e2 None (snd r)) = Returned true /\
  Settings.disk (snd (Settings.save_settings e2 None (snd r)))
  = Some (Settings.JsonObject (json_dict (Settings.settings (snd r)))).
Proof.
  intros Hdue Hraise Hhandled Hlater Hok. cbv zeta.
  rewrite save_settings_due by exact Hdue. cbv zeta. rewrite Hraise.
  unfold Settings.save_handles in Hhandled. rewrite Hhandled. cbn [fst snd].
  set (merged := match Settings.given new_settings with
                 | Some d => _ | None => m end).
  assert (Hlast : Settings.last_save_time merged = Settings.last_save_time m).
  { subst merged. destruct (Settings.given new_settings); reflexivity. }
  assert (Hdisk : Settings.disk merged = Settings.disk m).
  { subst merged. destruct (Settings.given new_settings); reflexivity. }
  split; [reflexivity|]. split; [exact Hdisk|]. split; [exact Hlast|].
  split; [subst merged; destruct (Settings.given new_settings); reflexivity|].
  rewrite save_settings_due by (rewrite Hlast; lra).
  cbv zeta. rewrite Hok. cbn. split; reflexivity.
Qed.

(** X15.  Two [set] calls in quick succession: when the save of the first
    goes through and the second comes less than [SAVE_DEBOUNCE_INTERVAL]
    later, both values are in memory but the file holds the settings as
    they were after the first call only; for a different second key the
    file still has the value that key had before.  ([toggle_feed] sets
    ["camera_index"] and then ["feed_active"] this way.) *)
Theorem second_set_is_not_saved e1 e2 k1 v1 k2 v2 m :
  Settings.saves e1 m ->
  Settings.t_save e2 - Settings.t_save e1 < Settings.SAVE_DEBOUNCE_INTERVAL ->
  let m1 := snd (Settings.set e1 k1 v1 true m) in
  let m2 := snd (Settings.set e2 k2 v2 true m1) in
  Settings.settings m2 = dict_set k2 v2 (dict_set k1 v1 (Settings.settings m)) /\
  Settings.disk m2
  = Some (Settings.JsonObject (json_dict (dict_set k1 v1 (Settings.settings m)))) /\
  (k2 <> k1 ->
   dict_get k2 (json_dict (dict_set k1 v1 (Settings.settings m)))
   = option_map json_value (dict_get k2 (Settings.settings m))).
Proof.
  intros [Hdue Hok] Hsoon. cbv zeta.
  rewrite !set_settings_after. split; [reflexivity|].
  rewrite (set_calls_save e2), (set_calls_save e1).
  rewrite (save_settings_due e1) by exact Hdue. cbv zeta. rewrite Hok.
  cbn [Settings.given snd].
  rewrite save_settings_debounced by exact Hsoon. cbn [snd].
  split; [reflexivity|].
  intros Hne. rewrite dict_get_json_dict, dict_get_set_other by exact Hne.
  reflexivity.
Qed.

Lemma second_set_is_not_saved_witness :
  Settings.saves (Settings.mkSaveEnv 100 None)
    (snd (Settings.init "settings.json" None (Settings.mkLoadEnv None))) /\
  Settings.disk
    (snd (Settings.set (Settings.mkSaveEnv 100 None) "feed_active" (VBool true) true
            (snd (Settings.set (Settings.mkSaveEnv 100 None) "camera_index"
                    (VInt 1) true
                    (snd (Settings.init "settings.json" None
                            (Settings.mkLoadEnv None)))))))
  = Some (Settings.JsonObject
            (json_dict (dict_set "camera_index" (VInt 1) Settings.defaults))).
Proof.
  assert (Hsaves : Settings.saves (Settings.mkSaveEnv 100 None)
                     (snd (Settings.init "settings.json" None
                             (Settings.mkLoadEnv None)))).
  { split; [discriminate | reflexivity]. }
  assert (Hsoon : Settings.t_save (Settings.mkSaveEnv 100 None)
                  - Settings.t_save (Settings.mkSaveEnv 100 None)
                  < Settings.SAVE_DEBOUNCE_INTERVAL).
  { reflexivity. }
  destruct (second_set_is_not_saved (Settings.mkSaveEnv 100 None)
              (Settings.mkSaveEnv 100 None) "camera_index" (VInt 1)
              "feed_active" (VBool true) _ Hsaves Hsoon) as (_ & Hdisk & _).
  split; [exact Hsaves | exact Hdisk].
Defined.

Lemma failed_save_is_retried_witness :
  Settings.save_handles "PermissionError" = true /\
  fst (Settings.save_settings (Settings.mkSaveEnv 100 (Some "PermissionError"%string))
         (Some [("volume"%string, VFloat 0.5)])
         (snd (Settings.init "settings.json" None (Settings.mkLoadEnv None))))
  = Returned false /\
  fst (Settings.save_settings (Settings.mkSaveEnv 100 None) None
         (snd (Settings.save_settings
                 (Settings.mkSaveEnv 100 (Some "PermissionError"%string))
                 (Some [("volume"%string, VFloat 0.5)])
                 (snd (Settings.init "settings.json" None
                         (Settings.mkLoadEnv None))))))
  = Returned true.
Proof.
  assert (Hdue : Settings.SAVE_DEBOUNCE_INTERVAL
                 <= Settings.t_save (Settings.mkSaveEnv 100 (Some "PermissionError"%string))
                    - Settings.last_save_time
                        (snd (Settings.init "settings.json" None
                                (Settings.mkLoadEnv None)))).
  { discriminate. }
  assert (Hlater : Settings.t_save (Settings.mkSaveEnv 100 (Some "PermissionError"%string))
                   <= Settings.t_save (Settings.mkSaveEnv 100 None)).
  { discriminate. }
  destruct (failed_save_is_retried
              (Settings.mkSaveEnv 100 (Some "PermissionError"%string))
              (Some [("volume"%string, VFloat 0.5)]) "PermissionError"
              (Settings.mkSaveEnv 100 None) _ Hdue eq_refl eq_refl Hlater eq_refl)
    as (H1 & _ & _ & _ & H2 & _).
  split; [reflexivity|]. split; [exact H1 | exact H2].
Defined.















(** X19.  Settings passed to a [save_settings] that comes too soon are
    dropped for good: the call returns [False] and leaves memory and file
    as they were, and a later save that goes through writes the settings
    without them. *)
Theorem debounced_save_drops_settings e d e2 m :
  Settings.t_save e - Settings.last_save_time m < Settings.SAVE_DEBOUNCE_INTERVAL ->
  Settings.saves e2 m ->
  let r := Settings.save_settings e (Some d) m in
  r = (Returned false, m) /\
  Settings.save_settings e2 None (snd r)
  = (Returned true,
     Settings.set_last_save_time (Settings.t_save e2)
       (Settings.set_disk
          (Some (Settings.JsonObject (json_dict (Settings.settings m)))) m)).
Proof.
  intros Hsoon [Hdue Hok]. cbv zeta.
  rewrite save_settings_debounced by exact Hsoon. cbn [snd].
  split; [reflexivity|].
  rewrite save_settings_due by exact Hdue. cbv zeta. rewrite Hok. reflexivity.
Qed.

Lemma debounced_save_drops_settings_witness :
  Settings.save_settings (Settings.mkSaveEnv 100.5 None)
    (Some [("volume"%string, VFloat 0.5)])
    (snd (Settings.save_settings (Settings.mkSaveEnv 100 None) None
            (snd (Settings.init "settings.json" None (Settings.mkLoadEnv None)))))
  = (Returned false,
     snd (Settings.save_settings (Settings.mkSaveEnv 100 None) None
            (snd (Settings.init "settings.json" None (Settings.mkLoadEnv None))))).
Proof.
  assert (Hsoon : Settings.t_save (Settings.mkSaveEnv 100.5 None)
                  - Settings.last_save_time
                      (snd (Settings.save_settings (Settings.mkSaveEnv 100 None) None
                              (snd (Settings.init "settings.json" None
                                      (Settings.mkLoadEnv None)))))
                  < Settings.SAVE_DEBOUNCE_INTERVAL).
  { reflexivity. }
  assert (Hsaves : Settings.saves (Settings.mkSaveEnv 102 None)
                     (snd (Settings.save_settings (Settings.mkSaveEnv 100 None) None
                             (snd (Settings.init "settings.json" None
                                     (Settings.mkLoadEnv None)))))).
  { split; [discriminate | reflexivity]. }
  destruct (debounced_save_drops_settings (Settings.mkSaveEnv 100.5 None)
              [("volume"%string, VFloat 0.5)] (Settings.mkSaveEnv 102 None) _
              Hsoon Hsaves) as [H _].
  exact H.
Defined.

(** * The rest of [AudioAlertSystem] *)

(** ** [cleanup] *)

Lemma cleanup_cases e a :
  Audio.cleanup e a
  = (Returned tt,
     match tts_engine a with
     | None => a
     | Some _ =>
         if Audio.stop_raises e then a
         else if Audio.in_loop e && Audio.endLoop_raises e then a
         else Audio.set_tts_engine None a
     end).
Proof.
  unfold Audio.cleanup. run_method.
  destruct (tts_engine a); cbn; [|reflexivity].
  destruct (Audio.stop_raises e); cbn; [reflexivity|].
  destruct (Audio.in_loop e); cbn; [|reflexivity].
  destruct (Audio.endLoop_raises e); reflexivity.
Qed.

Lemma trigger_all_no_engine calls : forall a,
  tts_engine a = None ->
  Audio.trigger_all calls a = (map (fun _ => Returned false) calls, a).
Proof.
  induction calls as [|[e message] calls IH]; intros a Hnone; cbn [Audio.trigger_all map].
  - reflexivity.
  - rewrite trigger_alert_no_engine by exact Hnone. rewrite IH by exact Hnone.
    reflexivity.
Qed.

(** X20.  After a [cleanup] that goes through ([stop] does not raise, and
    neither does [endLoop] when the engine is in its loop), the engine is
    gone and no [trigger_alert] fires any more: every later call returns
    [False], speaks nothing and leaves [last_alert_time] alone.  A [cleanup]
    in which [stop] or [endLoop] raises returns all the same and leaves the
    alert system as it was, engine included. *)
Theorem cleanup_silences_alerts e a calls :
  fst (Audio.cleanup e a) = Returned tt /\
  last_alert_time (snd (Audio.cleanup e a)) = last_alert_time a /\
  spoken (snd (Audio.cleanup e a)) = spoken a /\
  (Audio.cleans e ->
   tts_engine (snd (Audio.cleanup e a)) = None /\
   Audio.trigger_all calls (snd (Audio.cleanup e a))
   = (map (fun _ => Returned false) calls, snd (Audio.cleanup e a))) /\
  (~ Audio.cleans e -> snd (Audio.cleanup e a) = a).
Proof.
  rewrite cleanup_cases. cbn [fst snd]. unfold Audio.cleans.
  split; [reflexivity|].
  destruct (tts_engine a) as [engine|] eqn:Heng.
  - destruct (Audio.stop_raises e).
    + split; [reflexivity|]. split; [reflexivity|].
      split; [intros [H _]; discriminate H | reflexivity].
    + destruct (Audio.in_loop e); cbn [andb].
      * destruct (Audio.endLoop_raises e).
        -- split; [reflexivity|]. split; [reflexivity|].
           split; [intros [_ [H|H]]; discriminate H | reflexivity].
        -- split; [reflexivity|]. split; [reflexivity|]. split.
           ++ intros _. split; [reflexivity|].
              apply trigger_all_no_engine. reflexivity.
           ++ intros H. exfalso. apply H. split; [reflexivity | right; reflexivity].
      * split; [reflexivity|]. split; [reflexivity|]. split.
        -- intros _. split; [reflexivity|].
           apply trigger_all_no_engine. reflexivity.
        -- intros H. exfalso. apply H. split; [reflexivity | left; reflexivity].
  - split; [reflexivity|]. split; [reflexivity|]. split; [|reflexivity].
    intros _. split; [exact Heng|]. apply trigger_all_no_engine, Heng.
Qed.

(** ** The voice of the engine *)

Lemma value_in_iff v ids :
  value_in v ids = true <-> exists s, v = VStr s /\ In s ids.
Proof.
  destruct v; cbn; try (split; [intros H; discriminate H | intros (s' & H & _); discriminate H]).
  rewrite existsb_exists. split.
  - intros (x & Hin & Heq). apply String.eqb_eq in Heq. subst x.
    exists s. split; [reflexivity | exact Hin].
  - intros (s' & Heq & Hin). injection Heq as <-. exists s.
    split; [exact Hin | apply String.eqb_refl].
Qed.

Lemma setProperty_cases raises (name : string) value a :
  Audio.setProperty raises name value a
  = if raises name then (Raised "setProperty"%string, a)
    else (Returned tt,
          Audio.set_properties (dict_set name value (Audio.properties a)) a).
Proof.
  unfold Audio.setProperty. run_method. destruct (raises name); reflexivity.
Qed.

Lemma voice_available_set a (name : string) value :
  Audio.voice_available a ->
  (name = "voice"%string -> value_in value (Audio.voice_ids a) = true) ->
  Audio.voice_available
    (Audio.set_properties (dict_set name value (Audio.properties a)) a).
Proof.
  unfold Audio.voice_available. cbn [Audio.properties Audio.voice_ids Audio.set_properties].
  intros Hav Hval. rewrite dict_get_set.
  destruct (String.eqb_spec name "voice"%string) as [Heq|Hne];
    [apply Hval; exact Heq | exact Hav].
Qed.

Lemma same_voices_refl a : Audio.same_voices a a.
Proof. repeat split. exact (fun H => H). Qed.

Lemma same_voices_trans a1 a2 a3 :
  Audio.same_voices a1 a2 -> Audio.same_voices a2 a3 -> Audio.same_voices a1 a3.
Proof.
  intros (Hi1 & Ha1 & Hv1) (Hi2 & Ha2 & Hv2). split; [congruence|].
  split; [congruence|]. intros H. apply Hv2, Hv1, H.
Qed.

Lemma setProperty_same_voices raises (name : string) value a o a' :
  (name = "voice"%string -> value_in value (Audio.voice_ids a) = true) ->
  Audio.setProperty raises name value a = (o, a') ->
  Audio.same_voices a a'.
Proof.
  intros Hval. rewrite setProperty_cases.
  destruct (raises name); intros H; injection H as _ <-;
    [apply same_voices_refl|].
  split; [reflexivity|]. split; [reflexivity|].
  intros Hav. apply voice_available_set; assumption.
Qed.

Lemma update_settings_same_voices raises settings a o a' :
  Audio.update_settings raises settings a = (o, a') -> Audio.same_voices a a'.
Proof.
  unfold Audio.update_settings. unfold bind at 1. unfold get at 1.
  destruct (is_none (tts_engine (Audio.alert a)));
    [intros H; injection H as _ <-; apply same_voices_refl|].
  unfold try_except.
  match goal with |- context [match ?body a with _ => _ end] =>
    destruct (body a) as [o1 a1] eqn:Hbody end.
  assert (Hsame : Audio.same_voices a a1).
  { revert Hbody. unfold bind at 1.
    destruct (match dict_get "speech_speed" settings with
              | Some v => Audio.setProperty raises "rate" v
              | None => ret tt
              end a) as [o2 a2] eqn:E1.
    assert (H1 : Audio.same_voices a a2).
    { destruct (dict_get "speech_speed" settings) as [v|].
      - eapply setProperty_same_voices; [|exact E1]. intros H; discriminate H.
      - injection E1 as _ <-. apply same_voices_refl. }
    destruct o2 as [[]|what]; [|intros H; injection H as _ <-; exact H1].
    unfold bind at 1.
    destruct (match dict_get "volume" settings with
              | Some v => Audio.setProperty raises "volume" v
              | None => ret tt
              end a2) as [o3 a3] eqn:E2.
    assert (H2 : Audio.same_voices a2 a3).
    { destruct (dict_get "volume" settings) as [v|].
      - eapply setProperty_same_voices; [|exact E2]. intros H; discriminate H.
      - injection E2 as _ <-. apply same_voices_refl. }
    destruct o3 as [[]|what]; [|intros H; injection H as _ <-;
                                 apply (same_voices_trans _ _ _ H1 H2)].
    intros E3.
    apply (same_voices_trans _ a3); [apply (same_voices_trans _ _ _ H1 H2)|].
    destruct (dict_get "voice_id" settings) as [v|];
      [|injection E3 as _ <-; apply same_voices_refl].
    destruct (value_in v (Audio.voice_ids a)) eqn:Hin;
      [|injection E3 as _ <-; apply same_voices_refl].
    eapply setProperty_same_voices; [|exact E3]. intros _.
    destruct H1 as [Hi1 _]. destruct H2 as [Hi2 _]. rewrite Hi2, Hi1. exact Hin. }
  destruct o1; intros H; injection H as _ <-; exact Hsame.
Qed.

Lemma value_in_head id ids : value_in (VStr id) (id :: ids) = true.
Proof. cbn. rewrite String.eqb_refl. reflexivity. Qed.

Lemma init_voice_available e settings :
  Audio.voice_available (Audio.init e settings).
Proof.
  unfold Audio.voice_available. run_init e; try exact I.
  destruct (value_truthy _ && value_in _ vs) eqn:Hcond; cbn.
  - apply andb_true_iff in Hcond. destruct Hcond as [_ Hin].
    destruct (Audio.setProperty_raises e "voice"); cbn; [exact I | exact Hin].
  - destruct vs as [|id0 ids]; cbn; [exact I|].
    destruct (Audio.setProperty_raises e "voice"); cbn; [exact I|].
    rewrite String.eqb_refl. reflexivity.
Qed.

Lemma on_alert_same_voices {A} (m : Method AudioAlertSystem A) a :
  Audio.voice_ids (snd (Audio.on_alert m a)) = Audio.voice_ids a /\
  Audio.properties (snd (Audio.on_alert m a)) = Audio.properties a.
Proof.
  unfold Audio.on_alert. destruct (m (Audio.alert a)). split; reflexivity.
Qed.

Lemma apply_op_voice op a :
  Audio.voice_available a ->
  Audio.voice_available (Audio.apply_op op a) /\
  Audio.voice_ids (Audio.apply_op op a) = Audio.voice_ids a.
Proof.
  intros Hav. destruct op; cbn [Audio.apply_op].
  - destruct (on_alert_same_voices (trigger_alert e message) a) as [Hi Hp].
    unfold Audio.voice_available. rewrite Hi, Hp. split; [exact Hav | reflexivity].
  - destruct (Audio.update_settings raises settings a) as [o a'] eqn:E.
    destruct (update_settings_same_voices _ _ _ _ _ E) as (Hi & _ & Hv).
    cbn [snd]. split; [apply Hv, Hav | exact Hi].
  - destruct (on_alert_same_voices (Audio.cleanup e) a) as [Hi Hp].
    unfold Audio.voice_available. rewrite Hi, Hp. split; [exact Hav | reflexivity].
Qed.

(** X21.  The engine never gets a voice it does not have.  After
    [__init__], whatever the saved settings hold, and after any calls of
    [update_settings], [trigger_alert] and [cleanup], the voice that was set
    on the engine, if any was, is the id of one of the voices the engine
    reported; the list of voice ids never changes after [__init__]. *)
Theorem voice_is_always_available e settings ops :
  Audio.voice_available (Audio.run_ops ops (Audio.init e settings)) /\
  Audio.voice_ids (Audio.run_ops ops (Audio.init e settings))
  = Audio.voice_ids (Audio.init e settings).
Proof.
  pose proof (init_voice_available e settings) as Hinit.
  revert Hinit. generalize (Audio.init e settings). unfold Audio.run_ops.
  induction ops as [|op ops IH]; intros a Hav; cbn [fold_left].
  - split; [exact Hav | reflexivity].
  - destruct (apply_op_voice op a Hav) as [Hav1 Hids1].
    destruct (IH _ Hav1) as [Hav2 Hids2].
    split; [exact Hav2 | congruence].
Qed.

(** X22.  The voice [__init__] picks.  When the set-up goes through and the
    engine reports at least one voice: the engine is kept, the rate and the
    volume are those of the settings (150 and 1.0 when the settings have
    none), and the voice is the saved ["voice_id"] when that is a non-empty
    string naming one of the reported voices, and the first reported voice
    in every other case: no saved id, an empty one (as in the default
    settings), one that is no string, or one the engine does not have. *)
Theorem init_voice_choice e settings id0 ids :
  Audio.init_raises e = false ->
  Audio.get_voices e = Returned (id0 :: ids) ->
  (forall name, Audio.setProperty_raises e name = false) ->
  let a := Audio.init e settings in
  Audio.alert a = alert_init (Some Pyttsx3) /\
  Audio.voice_ids a = id0 :: ids /\
  dict_get "rate" (Audio.properties a)
  = Some (dict_get_default "speech_speed" (VInt 150) settings) /\
  dict_get "volume" (Audio.properties a)
  = Some (dict_get_default "volume" (VFloat 1) settings) /\
  (forall s, dict_get "voice_id" settings = Some (VStr s) ->
             s <> ""%string -> In s (id0 :: ids) ->
             dict_get "voice" (Audio.properties a) = Some (VStr s)) /\
  ((forall s, dict_get "voice_id" settings = Some (VStr s) ->
              s = ""%string \/ ~ In s (id0 :: ids)) ->
   dict_get "voice" (Audio.properties a) = Some (VStr id0)).
Proof.
  intros Hinit Hvoices Hset. cbv zeta.
  unfold Audio.init.
  unfold try_except, bind, may_raise, modify, lift, get, ret, raise,
    Audio.setProperty.
  rewrite Hinit, Hvoices. cbn. rewrite !Hset. cbn.
  set (v := dict_get_default "voice_id" (VStr id0) settings).
  assert (Hcases :
    (forall s, dict_get "voice_id" settings = Some (VStr s) ->
               s <> ""%string -> In s (id0 :: ids) ->
               v = VStr s /\ value_truthy v && value_in v (id0 :: ids) = true) /\
    ((forall s, dict_get "voice_id" settings = Some (VStr s) ->
                s = ""%string \/ ~ In s (id0 :: ids)) ->
     value_truthy v && value_in v (id0 :: ids) = true -> v = VStr id0)).
  { subst v. unfold dict_get_default. split.
    - intros s Hs Hne Hin. rewrite Hs. split; [reflexivity|].
      apply andb_true_iff. split.
      + cbn. apply negb_true_iff. apply String.eqb_neq. exact Hne.
      + apply value_in_iff. exists s. split; [reflexivity | exact Hin].
    - intros Hnot Hcond. apply andb_true_iff in Hcond. destruct Hcond as [Ht Hin].
      destruct (dict_get "voice_id" settings) as [v|] eqn:Hv; [|reflexivity].
      apply value_in_iff in Hin. destruct Hin as (s & -> & Hin).
      destruct (Hnot s eq_refl) as [->|Hn]; [discriminate Ht | contradiction]. }
  destruct Hcases as [Hsaved Hfallback].
  destruct (value_truthy v && value_in v (id0 :: ids)) eqn:Hcond; cbn;
    rewrite ?Hset; cbn.
  - split; [reflexivity|]. split; [reflexivity|]. split; [reflexivity|].
    split; [reflexivity|]. split.
    + intros s Hs Hne Hin. destruct (Hsaved s Hs Hne Hin) as [-> _]. reflexivity.
    + intros Hnot. rewrite (Hfallback Hnot eq_refl). reflexivity.
  - split; [reflexivity|]. split; [reflexivity|]. split; [reflexivity|].
    split; [reflexivity|]. split.
    + intros s Hs Hne Hin. destruct (Hsaved s Hs Hne Hin) as [_ H]. discriminate H.
    + intros _. reflexivity.
Qed.

Lemma init_voice_choice_witness :
  dict_get "voice"
    (Audio.properties
       (Audio.init (Audio.mkInitEnv false (Returned ["david"; "zira"]%string)
                      (fun _ => false))
          Settings.defaults))
  = Some (VStr "david") /\
  dict_get "voice"
    (Audio.properties
       (Audio.init (Audio.mkInitEnv false (Returned ["david"; "zira"]%string)
                      (fun _ => false))
          (dict_set "voice_id" (VStr "zira") Settings.defaults)))
  = Some (VStr "zira").
Proof.
  split.
  - destruct (init_voice_choice
                (Audio.mkInitEnv false (Returned ["david"; "zira"]%string)
                   (fun _ => false))
                Settings.defaults "david" ["zira"%string]
                eq_refl eq_refl (fun _ => eq_refl))
      as (_ & _ & _ & _ & _ & Hfirst).
    apply Hfirst. intros s Hs. left. cbn in Hs. congruence.
  - destruct (init_voice_choice
                (Audio.mkInitEnv false (Returned ["david"; "zira"]%string)
                   (fun _ => false))
                (dict_set "voice_id" (VStr "zira") Settings.defaults)
                "david" ["zira"%string]
                eq_refl eq_refl (fun _ => eq_refl))
      as (_ & _ & _ & _ & Hsaved & _).
    apply (Hsaved "zira"%string); [reflexivity | discriminate |].
    right. left. reflexivity.
Defined.

(** X23.  When [__init__] keeps the engine.  The engine is discarded, so
    that no alert will ever fire, exactly when some step of the set-up
    raises: [pyttsx3.init], the query for the voices, setting the rate,
    setting the volume, or, when the engine reported a voice, setting the
    voice.  With no voice reported no voice is set, and a [setProperty] that
    would raise for the voice does no harm. *)
Theorem init_keeps_engine_iff e settings :
  tts_engine (Audio.alert (Audio.init e settings)) = None <->
  Audio.init_raises e = true \/
  (exists what, Audio.get_voices e = Raised what) \/
  Audio.setProperty_raises e "rate" = true \/
  Audio.setProperty_raises e "volume" = true \/
  (exists id ids, Audio.get_voices e = Returned (id :: ids) /\
                  Audio.setProperty_raises e "voice" = true).
Proof.
  unfold Audio.init.
  unfold try_except, bind, may_raise, modify, lift, get, ret, raise,
    Audio.setProperty.
  destruct (Audio.init_raises e) eqn:Hinit; cbn.
  { split; [intros _; left; reflexivity | reflexivity]. }
  destruct (Audio.get_voices e) as [vs|what] eqn:Hvoices; cbn.
  2:{ split; [intros _; right; left; exists what; reflexivity | reflexivity]. }
  destruct (Audio.setProperty_raises e "rate") eqn:Hrate; cbn.
  { split; [intros _; right; right; left; reflexivity | reflexivity]. }
  destruct (Audio.setProperty_raises e "volume") eqn:Hvol; cbn.
  { split; [intros _; right; right; right; left; reflexivity | reflexivity]. }
  assert (Hno : ~ (false = true \/ (exists what, Returned vs = @Raised (list string) what)
                   \/ false = true \/ false = true
                   \/ exists id ids, Returned vs = Returned (id :: ids) /\ false = true)).
  { intros [H|[[w H]|[H|[H|(id & ids' & _ & H)]]]]; discriminate H. }
  destruct (value_truthy _ && value_in _ vs) eqn:Hcond; cbn.
  - apply andb_true_iff in Hcond. destruct Hcond as [_ Hin].
    apply value_in_iff in Hin. destruct Hin as (s & _ & Hin).
    destruct vs as [|id0 ids]; [destruct Hin|].
    destruct (Audio.setProperty_raises e "voice") eqn:Hvoice; cbn.
    + split; [intros _|reflexivity].
      right; right; right; right. exists id0, ids. split; reflexivity.
    + split; [intros H; discriminate H | intros H; exfalso; apply Hno; exact H].
  - destruct vs as [|id0 ids]; cbn.
    + split; [intros H; discriminate H|].
      intros [H|[[w H]|[H|[H|(id & ids' & H & _)]]]]; discriminate H.
    + destruct (Audio.setProperty_raises e "voice") eqn:Hvoice; cbn.
      * split; [intros _|reflexivity].
        right; right; right; right. exists id0, ids. split; reflexivity.
      * split; [intros H; discriminate H | intros H; exfalso; apply Hno; exact H].
Qed.

(** * The window's use of the components *)

Lemma bind_snd {S A B} (m : Method S A) (k : A -> Method S B) s :
  snd (bind m k s)
  = match fst (m s) with
    | Returned a => snd (k a (snd (m s)))
    | Raised _ => snd (m s)
    end.
Proof. unfold bind. destruct (m s) as [[a|what] s']; reflexivity. Qed.

Lemma on_detector_eq {A} (m : Method MotionDetector A) w :
  Window.on_detector m w
  = (fst (m (Window.motion_detector w)),
     Window.set_motion_detector (snd (m (Window.motion_detector w))) w).
Proof. unfold Window.on_detector. destruct (m _); reflexivity. Qed.

Lemma on_audio_eq {A} (m : Method AudioAlertSystem A) w :
  Window.on_audio m w
  = (fst (m (Window.audio_system w)),
     Window.set_audio_system (snd (m (Window.audio_system w))) w).
Proof. unfold Window.on_audio. destruct (m _); reflexivity. Qed.

Lemma on_settings_eq {A} (m : Method Settings.SettingsManager A) w :
  Window.on_settings m w
  = (fst (m (Window.settings_manager w)),
     Window.set_settings_manager (snd (m (Window.settings_manager w))) w).
Proof. unfold Window.on_settings. destruct (m _); reflexivity. Qed.


(** What [toggle_feed] does to the detector, the timer and the audio
    system. *)
Lemma toggle_feed_devices e w :
  Window.motion_detector (snd (Window.toggle_feed e w))
  = (if feed_active (Window.motion_detector w)
     then after_stop_camera (Window.motion_detector w)
     else match Window.combo e with
          | Window.NoCamerasFound => Window.motion_detector w
          | Window.CameraItem i =>
              snd (start_camera (Window.device_opens e) i (Window.motion_detector w))
          end) /\
  Window.timer_active (snd (Window.toggle_feed e w))
  = (if feed_active (Window.motion_detector w) then false
     else match Window.combo e with
          | Window.NoCamerasFound => Window.timer_active w
          | Window.CameraItem i =>
              if Window.device_opens e then true else Window.timer_active w
          end) /\
  Window.audio_system (snd (Window.toggle_feed e w)) = Window.audio_system w.
Proof.
  unfold Window.toggle_feed. run_window.
  destruct (feed_active (Window.motion_detector w)); cbn [negb].
  - rewrite stop_camera_spec. run_window. split_calls; repeat split.
  - destruct (Window.combo e) as [|i]; run_window; [repeat split|].
    rewrite start_camera_spec. cbv zeta.
    destruct (Window.device_opens e); run_window; split_calls; repeat split.
Qed.

Lemma start_camera_feed device_opens index s :
  feed_active (snd (start_camera device_opens index s)) = device_opens.
Proof.
  rewrite start_camera_spec. cbv zeta. unfold camera_created.
  destruct device_opens; [reflexivity|]. fields.
  destruct (feed_active s) eqn:Hf; [|exact Hf].
  unfold after_stop_camera. destruct (cap s); reflexivity.
Qed.

Lemma after_stop_camera_feed s : feed_active (after_stop_camera s) = false.
Proof. unfold after_stop_camera. destruct (cap s); reflexivity. Qed.

Lemma toggle_feed_timer e w :
  Window.timer_follows_feed w ->
  Window.timer_follows_feed (snd (Window.toggle_feed e w)).
Proof.
  unfold Window.timer_follows_feed. intros Hinv.
  destruct (toggle_feed_devices e w) as (-> & -> & _).
  destruct (feed_active (Window.motion_detector w)) eqn:Hf.
  - rewrite after_stop_camera_feed. reflexivity.
  - destruct (Window.combo e) as [|i]; [congruence|].
    rewrite start_camera_feed. destruct (Window.device_opens e); congruence.
Qed.

(** What [update_feed] does on a tick that gives a frame. *)
Lemma update_feed_frame e w frame rects md st d1 :
  detect_motion (Window.tick e) (Window.motion_detector w)
  = (Returned (Some frame, rects, md, st), d1) ->
  Window.motion_detector (snd (Window.update_feed e w)) = d1 /\
  Window.timer_active (snd (Window.update_feed e w)) = Window.timer_active w /\
  Window.settings_manager (snd (Window.update_feed e w)) = Window.settings_manager w /\
  Window.audio_system (snd (Window.update_feed e w))
  = if md
    then snd (trigger_alert (Window.alert_env e) "Motion detected!"
                (Window.audio_system w))
    else Window.audio_system w.
Proof.
  intros Htick. remember (snd (Window.update_feed e w)) as w' eqn:Hw'.
  revert Hw'. unfold Window.update_feed. unfold bind at 1.
  rewrite on_detector_eq, Htick. cbn [fst snd]. run_window.
  destruct md; destruct st as [[| |]|]; run_window; cbv beta; run_window;
    split_calls; intros ->; repeat split.
Qed.

(** What it does on a tick that gives none. *)
Lemma update_feed_no_frame e w rects md st d1 :
  detect_motion (Window.tick e) (Window.motion_detector w)
  = (Returned (None, rects, md, st), d1) ->
  snd (Window.update_feed e w)
  = snd (Window.toggle_feed (Window.toggle e)
           (Window.show
              (Window.SetStatus (Window.ErrorReadingFrame (camera_index d1)))
              (Window.set_motion_detector d1 w))).
Proof.
  intros Htick. unfold Window.update_feed. unfold bind at 1.
  rewrite on_detector_eq, Htick. cbn [fst snd].
  unfold bind at 1. unfold get at 1. unfold bind at 1. unfold modify at 1.
  reflexivity.
Qed.

Lemma detect_motion_returns e s : exists r, fst (detect_motion e s) = Returned r.
Proof.
  rewrite detect_motion_cases. destruct (feed_unavailable s); [eexists; reflexivity|].
  destruct (detect_motion_body e s) as [[r|what] s']; eexists; reflexivity.
Qed.

Lemma update_feed_timer e w :
  Window.timer_follows_feed w ->
  Window.timer_follows_feed (snd (Window.update_feed e w)).
Proof.
  intros Hinv.
  destruct (detect_motion_returns (Window.tick e) (Window.motion_detector w))
    as [[[[f rects] md] st] Hret].
  pose proof (session_steps_same_camera _ _
                (detect_motion_steps (Window.tick e) (Window.motion_detector w)))
    as (_ & Hfeed & _).
  destruct (detect_motion (Window.tick e) (Window.motion_detector w))
    as [o d1] eqn:Htick. cbn [fst snd] in *. subst o.
  destruct f as [frame|].
  - destruct (update_feed_frame e w frame rects md st d1 Htick) as (Hd & Ht & _).
    unfold Window.timer_follows_feed in *. rewrite Hd, Ht, Hfeed. exact Hinv.
  - rewrite (update_feed_no_frame e w rects md st d1 Htick).
    apply toggle_feed_timer. unfold Window.timer_follows_feed in *. cbn.
    rewrite Hfeed. exact Hinv.
Qed.

Lemma closeEvent_devices e w :
  Window.motion_detector (snd (Window.closeEvent e w))
  = (if feed_active (Window.motion_detector w)
     then after_stop_camera (Window.motion_detector w)
     else Window.motion_detector w) /\
  Window.timer_active (snd (Window.closeEvent e w))
  = (if feed_active (Window.motion_detector w) then false
     else Window.timer_active w) /\
  Window.audio_system (snd (Window.closeEvent e w)) = Window.audio_system w /\
  Window.settings_manager (snd (Window.closeEvent e w))
  = snd (Settings.save_settings e None (Window.settings_manager w)).
Proof.
  unfold Window.closeEvent. run_window.
  destruct (feed_active (Window.motion_detector w)).
  - unfold cleanup. run_window. rewrite stop_camera_spec. run_window.
    destruct (Settings.save_settings e None _) as [[b|what] s1]; repeat split.
  - run_window.
    destruct (Settings.save_settings e None _) as [[b|what] s1]; repeat split.
Qed.

Lemma closeEvent_timer e w :
  Window.timer_follows_feed w ->
  Window.timer_follows_feed (snd (Window.closeEvent e w)).
Proof.
  unfold Window.timer_follows_feed. intros Hinv.
  destruct (closeEvent_devices e w) as (-> & -> & _).
  destruct (feed_active (Window.motion_detector w)) eqn:Hf.
  - rewrite after_stop_camera_feed. reflexivity.
  - congruence.
Qed.

(** X24.  The timer runs exactly while the feed is active.  From a window
    whose detector is fresh and whose timer is stopped, after any sequence
    of [update_feed], [toggle_feed] and [closeEvent], with whatever the
    camera, the disk and the engine do, [timer_active] equals
    [feed_active]: no tick is scheduled on a stopped camera, and a running
    camera is always polled. *)
Theorem timer_runs_while_feed_active s a evs :
  Window.timer_follows_feed (Window.run_events evs (Window.fresh s a)).
Proof.
  assert (Hfresh : Window.timer_follows_feed (Window.fresh s a)) by reflexivity.
  revert Hfresh. generalize (Window.fresh s a). unfold Window.run_events.
  induction evs as [|ev evs IH]; intros w Hinv; cbn [fold_left]; [exact Hinv|].
  apply IH. destruct ev; cbn [Window.handle].
  - apply update_feed_timer, Hinv.
  - apply toggle_feed_timer, Hinv.
  - apply closeEvent_timer, Hinv.
Qed.

(** How a tick can come to give no frame: it stops before the recording
    step and leaves the detector as it was, or it passes the recording
    step, finds a session open and fails in drawing the overlay, and then
    leaves what [check_recording_status] left. *)
Lemma detect_motion_failed e s s' :
  detect_motion e s = (Returned failed_tick, s') ->
  s' = s \/
  exists frame contours,
    cap_read e = Returned (Some frame) /\
    find_contours e = Returned contours /\
    overlay_raises e = true /\
    s' = snd (check_recording_status (rec_env e) (existsb survives contours) frame s) /\
    recording s' = true.
Proof.
  rewrite detect_motion_cases.
  destruct (feed_unavailable s); [intros H; injection H as <-; left; reflexivity|].
  unfold detect_motion_body. unfold bind at 1. unfold lift at 1.
  destruct (cap_read e) as [[frame|]|what];
    [|intros H; injection H as <-; left; reflexivity..].
  unfold bind at 1. unfold lift at 1.
  destruct (find_contours e) as [contours|what];
    [|intros H; injection H as <-; left; reflexivity].
  destruct (contour_loop_spec contours frame) as [frame1 ->].
  unfold bind at 1.
  destruct (check_returns (rec_env e) (existsb survives contours) frame s)
    as [[status path] Hret].
  destruct (check_recording_status (rec_env e) (existsb survives contours) frame s)
    as [o1 s1] eqn:Hcheck.
  cbn [fst] in Hret. subst o1.
  unfold bind, get, ret, may_raise, raise, failed_tick. cbn [fst snd].
  destruct (recording s1) eqn:Hrec; [destruct (overlay_raises e)|];
    cbn [fst snd]; intros H; try discriminate H.
  injection H as <-.
  right. exists frame, contours. rewrite Hcheck.
  split; [reflexivity|]. split; [reflexivity|]. split; [reflexivity|].
  split; [reflexivity | exact Hrec].
Qed.

(** A tick that stops before the recording step leaves the detector as it
    was. *)
Lemma detect_motion_stops_early e s :
  feed_unavailable s = true \/
  (forall frame, cap_read e <> Returned (Some frame)) \/
  (exists what, find_contours e = Raised what) ->
  snd (detect_motion e s) = s.
Proof.
  intros Hearly. rewrite detect_motion_cases.
  destruct (feed_unavailable s); [reflexivity|].
  destruct Hearly as [H|Hearly]; [discriminate H|].
  unfold detect_motion_body. unfold bind at 1. unfold lift at 1.
  destruct (cap_read e) as [[frame|]|what]; [|reflexivity..].
  destruct Hearly as [H|[what H]]; [exfalso; apply (H frame); reflexivity|].
  unfold bind at 1. unfold lift at 1. rewrite H. reflexivity.
Qed.

(** X25.  A tick that gives no frame turns the feed off.  When the feed is
    active and [detect_motion] returns no frame, [update_feed] stops the
    camera: the handle that the detector holds is released, by one
    [release] call that comes after everything the tick did, and the
    detector is left with no handle and the feed off; the timer is stopped,
    ["feed_active"] is set to false in the settings in memory, and no alert
    is triggered.  The recording session is left as [detect_motion] left it,
    with no writer released by the stop.  That is the session the tick found
    when the tick stopped before the recording step (the feed not available,
    the read giving no frame or raising, the image processing raising).  It
    is not when the tick failed in the overlay: then
    [check_recording_status] has run, the session is open, possibly opened
    by this very tick, and the camera is turned off with that session
    open. *)
Theorem failed_tick_turns_feed_off e w :
  feed_active (Window.motion_detector w) = true ->
  fst (detect_motion (Window.tick e) (Window.motion_detector w))
  = Returned (None, [], false, None) ->
  let d := Window.motion_detector w in
  let d1 := snd (detect_motion (Window.tick e) d) in
  let w' := snd (Window.update_feed e w) in
  let d' := Window.motion_detector w' in
  feed_active d' = false /\
  cap d' = None /\
  (forall c, cap d = Some c -> calls d' = calls d1 ++ [CaptureRelease c]) /\
  (cap d = None -> calls d' = calls d1) /\
  Window.timer_active w' = false /\
  Window.audio_system w' = Window.audio_system w /\
  Settings.get "feed_active" VNone (Window.settings_manager w') = VBool false /\
  recording d' = recording d1 /\
  video_writer d' = video_writer d1 /\
  (feed_unavailable d = true \/
   (forall frame, cap_read (Window.tick e) <> Returned (Some frame)) \/
   (exists what, find_contours (Window.tick e) = Raised what) ->
   d1 = d) /\
  (d1 = d \/
   exists frame contours,
     cap_read (Window.tick e) = Returned (Some frame) /\
     find_contours (Window.tick e) = Returned contours /\
     overlay_raises (Window.tick e) = true /\
     d1 = snd (check_recording_status (rec_env (Window.tick e))
                 (existsb survives contours) frame d) /\
     recording d1 = true).
Proof.
  intros Hfeed Hnone. cbv zeta.
  pose proof (session_steps_same_camera _ _
                (detect_motion_steps (Window.tick e) (Window.motion_detector w)))
    as (Hcap1 & Hfeed1 & _).
  pose proof (detect_motion_stops_early (Window.tick e) (Window.motion_detector w))
    as Hearly.
  destruct (detect_motion (Window.tick e) (Window.motion_detector w))
    as [o d1] eqn:Htick. cbn [fst snd] in *. subst o.
  pose proof (detect_motion_failed (Window.tick e) (Window.motion_detector w) d1 Htick)
    as Hleft.
  rewrite (update_feed_no_frame e w [] false None d1 Htick).
  set (w1 := Window.show _ _).
  assert (Hd1 : Window.motion_detector w1 = d1) by reflexivity.
  assert (Hf1 : feed_active (Window.motion_detector w1) = true).
  { rewrite Hd1. congruence. }
  destruct (toggle_feed_devices (Window.toggle e) w1) as (Hd & Ht & Ha).
  rewrite Hf1 in Hd, Ht. rewrite Hd, Ht, Ha, Hd1.
  split; [apply after_stop_camera_feed|].
  split; [unfold after_stop_camera; destruct (cap d1) eqn:Hc; fields; congruence|].
  split.
  { intros c Hc. unfold after_stop_camera. rewrite Hcap1, Hc. reflexivity. }
  split.
  { intros Hc. unfold after_stop_camera. rewrite Hcap1, Hc. reflexivity. }
  split; [reflexivity|]. split; [reflexivity|].
  split.
  { unfold Window.toggle_feed. run_window. rewrite Hf1. cbn [negb].
    rewrite stop_camera_spec. run_window.
    assert (Hget : Settings.get "feed_active" VNone
                     (snd (Settings.set (Window.save_first (Window.toggle e))
                             "feed_active" (VBool false) true
                             (Window.settings_manager w1))) = VBool false).
    { unfold Settings.get, dict_get_default.
      rewrite set_settings_after, dict_get_set_same. reflexivity. }
    destruct (Settings.set _ _ _ _ _) as [[[]|what] s1]; run_window;
      cbn [snd] in Hget;
      try (destruct (Window.blank_raises (Window.toggle e)); run_window);
      exact Hget. }
  split; [unfold after_stop_camera; destruct (cap d1); reflexivity|].
  split; [unfold after_stop_camera; destruct (cap d1); reflexivity|].
  split; [exact Hearly | exact Hleft].
Qed.

Lemma failed_tick_turns_feed_off_witness :
  feed_active (Window.motion_detector polling_window) = true /\
  fst (detect_motion (Window.tick no_frame_feed)
         (Window.motion_detector polling_window))
  = Returned (None, [], false, None) /\
  feed_active (Window.motion_detector
                 (snd (Window.update_feed no_frame_feed polling_window))) = false /\
  Window.timer_active (snd (Window.update_feed no_frame_feed polling_window))
  = false /\
  calls (Window.motion_detector
           (snd (Window.update_feed no_frame_feed polling_window)))
  = calls camera_on ++ [CaptureRelease (mkVideoCapture 0 true)] /\
  fst (detect_motion (Window.tick overlay_fails_feed)
         (Window.motion_detector polling_window))
  = Returned (None, [], false, None) /\
  recording (Window.motion_detector polling_window) = false /\
  recording (Window.motion_detector
               (snd (Window.update_feed overlay_fails_feed polling_window))) = true /\
  cap (Window.motion_detector
         (snd (Window.update_feed overlay_fails_feed polling_window))) = None.
Proof.
  destruct (failed_tick_turns_feed_off no_frame_feed polling_window
              eq_refl eq_refl) as (Hfeed & _ & Hcalls & _ & Htimer & _).
  destruct (failed_tick_turns_feed_off overlay_fails_feed polling_window
              eq_refl eq_refl) as (_ & Hcap & _ & _ & _ & _ & _ & Hrec & _).
  split; [reflexivity|]. split; [reflexivity|].
  split; [exact Hfeed|]. split; [exact Htimer|].
  split; [apply (Hcalls (mkVideoCapture 0 true)); reflexivity|].
  split; [reflexivity|]. split; [reflexivity|].
  split; [rewrite Hrec; reflexivity | exact Hcap].
Defined.

(** X26.  Every tick with motion asks for an alert, recording or not.  On a
    tick that gives a frame, [update_feed] calls [trigger_alert] exactly
    when the tick saw motion, whatever the recording status of the tick; the
    detector is the one the tick left, and the timer and the settings are
    untouched.  So with motion, an engine, a delivery that goes through and
    the timeout over, the message is spoken and [last_alert_time] moves,
    also on ticks that report "started" or "recording". *)
Theorem alert_on_every_motion_tick e w frame rects md st d1 :
  detect_motion (Window.tick e) (Window.motion_detector w)
  = (Returned (Some frame, rects, md, st), d1) ->
  let w' := snd (Window.update_feed e w) in
  Window.motion_detector w' = d1 /\
  Window.timer_active w' = Window.timer_active w /\
  Window.settings_manager w' = Window.settings_manager w /\
  (md = false -> Window.audio_system w' = Window.audio_system w) /\
  (md = true ->
   Window.audio_system w'
   = snd (trigger_alert (Window.alert_env e) "Motion detected!"
            (Window.audio_system w))) /\
  (md = true ->
   tts_engine (Window.audio_system w) <> None ->
   MOTION_TIMEOUT
   < t_alert (Window.alert_env e) - last_alert_time (Window.audio_system w) ->
   working (Window.alert_env e) ->
   spoken (Window.audio_system w')
   = spoken (Window.audio_system w) ++ ["Motion detected!"%string] /\
   last_alert_time (Window.audio_system w') = t_alert (Window.alert_env e)).
Proof.
  intros Htick. cbv zeta.
  destruct (update_feed_frame e w frame rects md st d1 Htick) as (Hd & Ht & Hs & Ha).
  split; [exact Hd|]. split; [exact Ht|]. split; [exact Hs|].
  split; [intros ->; exact Ha|]. split; [intros ->; exact Ha|].
  intros -> Heng Hgt Hwork. rewrite Ha.
  rewrite trigger_alert_fires by assumption. split; reflexivity.
Qed.

Lemma alert_on_every_motion_tick_witness :
  recording (Window.motion_detector recording_window) = true /\
  spoken (Window.audio_system (snd (Window.update_feed motion_feed recording_window)))
  = ["Motion detected!"%string].
Proof.
  split; [reflexivity|].
  eassert (Htick : detect_motion (Window.tick motion_feed)
                     (Window.motion_detector recording_window)
                   = (Returned (Some _, _, _, _), _)).
  { cbv. reflexivity. }
  destruct (alert_on_every_motion_tick motion_feed recording_window _ _ _ _ _ Htick)
    as (_ & _ & _ & _ & _ & Hspoken).
  destruct Hspoken as [Hs _];
    [reflexivity | discriminate | reflexivity | split; reflexivity | exact Hs].
Defined.

(** X27.  Closing the window.  When the feed is active, [closeEvent] stops
    the timer and releases the camera: the handle that the detector holds
    gets one [release] call, the last call in the log, and the detector is
    left with no handle and the feed off.  When the feed is not active it
    leaves the detector and the timer alone, and no handle is released.  In
    neither case does it touch the recording session, so a clip that is
    being recorded is not finalized: its writer stays held and unreleased.
    It then calls [save_settings], whose waiting time applies here too:
    less than [SAVE_DEBOUNCE_INTERVAL] after the last save nothing is
    written, and the file keeps what the last save put there. *)
Theorem close_event_outcome e w :
  let d := Window.motion_detector w in
  let w' := snd (Window.closeEvent e w) in
  let d' := Window.motion_detector w' in
  (feed_active d = true ->
   cap d' = None /\ feed_active d' = false /\ Window.timer_active w' = false /\
   (forall c, cap d = Some c ->
              calls d' = calls d ++ [CaptureRelease c] /\
              In (CaptureRelease c) (calls d')) /\
   (cap d = None -> calls d' = calls d)) /\
  (feed_active d = false -> d' = d /\ Window.timer_active w' = Window.timer_active w) /\
  recording d' = recording d /\
  video_writer d' = video_writer d /\
  (forall wr, In (WriterRelease wr) (calls d') -> In (WriterRelease wr) (calls d)) /\
  Window.settings_manager w'
  = snd (Settings.save_settings e None (Window.settings_manager w)) /\
  (Settings.t_save e - Settings.last_save_time (Window.settings_manager w)
   < Settings.SAVE_DEBOUNCE_INTERVAL ->
   Window.settings_manager w' = Window.settings_manager w).
Proof.
  cbv zeta. destruct (closeEvent_devices e w) as (Hd & Ht & _ & Hs).
  rewrite Hd, Ht, Hs.
  destruct (feed_active (Window.motion_detector w)) eqn:Hf.
  - split.
    { intros _. split; [|split; [apply after_stop_camera_feed | split; [reflexivity|]]].
      - unfold after_stop_camera.
        destruct (cap (Window.motion_detector w)) eqn:Hc; fields; congruence.
      - split.
        + intros c Hc. unfold after_stop_camera. rewrite Hc. fields.
          split; [reflexivity|]. apply in_or_app. right. left. reflexivity.
        + intros Hc. unfold after_stop_camera. rewrite Hc. reflexivity. }
    split; [intros H; discriminate H|].
    unfold after_stop_camera. destruct (cap (Window.motion_detector w)); fields.
    + split; [reflexivity|]. split; [reflexivity|]. split.
      * intros wr Hin. apply in_app_or in Hin.
        destruct Hin as [Hin|[Hin|[]]]; [exact Hin | discriminate Hin].
      * split; [reflexivity|]. intros Hsoon.
        rewrite save_settings_debounced by exact Hsoon. reflexivity.
    + split; [reflexivity|]. split; [reflexivity|]. split; [intros wr Hin; exact Hin|].
      split; [reflexivity|]. intros Hsoon.
      rewrite save_settings_debounced by exact Hsoon. reflexivity.
  - split; [intros H; discriminate H|]. split; [intros _; split; reflexivity|].
    split; [reflexivity|]. split; [reflexivity|]. split; [intros wr Hin; exact Hin|].
    split; [reflexivity|]. intros Hsoon.
    rewrite save_settings_debounced by exact Hsoon. reflexivity.
Qed.
